(** * Pathfinder analytics: the record pipeline

    A shallow embedding of the client-side record pipeline of the dashboard
    (normalise, filter, sort, paginate, aggregate) and the properties the
    specification states about it.

    Conventions of the embedding:
    - a JavaScript integer-valued [number] (step counts, list lengths, time
      values in milliseconds) is a [Z]; a [number] produced by arithmetic on
      fractions is the rational value [Q] of the double the source computes:
      every [+], [-], [*] and [/] rounds its exact result to the nearest
      double, ties to even ([Js.binary64]);
    - a call that can throw returns a [Js.Completion]: the value returned or
      the exception thrown;
    - a field that the JSON payload may omit ([undefined] / [null]) is an
      [option]; [None] is falsy, and so is the empty string and the number 0;
    - a [Date] object is a [JsDate]: a time value or [InvalidDate] (whose time
      value is NaN, so every comparison with it is false);
    - a [Map] or an object used as a dictionary is an association list in
      insertion order, which is the order [Map.values] and [Object.entries]
      enumerate; a read [obj[k]] of a plain object also finds what the object
      inherits from [Object.prototype]. *)

From Stdlib Require Import ZArith QArith Qround Qpower List String Ascii Bool Lia.
From Stdlib Require Import Permutation Sorted.
From Stdlib Require DecimalString.
From Stdlib Require Import Lqa.
Import ListNotations.

Local Open Scope string_scope.
Local Open Scope list_scope.
Local Open Scope Z_scope.

(* ===================================================================== *)
(** ** The JavaScript operations the source relies on *)
(* ===================================================================== *)

Module Js.

(** [s || d] on a possibly absent string: the empty string is falsy. *)
Definition or_str (s : option string) (d : string) : string :=
  match s with
  | Some v => if String.eqb v "" then d else v
  | None => d
  end.

(** [a || b] where both sides may be absent. *)
Definition or_opt (a b : option string) : option string :=
  match a with
  | Some v => if String.eqb v "" then b else Some v
  | None => b
  end.

(** [a || null]: a falsy string collapses to the absent value. *)
Definition or_null (a : option string) : option string := or_opt a None.

(** [n || 0] on a possibly absent number. *)
Definition or_zero (n : option Z) : Z :=
  match n with
  | Some v => v
  | None => 0
  end.

(** Truthiness of a string. *)
Definition truthy (s : string) : bool := negb (String.eqb s "").

(** [a !== b] where [a] may be [null] and [b] is a string. *)
Definition strict_neq (a : option string) (b : string) : bool :=
  match a with
  | Some v => negb (String.eqb v b)
  | None => true
  end.

(** [String.prototype.toLowerCase], on the ASCII letters. *)
Definition lower_ascii (c : ascii) : ascii :=
  let n := nat_of_ascii c in
  if (Nat.leb 65 n && Nat.leb n 90)%bool then ascii_of_nat (n + 32) else c.

Fixpoint toLowerCase (s : string) : string :=
  match s with
  | EmptyString => EmptyString
  | String c r => String (lower_ascii c) (toLowerCase r)
  end.

(** [String.prototype.includes]: [q] occurs in [s] as a substring. *)
Fixpoint includes (s q : string) : bool :=
  if String.prefix q s then true
  else match s with
       | EmptyString => false
       | String _ r => includes r q
       end.

(** A [Date] object. *)
Inductive JsDate : Type :=
| InvalidDate
| TimeValue (ms : Z).

(** [a < b] and [a > b] on dates: false as soon as one side is invalid. *)
Definition date_lt (a b : JsDate) : bool :=
  match a, b with
  | TimeValue x, TimeValue y => x <? y
  | _, _ => false
  end.

Definition date_gt (a b : JsDate) : bool := date_lt b a.

(** [d.getTime()]: [None] is NaN. *)
Definition getTime (d : JsDate) : option Z :=
  match d with
  | TimeValue x => Some x
  | InvalidDate => None
  end.

(** What the host environment provides: the date parser behind
    [new Date(string)], the two [setHours] calls the source makes (they act
    on the local calendar day of a valid time value) and the collation
    behind [localeCompare]. *)
Class Host : Type := {
  Date_parse : string -> JsDate;
  startOfDay : Z -> Z;      (* setHours(0, 0, 0, 0) *)
  endOfDay : Z -> Z;        (* setHours(23, 59, 59, 999) *)
  localeCompare : string -> string -> Z
}.

(** [new Date(v)] for a possibly absent string ([new Date(undefined)] is
    an invalid date). *)
Definition newDate `{Host} (v : option string) : JsDate :=
  match v with
  | Some s => Date_parse s
  | None => InvalidDate
  end.

Definition setHours_start `{Host} (d : JsDate) : JsDate :=
  match d with
  | TimeValue x => TimeValue (startOfDay x)
  | InvalidDate => InvalidDate
  end.

Definition setHours_end `{Host} (d : JsDate) : JsDate :=
  match d with
  | TimeValue x => TimeValue (endOfDay x)
  | InvalidDate => InvalidDate
  end.

(** The value a sort comparator returns: a number, [None] for NaN. *)
Definition number : Type := option Q.

Definition num_of_Z (z : Z) : number := Some (inject_Z z).

(** [a - b] on time values. *)
Definition time_minus (a b : option Z) : number :=
  match a, b with
  | Some x, Some y => num_of_Z (x - y)
  | _, _ => None
  end.

Definition num_neg (v : number) : number :=
  match v with
  | Some q => Some (Qopp q)
  | None => None
  end.

(** [v > 0]; the sort reads a NaN as +0. *)
Definition positive (v : number) : bool :=
  match v with
  | Some q => match Qcompare 0 q with Lt => true | _ => false end
  | None => false
  end.

Section Sort.
  Context {A : Type} (cmp : A -> A -> number).

(** [Array.prototype.sort(cmp)]. The language requires the sort to be
    stable; for a consistent comparator every conforming implementation
    returns the list computed here, in which an element is placed after
    the elements it compares greater than and before the others. *)
Fixpoint insert (x : A) (l : list A) : list A :=
  match l with
  | [] => [x]
  | y :: r => if positive (cmp x y) then y :: insert x r else x :: l
  end.

Fixpoint sort (l : list A) : list A :=
  match l with
  | [] => []
  | x :: r => insert x (sort r)
  end.
End Sort.

(** [Array.prototype.sort()] without a comparator, on strings: the order of
    the code units. *)
Definition sort_strings (l : list string) : list string :=
  sort (fun a b => if String.ltb b a then num_of_Z 1
                   else if String.ltb a b then num_of_Z (-1)
                   else num_of_Z 0) l.

(** [Array.prototype.slice(start, end)]: negative indices count from the
    end, both indices are clamped to the length. *)
Definition rel_index (len i : Z) : Z :=
  if i <? 0 then Z.max (len + i) 0 else Z.min i len.

Definition slice {A : Type} (l : list A) (start stop : Z) : list A :=
  let len := Z.of_nat (List.length l) in
  let k := rel_index len start in
  let final := rel_index len stop in
  firstn (Z.to_nat (final - k)) (skipn (Z.to_nat k) l).

(** [Math.ceil(a / b)] for integers [a] and [b > 0]. *)
Definition ceil_div (a b : Z) : Z := - ((- a) / b).

(** [String.prototype.trim], on the ASCII white space. *)
Definition is_space (c : ascii) : bool :=
  let n := nat_of_ascii c in
  (Nat.eqb n 32 || (Nat.leb 9 n && Nat.leb n 13))%bool.

Fixpoint trim_start (s : string) : string :=
  match s with
  | EmptyString => EmptyString
  | String c r => if is_space c then trim_start r else s
  end.

Fixpoint trim_end (s : string) : string :=
  match s with
  | EmptyString => EmptyString
  | String c r =>
      match trim_end r with
      | EmptyString => if is_space c then EmptyString else String c EmptyString
      | t => String c t
      end
  end.

Definition trim (s : string) : string := trim_end (trim_start s).

(** An object or [Map] keyed by strings, in insertion order. (An object
    enumerates keys that spell an array index before the others; the
    pipeline sorts or sums what it enumerates from such objects, so the
    difference is not observable.) *)
Definition Dict (V : Type) : Type := list (string * V).

Section Dict.
  Context {V : Type}.

(** [d[k]] / [d.get(k)]. *)
Fixpoint dict_get (k : string) (d : Dict V) : option V :=
  match d with
  | [] => None
  | (k', v) :: r => if String.eqb k' k then Some v else dict_get k r
  end.

(** [d.hasOwnProperty(k)] / [d.has(k)]. *)
Definition dict_has (k : string) (d : Dict V) : bool :=
  match dict_get k d with
  | Some _ => true
  | None => false
  end.

(** [d[k] = v] / [d.set(k, v)]: an existing key keeps its place, a new
    key goes last. *)
Fixpoint dict_set (k : string) (v : V) (d : Dict V) : Dict V :=
  match d with
  | [] => [(k, v)]
  | (k', v') :: r =>
      if String.eqb k' k then (k', v) :: r else (k', v') :: dict_set k v r
  end.

(** An update of the value stored under [k] (a mutation of the object
    the dictionary holds, or [d[k]++]). *)
Definition dict_modify (k : string) (f : V -> V) (d : Dict V) : Dict V :=
  match dict_get k d with
  | Some v => dict_set k (f v) d
  | None => d
  end.

Definition dict_keys (d : Dict V) : list string := map fst d.
Definition dict_values (d : Dict V) : list V := map snd d.

(** The value under [k], or [init] when the key is new. *)
Definition current (k : string) (init : V) (d : Dict V) : V :=
  match dict_get k d with
  | Some v => v
  | None => init
  end.

(** The idiom [if (!d[k]) d[k] = init; update d[k]] the aggregations share. *)
Definition upsert (k : string) (init : V) (f : V -> V) (d : Dict V) : Dict V :=
  dict_modify k f (if dict_has k d then d else dict_set k init d).
End Dict.

(** Truthiness of a possibly absent string. *)
Definition truthy_opt (s : option string) : bool :=
  match s with
  | Some v => truthy v
  | None => false
  end.

(** [!isNaN(d.getTime())]. *)
Definition isValid (d : JsDate) : bool :=
  match d with
  | TimeValue _ => true
  | InvalidDate => false
  end.

(** [new Date(t)] for a number; NaN gives an invalid date. *)
Definition dateOfTime (t : option Z) : JsDate :=
  match t with
  | Some z => TimeValue z
  | None => InvalidDate
  end.

(** [Math.min(x, ...r)] and [Math.max(x, ...r)] on time values: NaN as soon
    as one argument is NaN. (The source takes them of non-empty lists
    only.) *)
Definition min_num (a b : option Z) : option Z :=
  match a, b with
  | Some x, Some y => Some (Z.min x y)
  | _, _ => None
  end.

Definition max_num (a b : option Z) : option Z :=
  match a, b with
  | Some x, Some y => Some (Z.max x y)
  | _, _ => None
  end.

Definition Math_min (x : option Z) (r : list (option Z)) : option Z :=
  fold_left min_num r x.

Definition Math_max (x : option Z) (r : list (option Z)) : option Z :=
  fold_left max_num r x.

(** *** Plain objects *)

(** The properties every plain object inherits from [Object.prototype]: the
    standard ones and the legacy accessors browsers add. Each holds a
    function or an object, so it reads as truthy. *)
Definition Object_prototype : list string :=
  ["constructor"; "hasOwnProperty"; "isPrototypeOf"; "propertyIsEnumerable";
   "toLocaleString"; "toString"; "valueOf"; "__proto__";
   "__defineGetter__"; "__defineSetter__"; "__lookupGetter__";
   "__lookupSetter__"].

Definition inherited (k : string) : bool :=
  existsb (String.eqb k) Object_prototype.

(** [obj[k]] is truthy, for a plain object [obj = {}] whose own values are
    objects: the key is its own or one it inherits. *)
Definition object_truthy {V : Type} (k : string) (d : Dict V) : bool :=
  (dict_has k d || inherited k)%bool.

(** The idiom [if (!obj[k]) obj[k] = init; update obj[k]] on a plain object.
    Under an inherited key no entry is made, and the update lands on the
    inherited function or object, which [Object.entries(obj)] does not
    list: the object keeps its entries. *)
Definition object_upsert {V : Type} (k : string) (init : V) (f : V -> V)
  (d : Dict V) : Dict V :=
  dict_modify k f (if object_truthy k d then d else dict_set k init d).

(** *** Exceptions *)

Inductive Exception : Type :=
| TypeError.   (* a property read on undefined or null; a call of no function *)

(** How a call ends. *)
Inductive Completion (A : Type) : Type :=
| Returned (value : A)
| Thrown (e : Exception).
Arguments Returned {A} value.
Arguments Thrown {A} e.

Definition bind {A B : Type} (c : Completion A) (k : A -> Completion B)
  : Completion B :=
  match c with
  | Returned a => k a
  | Thrown e => Thrown e
  end.

(** [Array.prototype.map] with a callback that can throw: the first
    exception ends the call. *)
Fixpoint map_throwing {A B : Type} (f : A -> Completion B) (l : list A)
  : Completion (list B) :=
  match l with
  | [] => Returned []
  | x :: r =>
      bind (f x) (fun y => bind (map_throwing f r) (fun ys => Returned (y :: ys)))
  end.

(** *** Arithmetic on doubles *)

Definition pow2 (e : Z) : Q := (2 ^ e)%Q.

(** The binary exponent of a positive rational: [2^e <= x < 2^(e+1)]. *)
Definition ilog2 (x : Q) : Z :=
  let k := Z.log2 (Qnum x) - Z.log2 (Zpos (Qden x)) in
  if Qle_bool (pow2 k) x then k else k - 1.

(** The nearest integer, a tie going to the even one. *)
Definition rne (x : Q) : Z :=
  let f := Qfloor x in
  match Qcompare (x - inject_Z f) (1 # 2) with
  | Lt => f
  | Gt => (f + 1)%Z
  | Eq => if Z.even f then f else (f + 1)%Z
  end.

(** A positive rational rounded to 53 significant bits. *)
Definition significand (x : Q) : Q :=
  let u := pow2 (ilog2 x - 52) in (inject_Z (rne (x / u)) * u)%Q.

(** The double nearest to a rational (IEEE 754 binary64, round to nearest,
    ties to even), as the rational it stands for. The exponent range is not
    bounded: the quotients and sums of step counts computed here stay clear
    of overflow and of the subnormal numbers. *)
Definition binary64 (x : Q) : Q :=
  match Qcompare 0 x with
  | Eq => 0%Q
  | Lt => Qred (significand x)
  | Gt => Qred (- significand (- x))
  end.

(** [a + b], [a - b], [a * b] and [a / b] on doubles. *)
Definition num_add (a b : Q) : Q := binary64 (a + b).
Definition num_sub (a b : Q) : Q := binary64 (a - b).
Definition num_mul (a b : Q) : Q := binary64 (a * b).
Definition num_div (a b : Q) : Q := binary64 (a / b).

End Js.

(* ===================================================================== *)
(** ** types/business.ts *)
(* ===================================================================== *)

Module Business.
Import Js.

Inductive SessionType : Type :=
| pathfinder
| kiss.

Definition SessionType_eqb (a b : SessionType) : bool :=
  match a, b with
  | pathfinder, pathfinder => true
  | kiss, kiss => true
  | _, _ => false
  end.

Definition SessionType_name (t : SessionType) : string :=
  match t with
  | pathfinder => "pathfinder"
  | kiss => "kiss"
  end.

(** The unified record. The fields the pipeline never reads
    (establishment dates, scores, costs, ...) are constant [null] in every
    normalised record and are left out. *)
Record BusinessRecord : Type := {
  id : string;
  session_id : string;
  google_id : string;
  google_full_name : string;
  google_email : string;
  step : Z;
  total_steps : Z;
  client_name : string;
  website_url : string;
  diagnostic_answers : string;
  product : option string;
  contract_length : option string;
  start_time : option string;
  timestamp : option string;
  _sessionType : SessionType
}.

Record KissData : Type := {
  clientUrl : option string;
  createdAt : option string;
  sessionId : option string;
  updatedAt : option string;
  prospectName : option string;
  currentScreen : option Z;
  contractLength : option string;
  salesPersonName : option string;
  selectedProduct : option string;
  recommendedProduct : option string
}.

(** A raw KISS record as the payload holds it. The declared type requires
    the [data] object; a payload can still come without it ([undefined] or
    [null]), which is [None] here. *)
Record KissRawRecord : Type := {
  kiss_id : string;
  data : option KissData;
  created_at : option string;
  updated_at : option string
}.

(** The first read through [kiss.data] throws when the record has no data
    object. *)
Definition normalizeKissRecord (k : KissRawRecord) : Completion BusinessRecord :=
  match data k with
  | None => Thrown TypeError
  | Some d =>
      Returned
        {| id := kiss_id k;
           session_id := or_str (sessionId d) (kiss_id k);
           google_id := "";
           google_full_name := or_str (salesPersonName d) "Unknown";
           google_email := "";
           step := or_zero (currentScreen d);
           total_steps := 2;
           client_name := or_str (prospectName d) "Unknown";
           website_url := or_str (clientUrl d) "";
           diagnostic_answers := "{}";
           product := or_opt (selectedProduct d) (or_null (recommendedProduct d));
           contract_length := or_null (contractLength d);
           start_time := or_opt (created_at k) (createdAt d);
           timestamp := or_opt (updated_at k) (updatedAt d);
           _sessionType := kiss |}
  end.

End Business.

(* ===================================================================== *)
(** ** components/ResultsList.tsx *)
(* ===================================================================== *)

Module ResultsList.
Import Js Business.

Inductive SortField : Type :=
| by_google_full_name
| by_client_name
| by_product
| by_timestamp
| by_progress
| by_status
| by_sessionType.

Inductive SortDir : Type :=
| asc
| desc.

Definition ITEMS_PER_PAGE : Z := 50.

(** The filter controls of the component. *)
Record Filters : Type := {
  searchQuery : string;
  productFilter : string;
  salesPersonFilter : string;
  contractLengthFilter : string;
  dateFrom : option JsDate;
  dateTo : option JsDate
}.

(** The state the component starts in and [clearFilters] restores. *)
Definition noFilters : Filters :=
  {| searchQuery := "";
     productFilter := "all";
     salesPersonFilter := "all";
     contractLengthFilter := "all";
     dateFrom := None;
     dateTo := None |}.

(** *** filterOptions *)

Record Counts : Type := {
  pathfinderCount : nat;
  kissCount : nat
}.

Definition noCounts : Counts := {| pathfinderCount := 0; kissCount := 0 |}.

Definition countSession (t : SessionType) (c : Counts) : Counts :=
  match t with
  | kiss => {| pathfinderCount := pathfinderCount c; kissCount := S (kissCount c) |}
  | pathfinder => {| pathfinderCount := S (pathfinderCount c); kissCount := kissCount c |}
  end.

(** [salesPersonCounts] is a plain object: the read [salesPersonCounts[name]]
    also finds what every object inherits. *)
Definition countRecord (m : Dict Counts) (r : BusinessRecord) : Dict Counts :=
  let name := google_full_name r in
  if truthy name then
    let m1 := if object_truthy name m then m else dict_set name noCounts m in
    dict_modify name (countSession (_sessionType r)) m1
  else m.

Definition salesPersonCounts (results : list BusinessRecord) : Dict Counts :=
  fold_left countRecord results [].

Definition eligibleCounts (c : Counts) : bool :=
  (Nat.ltb 0 (pathfinderCount c) || Nat.ltb 5 (kissCount c))%bool.

Definition salesPersons (results : list BusinessRecord) : list string :=
  sort_strings
    (map fst (filter (fun e => eligibleCounts (snd e)) (salesPersonCounts results))).

(** A [Set] of strings in insertion order. *)
Definition set_add (s : string) (l : list string) : list string :=
  if existsb (String.eqb s) l then l else l ++ [s].

Definition products (results : list BusinessRecord) : list string :=
  sort_strings
    (fold_left (fun acc r => match product r with
                             | Some p => if truthy p then set_add p acc else acc
                             | None => acc
                             end) results []).

Definition contractLengths (results : list BusinessRecord) : list string :=
  sort_strings
    (fold_left (fun acc r => match contract_length r with
                             | Some p => if truthy p then set_add p acc else acc
                             | None => acc
                             end) results []).

(** *** filteredAndSortedResults *)

Definition matchesSearch (q : string) (r : BusinessRecord) : bool :=
  (includes (toLowerCase (client_name r)) q
   || includes (toLowerCase (google_full_name r)) q
   || match product r with
      | Some p => includes (toLowerCase p) q
      | None => false
      end
   || includes (toLowerCase (website_url r)) q)%bool.

(** The callback of [results.filter]. *)
Definition keep `{Host} (f : Filters) (r : BusinessRecord) : bool :=
  if (truthy (searchQuery f)
      && negb (matchesSearch (toLowerCase (searchQuery f)) r))%bool then false
  else if (negb (String.eqb (productFilter f) "all")
           && strict_neq (product r) (productFilter f))%bool then false
  else if (negb (String.eqb (salesPersonFilter f) "all")
           && negb (String.eqb (google_full_name r) (salesPersonFilter f)))%bool
  then false
  else if (negb (String.eqb (contractLengthFilter f) "all")
           && strict_neq (contract_length r) (contractLengthFilter f))%bool
  then false
  else if match dateFrom f with
          | Some from => date_lt (newDate (timestamp r)) from
          | None => false
          end then false
  else if match dateTo f with
          | Some to => date_gt (newDate (timestamp r)) (setHours_end to)
          | None => false
          end then false
  else true.

Definition filtered `{Host} (f : Filters) (results : list BusinessRecord)
  : list BusinessRecord :=
  filter (keep f) results.

Definition isComplete (r : BusinessRecord) : bool := total_steps r <=? step r.

Definition progressRatio (r : BusinessRecord) : Q :=
  if 0 <? total_steps r
  then num_div (inject_Z (step r)) (inject_Z (total_steps r))
  else 0%Q.

Definition cmpField `{Host} (field : SortField) (a b : BusinessRecord) : number :=
  match field with
  | by_google_full_name =>
      num_of_Z (localeCompare (google_full_name a) (google_full_name b))
  | by_client_name =>
      num_of_Z (localeCompare (client_name a) (client_name b))
  | by_product =>
      num_of_Z (localeCompare (or_str (product a) "") (or_str (product b) ""))
  | by_timestamp =>
      time_minus (getTime (newDate (timestamp a))) (getTime (newDate (timestamp b)))
  | by_progress =>
      Some (num_sub (progressRatio a) (progressRatio b))
  | by_status =>
      num_of_Z ((if isComplete a then 1 else 0) - (if isComplete b then 1 else 0))
  | by_sessionType =>
      num_of_Z (localeCompare (SessionType_name (_sessionType a))
                              (SessionType_name (_sessionType b)))
  end.

(** The callback of [filtered.sort]. *)
Definition comparator `{Host} (field : SortField) (dir : SortDir)
  (a b : BusinessRecord) : number :=
  match dir with
  | asc => cmpField field a b
  | desc => num_neg (cmpField field a b)
  end.

Definition sorted `{Host} (field : SortField) (dir : SortDir)
  (l : list BusinessRecord) : list BusinessRecord :=
  sort (comparator field dir) l.

Definition filteredAndSortedResults `{Host} (f : Filters) (field : SortField)
  (dir : SortDir) (results : list BusinessRecord) : list BusinessRecord :=
  sorted field dir (filtered f results).

(** *** Pagination *)

Definition totalPages {A : Type} (shown : list A) : Z :=
  Z.max 1 (ceil_div (Z.of_nat (List.length shown)) ITEMS_PER_PAGE).

Definition paginatedResults {A : Type} (shown : list A) (currentPage : Z) : list A :=
  let start := (currentPage - 1) * ITEMS_PER_PAGE in
  slice shown start (start + ITEMS_PER_PAGE).

(** The pages the pagination control can reach: 1 .. totalPages. *)
Definition pageNumbers {A : Type} (shown : list A) : list Z :=
  map (fun i => Z.of_nat i + 1) (seq 0 (Z.to_nat (totalPages shown))).

Definition pages {A : Type} (shown : list A) : list (list A) :=
  map (paginatedResults shown) (pageNumbers shown).

(** *** The component's state and its handlers *)

Record State : Type := {
  filters : Filters;
  sortField : SortField;
  sortDir : SortDir;
  currentPage : Z
}.

(** The [useState] initialisers. *)
Definition initialState (initialSalesPersonFilter : option string) : State :=
  {| filters := {| searchQuery := "";
                   productFilter := "all";
                   salesPersonFilter := or_str initialSalesPersonFilter "all";
                   contractLengthFilter := "all";
                   dateFrom := None;
                   dateTo := None |};
     sortField := by_timestamp;
     sortDir := desc;
     currentPage := 1 |}.

(** [hasActiveFilters], as a truth value. *)
Definition hasActiveFilters (f : Filters) : bool :=
  (truthy (searchQuery f)
   || negb (String.eqb (productFilter f) "all")
   || negb (String.eqb (salesPersonFilter f) "all")
   || negb (String.eqb (contractLengthFilter f) "all")
   || match dateFrom f with Some _ => true | None => false end
   || match dateTo f with Some _ => true | None => false end)%bool.

(** The search box: [setSearchQuery(v); setCurrentPage(1)]. *)
Definition onSearchChange (v : string) (st : State) : State :=
  {| filters := {| searchQuery := v;
                   productFilter := productFilter (filters st);
                   salesPersonFilter := salesPersonFilter (filters st);
                   contractLengthFilter := contractLengthFilter (filters st);
                   dateFrom := dateFrom (filters st);
                   dateTo := dateTo (filters st) |};
     sortField := sortField st;
     sortDir := sortDir st;
     currentPage := 1 |}.

(** The product select: [setProductFilter(v); setCurrentPage(1)]. *)
Definition onProductChange (v : string) (st : State) : State :=
  {| filters := {| searchQuery := searchQuery (filters st);
                   productFilter := v;
                   salesPersonFilter := salesPersonFilter (filters st);
                   contractLengthFilter := contractLengthFilter (filters st);
                   dateFrom := dateFrom (filters st);
                   dateTo := dateTo (filters st) |};
     sortField := sortField st;
     sortDir := sortDir st;
     currentPage := 1 |}.

Definition handleSalesPersonFilterChange (v : string) (st : State) : State :=
  {| filters := {| searchQuery := searchQuery (filters st);
                   productFilter := productFilter (filters st);
                   salesPersonFilter := v;
                   contractLengthFilter := contractLengthFilter (filters st);
                   dateFrom := dateFrom (filters st);
                   dateTo := dateTo (filters st) |};
     sortField := sortField st;
     sortDir := sortDir st;
     currentPage := 1 |}.

(** The contract select: [setContractLengthFilter(v); setCurrentPage(1)]. *)
Definition onContractChange (v : string) (st : State) : State :=
  {| filters := {| searchQuery := searchQuery (filters st);
                   productFilter := productFilter (filters st);
                   salesPersonFilter := salesPersonFilter (filters st);
                   contractLengthFilter := v;
                   dateFrom := dateFrom (filters st);
                   dateTo := dateTo (filters st) |};
     sortField := sortField st;
     sortDir := sortDir st;
     currentPage := 1 |}.

(** The two calendars pass their selection straight to [setDateFrom] and
    [setDateTo]; the page is left as it is. *)
Definition setDateFrom (d : option JsDate) (st : State) : State :=
  {| filters := {| searchQuery := searchQuery (filters st);
                   productFilter := productFilter (filters st);
                   salesPersonFilter := salesPersonFilter (filters st);
                   contractLengthFilter := contractLengthFilter (filters st);
                   dateFrom := d;
                   dateTo := dateTo (filters st) |};
     sortField := sortField st;
     sortDir := sortDir st;
     currentPage := currentPage st |}.

Definition setDateTo (d : option JsDate) (st : State) : State :=
  {| filters := {| searchQuery := searchQuery (filters st);
                   productFilter := productFilter (filters st);
                   salesPersonFilter := salesPersonFilter (filters st);
                   contractLengthFilter := contractLengthFilter (filters st);
                   dateFrom := dateFrom (filters st);
                   dateTo := d |};
     sortField := sortField st;
     sortDir := sortDir st;
     currentPage := currentPage st |}.

Definition clearFilters (st : State) : State :=
  {| filters := noFilters;
     sortField := sortField st;
     sortDir := sortDir st;
     currentPage := 1 |}.

Definition SortField_eqb (a b : SortField) : bool :=
  match a, b with
  | by_google_full_name, by_google_full_name => true
  | by_client_name, by_client_name => true
  | by_product, by_product => true
  | by_timestamp, by_timestamp => true
  | by_progress, by_progress => true
  | by_status, by_status => true
  | by_sessionType, by_sessionType => true
  | _, _ => false
  end.

Definition toggleSort (field : SortField) (st : State) : State :=
  if SortField_eqb (sortField st) field then
    {| filters := filters st;
       sortField := sortField st;
       sortDir := match sortDir st with asc => desc | desc => asc end;
       currentPage := currentPage st |}
  else
    {| filters := filters st;
       sortField := field;
       sortDir := match field with by_timestamp => desc | _ => asc end;
       currentPage := currentPage st |}.

(** What the table shows in a state. *)
Definition shownIn `{Host} (results : list BusinessRecord) (st : State)
  : list BusinessRecord :=
  filteredAndSortedResults (filters st) (sortField st) (sortDir st) results.

Definition visibleRows `{Host} (results : list BusinessRecord) (st : State)
  : list BusinessRecord :=
  paginatedResults (shownIn results st) (currentPage st).

(** The previous and next buttons and the page links. *)
Definition previousPage (st : State) : State :=
  {| filters := filters st;
     sortField := sortField st;
     sortDir := sortDir st;
     currentPage := Z.max 1 (currentPage st - 1) |}.

Definition nextPage `{Host} (results : list BusinessRecord) (st : State) : State :=
  {| filters := filters st;
     sortField := sortField st;
     sortDir := sortDir st;
     currentPage := Z.min (totalPages (shownIn results st)) (currentPage st + 1) |}.

Definition gotoPage (item : Z) (st : State) : State :=
  {| filters := filters st;
     sortField := sortField st;
     sortDir := sortDir st;
     currentPage := item |}.

(** The result count line: "Showing [from]-[to] of [n] results". *)
Definition showingFrom (currentPage : Z) : Z := (currentPage - 1) * ITEMS_PER_PAGE + 1.

Definition showingTo {A : Type} (shown : list A) (currentPage : Z) : Z :=
  Z.min (currentPage * ITEMS_PER_PAGE) (Z.of_nat (List.length shown)).

(** *** The page links *)

Inductive PageItem : Type :=
| ellipsis
| pageLink (n : Z).

(** The pages that get a link. *)
Definition linkedPage (total current page : Z) : bool :=
  if total <=? 7 then true
  else if ((page =? 1) || (page =? total))%bool then true
  else if Z.abs (page - current) <=? 1 then true
  else false.

(** The [reduce] that puts an ellipsis before a page that does not follow
    its predecessor directly; [previous] is [arr[idx - 1]], absent at
    index 0. *)
Fixpoint withEllipses (previous : option Z) (l : list Z) : list PageItem :=
  match l with
  | [] => []
  | page :: r =>
      match previous with
      | Some before =>
          if 1 <? page - before
          then ellipsis :: pageLink page :: withEllipses (Some page) r
          else pageLink page :: withEllipses (Some page) r
      | None => pageLink page :: withEllipses (Some page) r
      end
  end.

Definition linkedPages (total current : Z) : list Z :=
  filter (linkedPage total current)
         (map (fun i => Z.of_nat i + 1) (seq 0 (Z.to_nat total))).

Definition pageItems (total current : Z) : list PageItem :=
  withEllipses None (linkedPages total current).

End ResultsList.

(* ===================================================================== *)
(** ** The record detail view (BusinessDetail) *)
(* ===================================================================== *)

Module BusinessDetail.
Import Business.

Definition isComplete (r : BusinessRecord) : bool := total_steps r <=? step r.

(** *** calculateTimeSpent *)

(** What [calculateTimeSpent] returns, before it is put into words. *)
Inductive Elapsed : Type :=
| NoTimes                          (* "N/A" *)
| NotANumber                       (* "NaNm" *)
| DaysHoursMinutes (d h m : Z)     (* "{d}d {h}h {m}m" *)
| HoursMinutes (h m : Z)           (* "{h}h {m}m" *)
| MinutesOnly (m : Z).             (* "{m}m" *)

Definition elapsed `{Js.Host} (start stop : option string) : Elapsed :=
  if (negb (Js.truthy_opt start) || negb (Js.truthy_opt stop))%bool then NoTimes
  else
    match Js.getTime (Js.newDate stop), Js.getTime (Js.newDate start) with
    | Some b, Some a =>
        let diffMs := b - a in
        let minutes := diffMs / 60000 in
        let hours := minutes / 60 in
        let days := hours / 24 in
        if 0 <? days then DaysHoursMinutes days (Z.rem hours 24) (Z.rem minutes 60)
        else if 0 <? hours then HoursMinutes hours (Z.rem minutes 60)
        else MinutesOnly minutes
    | _, _ => NotANumber
    end.

(** A number inside a template string. *)
Definition showNumber (z : Z) : string :=
  Stdlib.Numbers.DecimalString.NilZero.string_of_int (Z.to_int z).

Definition inWords (e : Elapsed) : string :=
  match e with
  | NoTimes => "N/A"
  | NotANumber => "NaNm"
  | DaysHoursMinutes d h m =>
      (showNumber d ++ "d " ++ showNumber h ++ "h " ++ showNumber m ++ "m")%string
  | HoursMinutes h m => (showNumber h ++ "h " ++ showNumber m ++ "m")%string
  | MinutesOnly m => (showNumber m ++ "m")%string
  end.

Definition calculateTimeSpent `{Js.Host} (start stop : option string) : string :=
  inWords (elapsed start stop).

End BusinessDetail.

(* ===================================================================== *)
(** ** pages/SalesLeaderboard.tsx *)
(* ===================================================================== *)

Module SalesLeaderboard.
Import Js Business.

Record SalespersonStats : Type := {
  name : string;
  pathfinderSessions : list BusinessRecord;
  kissSessions : list BusinessRecord;
  totalSessions : nat;
  averagePercentComplete : Q;
  averageStep : Q;
  completedSessions : nat
}.

Inductive SessionTypeFilter : Type :=
| all
| only (t : SessionType).

Record DateRange : Type := {
  from : option JsDate;
  to : option JsDate
}.

(** *** filteredSessions *)

Definition keepSession `{Host} (tf : SessionTypeFilter) (range : DateRange)
  (s : BusinessRecord) : bool :=
  if match tf with
     | all => false
     | only t => negb (SessionType_eqb (_sessionType s) t)
     end then false
  else
    let d := newDate (or_opt (timestamp s) (start_time s)) in
    if match from range with
       | Some lo => date_lt d lo
       | None => false
       end then false
    else if match to range with
            | Some hi => date_gt d (setHours_end hi)
            | None => false
            end then false
    else true.

Definition filteredSessions `{Host} (tf : SessionTypeFilter) (range : DateRange)
  (sessions : list BusinessRecord) : list BusinessRecord :=
  filter (keepSession tf range) sessions.

(** *** leaderboardStats *)

Definition newStats (n : string) : SalespersonStats :=
  {| name := n;
     pathfinderSessions := [];
     kissSessions := [];
     totalSessions := 0;
     averagePercentComplete := 0;
     averageStep := 0;
     completedSessions := 0 |}.

(** The body of the first loop once the group of the session is at hand. *)
Definition addSession (s : BusinessRecord) (st : SalespersonStats)
  : SalespersonStats :=
  {| name := name st;
     pathfinderSessions :=
       match _sessionType s with
       | kiss => pathfinderSessions st
       | pathfinder => pathfinderSessions st ++ [s]
       end;
     kissSessions :=
       match _sessionType s with
       | kiss => kissSessions st ++ [s]
       | pathfinder => kissSessions st
       end;
     totalSessions := S (totalSessions st);
     averagePercentComplete := averagePercentComplete st;
     averageStep := averageStep st;
     completedSessions :=
       if total_steps s <=? step s
       then S (completedSessions st)
       else completedSessions st |}.

Definition collect (m : Dict SalespersonStats) (s : BusinessRecord)
  : Dict SalespersonStats :=
  let n := google_full_name s in
  if negb (truthy n) then m
  else
    let m1 := if dict_has n m then m else dict_set n (newStats n) m in
    dict_modify n (addSession s) m1.

(** [statsMap] after the first loop. *)
Definition statsMap (sessions : list BusinessRecord) : Dict SalespersonStats :=
  fold_left collect sessions [].

(** [s.total_steps > 0 ? (s.step / s.total_steps) * 100 : 0]. *)
Definition percentOf (s : BusinessRecord) : Q :=
  if 0 <? total_steps s
  then num_mul (num_div (inject_Z (step s)) (inject_Z (total_steps s))) 100
  else 0%Q.

(** The body of the second loop: the two [reduce] calls add in doubles, one
    session after the other, and the quotients are rounded once more. *)
Definition average (st : SalespersonStats) : SalespersonStats :=
  let sessions := pathfinderSessions st ++ kissSessions st in
  let totalPercent := fold_left (fun acc s => num_add acc (percentOf s)) sessions 0%Q in
  let totalSteps := fold_left (fun acc s => num_add acc (inject_Z (step s))) sessions 0%Q in
  {| name := name st;
     pathfinderSessions := pathfinderSessions st;
     kissSessions := kissSessions st;
     totalSessions := totalSessions st;
     averagePercentComplete :=
       if Nat.ltb 0 (totalSessions st)
       then num_div totalPercent (inject_Z (Z.of_nat (totalSessions st)))
       else 0%Q;
     averageStep :=
       if Nat.ltb 0 (totalSessions st)
       then num_div totalSteps (inject_Z (Z.of_nat (totalSessions st)))
       else 0%Q;
     completedSessions := completedSessions st |}.

(** All groups, with their averages, before the noise filter. *)
Definition groups (sessions : list BusinessRecord) : list SalespersonStats :=
  map average (dict_values (statsMap sessions)).

(** The noise filter. *)
Definition eligible (tf : SessionTypeFilter) (s : SalespersonStats) : bool :=
  match tf with
  | only kiss => Nat.ltb 5 (List.length (kissSessions s))
  | only pathfinder => Nat.ltb 0 (List.length (pathfinderSessions s))
  | all => (Nat.ltb 0 (List.length (pathfinderSessions s))
            || Nat.ltb 5 (List.length (kissSessions s)))%bool
  end.

Definition byAverage (a b : SalespersonStats) : number :=
  Some (num_sub (averagePercentComplete b) (averagePercentComplete a)).

Definition leaderboardStats (tf : SessionTypeFilter)
  (sessions : list BusinessRecord) : list SalespersonStats :=
  sort byAverage (filter (eligible tf) (groups sessions)).

(** The page: the aggregation of the sessions that pass the filters. *)
Definition leaderboard `{Host} (tf : SessionTypeFilter) (range : DateRange)
  (sessions : list BusinessRecord) : list SalespersonStats :=
  leaderboardStats tf (filteredSessions tf range sessions).

(** *** earliestDate *)

Definition earliestDate `{Host} (sessions : list BusinessRecord) : option JsDate :=
  match sessions with
  | [] => None
  | _ =>
      let dates :=
        filter isValid
               (map (fun s => newDate (or_opt (start_time s) (timestamp s))) sessions) in
      match map getTime dates with
      | [] => None
      | t :: r => Some (dateOfTime (Math_min t r))
      end
  end.

(** *** fetchAllSessions *)

(** What the payload holds under a key that should hold an array. *)
Inductive ArrayField (A : Type) : Type :=
| Falsy                   (* absent, null, false, 0 or the empty string *)
| NoArray                 (* another value that is no array: it has no [map] *)
| Elements (l : list A).
Arguments Falsy {A}.
Arguments NoArray {A}.
Arguments Elements {A} l.

(** An element of the array the list-all endpoint answers with: [null],
    whose properties cannot be read, or a value with the two keys (a number
    or a string has neither: both are [Falsy]). The Pathfinder records are
    taken as their declared type has them; an element of the KISS array may
    itself be [null], which is [None]. *)
Inductive PayloadItem : Type :=
| NullItem
| Item (payload_pathfinder : ArrayField BusinessRecord)
       (payload_kiss : ArrayField (option KissRawRecord)).

(** How the request ends. *)
Inductive Response : Type :=
| NetworkFailure                     (* fetch or response.json() rejects *)
| HttpFailure                        (* !response.ok *)
| NotAnArray                         (* !Array.isArray(data) *)
| Payload (data : list PayloadItem).

Inductive Toast : Type :=
| LeaderboardLoaded (count : nat)    (* "Loaded {count} sessions." *)
| LoadFailed.                        (* "Failed to load leaderboard" *)

Record PageState : Type := {
  leaderboardSessions : list BusinessRecord;
  leaderboardLoaded : bool;
  isLoading : bool
}.

(** [{ ...r, _sessionType: "pathfinder" }]. *)
Definition tagPathfinder (r : BusinessRecord) : BusinessRecord :=
  {| id := id r;
     session_id := session_id r;
     google_id := google_id r;
     google_full_name := google_full_name r;
     google_email := google_email r;
     step := step r;
     total_steps := total_steps r;
     client_name := client_name r;
     website_url := website_url r;
     diagnostic_answers := diagnostic_answers r;
     product := product r;
     contract_length := contract_length r;
     start_time := start_time r;
     timestamp := timestamp r;
     _sessionType := pathfinder |}.

Definition isFalsy {A : Type} (v : ArrayField A) : bool :=
  match v with
  | Falsy => true
  | _ => false
  end.

(** [data.find((item) => item.key)?.key || []]: the value under [key] of the
    first element where it is truthy; reading the key of a [null] element
    on the way throws. *)
Fixpoint found {A : Type} (key : PayloadItem -> Completion (ArrayField A))
  (data : list PayloadItem) : Completion (ArrayField A) :=
  match data with
  | [] => Returned (Elements [])
  | item :: rest =>
      bind (key item)
           (fun v => if isFalsy v then found key rest else Returned v)
  end.

Definition pathfinderKey (item : PayloadItem)
  : Completion (ArrayField BusinessRecord) :=
  match item with
  | NullItem => Thrown TypeError
  | Item p _ => Returned p
  end.

Definition kissKey (item : PayloadItem)
  : Completion (ArrayField (option KissRawRecord)) :=
  match item with
  | NullItem => Thrown TypeError
  | Item _ k => Returned k
  end.

(** [value.map(f)]: a truthy value that is no array has no [map] to call. *)
Definition mapField {A B : Type} (f : A -> Completion B) (v : ArrayField A)
  : Completion (list B) :=
  match v with
  | Elements l => map_throwing f l
  | NoArray => Thrown TypeError
  | Falsy => Returned []
  end.

(** The callback [(r) => normalizeKissRecord(r)] on an element of the KISS
    array: [null] has no [id] to read. *)
Definition normalizeElement (r : option KissRawRecord) : Completion BusinessRecord :=
  match r with
  | Some k => normalizeKissRecord k
  | None => Thrown TypeError
  end.

(** The body of the [try] block once the response is an array. *)
Definition loadedSessions (data : list PayloadItem)
  : Completion (list BusinessRecord * list BusinessRecord) :=
  bind (found pathfinderKey data) (fun pathfinderField =>
  bind (found kissKey data) (fun kissField =>
  bind (mapField (fun r => Returned (tagPathfinder r)) pathfinderField)
       (fun pathfinderRecords =>
  bind (mapField normalizeElement kissField) (fun kissRecords =>
  Returned (pathfinderRecords, kissRecords))))).

(** The [catch] and [finally] blocks: the toast, and loading ends. *)
Definition loadFailed (st : PageState) : PageState * Toast :=
  ({| leaderboardSessions := leaderboardSessions st;
      leaderboardLoaded := leaderboardLoaded st;
      isLoading := false |},
   LoadFailed).

Definition fetchAllSessions (response : Response) (st : PageState)
  : PageState * Toast :=
  match response with
  | Payload data =>
      match loadedSessions data with
      | Returned (pathfinderRecords, kissRecords) =>
          ({| leaderboardSessions := pathfinderRecords ++ kissRecords;
              leaderboardLoaded := true;
              isLoading := false |},
           LeaderboardLoaded
             (List.length pathfinderRecords + List.length kissRecords))
      | Thrown _ => loadFailed st
      end
  | _ => loadFailed st
  end.

End SalesLeaderboard.

(* ===================================================================== *)
(** ** pages/Overview.tsx *)
(* ===================================================================== *)

Module Overview.
Import Js.

Record DataEntry : Type := {
  timeCreated : string;
  salesPerson : string;
  salesEmail : option string;
  product : option string;
  bound : option string
}.

Definition PRODUCT_COLORS : Dict string :=
  [("Lead Gen", "#1E3A8A"); ("Local SEO", "#3B82F6"); ("LSA", "#93C5FD")].

Definition PATHFINDER_INBOUND_TEAM : list string :=
  ["aaron.nixon@thrivemediagroup.co.uk";
   "hamid.hassan@thrivemediagroup.co.uk";
   "charlie.griffiths@thrivemediagroup.co.uk";
   "samuel.braniff@thrivemediagroup.co.uk"].

Definition PATHFINDER_OUTBOUND_TEAM : list string :=
  ["joe.richardson@thrivemediagroup.co.uk";
   "wesley.mcdonald@thrivemediagroup.co.uk";
   "padraig.anglin@thrivemediagroup.co.uk";
   "tommy.macfarlane@thrivemediagroup.co.uk";
   "james.clarke@thrivemediagroup.co.uk"].

(** The filter controls of the page. *)
Record Filters : Type := {
  startDate : option JsDate;
  endDate : option JsDate;
  agentFilter : string;
  boundFilter : string
}.

Definition getPathfinderBound (email : option string) : option string :=
  match email with
  | None => None
  | Some e =>
      if truthy e then
        let normalizedEmail := trim (toLowerCase e) in
        if existsb (fun m => String.eqb (toLowerCase m) normalizedEmail)
                   PATHFINDER_INBOUND_TEAM then Some "inbound"
        else if existsb (fun m => String.eqb (toLowerCase m) normalizedEmail)
                        PATHFINDER_OUTBOUND_TEAM then Some "outbound"
        else None
      else None
  end.

(** The date test both filters start with. *)
Definition outsideRange `{Host} (f : Filters) (entry : DataEntry) : bool :=
  let entryDate := Date_parse (timeCreated entry) in
  let start := option_map setHours_start (startDate f) in
  let stop := option_map setHours_end (endDate f) in
  (match start with
   | Some lo => date_lt entryDate lo
   | None => false
   end
   || match stop with
      | Some hi => date_gt entryDate hi
      | None => false
      end)%bool.

Definition keepPathfinder `{Host} (f : Filters) (entry : DataEntry) : bool :=
  if outsideRange f entry then false
  else if (negb (String.eqb (agentFilter f) "all")
           && negb (String.eqb (salesPerson entry) (agentFilter f)))%bool then false
  else if negb (String.eqb (boundFilter f) "all") then
    match getPathfinderBound (salesEmail entry) with
    | None => false
    | Some b => String.eqb b (boundFilter f)
    end
  else true.

Definition filterPathfinderData `{Host} (f : Filters) (data : list DataEntry)
  : list DataEntry :=
  filter (keepPathfinder f) data.

Definition keepKiss `{Host} (f : Filters) (entry : DataEntry) : bool :=
  if outsideRange f entry then false
  else if (negb (String.eqb (agentFilter f) "all")
           && negb (String.eqb (salesPerson entry) (agentFilter f)))%bool then false
  else if negb (String.eqb (boundFilter f) "all") then
    match option_map (fun b => trim (toLowerCase b)) (bound entry) with
    | None => false
    | Some b => (truthy b && String.eqb b (boundFilter f))%bool
    end
  else true.

Definition filterKissData `{Host} (f : Filters) (data : list DataEntry)
  : list DataEntry :=
  filter (keepKiss f) data.

Definition combinedData (filteredPathfinder filteredKiss : list DataEntry)
  : list DataEntry :=
  filteredPathfinder ++ filteredKiss.

(** *** allAgents *)

Record Counts : Type := {
  pathfinderCount : nat;
  kissCount : nat
}.

Definition noCounts : Counts := {| pathfinderCount := 0; kissCount := 0 |}.

(** [agentCounts] is a plain object: the read [agentCounts[entry.salesPerson]]
    also finds what every object inherits. *)
Definition countPathfinder (m : Dict Counts) (entry : DataEntry) : Dict Counts :=
  let m1 := if object_truthy (salesPerson entry) m then m
            else dict_set (salesPerson entry) noCounts m in
  dict_modify (salesPerson entry)
    (fun c => {| pathfinderCount := S (pathfinderCount c); kissCount := kissCount c |})
    m1.

Definition countKiss (m : Dict Counts) (entry : DataEntry) : Dict Counts :=
  let m1 := if object_truthy (salesPerson entry) m then m
            else dict_set (salesPerson entry) noCounts m in
  dict_modify (salesPerson entry)
    (fun c => {| pathfinderCount := pathfinderCount c; kissCount := S (kissCount c) |})
    m1.

Definition agentCounts (pathfinderData kissData : list DataEntry) : Dict Counts :=
  fold_left countKiss kissData (fold_left countPathfinder pathfinderData []).

Definition allAgents (pathfinderData kissData : list DataEntry) : list string :=
  sort_strings
    (map fst
       (filter (fun e => (Nat.ltb 0 (pathfinderCount (snd e))
                          || Nat.ltb 5 (kissCount (snd e)))%bool)
               (agentCounts pathfinderData kissData))).

(** *** calculateProductDistribution *)

Record ProductDistributionEntry : Type := {
  entryName : string;
  value : nat;
  color : option string
}.

Definition emptyDistribution : Dict nat :=
  [("Lead Gen", 0%nat); ("Local SEO", 0%nat); ("LSA", 0%nat)].

Definition countProduct (distribution : Dict nat) (entry : DataEntry) : Dict nat :=
  match product entry with
  | Some p => if dict_has p distribution then dict_modify p S distribution
              else distribution
  | None => distribution
  end.

Definition distributionOf (data : list DataEntry) : Dict nat :=
  fold_left countProduct data emptyDistribution.

Definition calculateProductDistribution (data : list DataEntry)
  : list ProductDistributionEntry :=
  map (fun e => {| entryName := fst e;
                   value := snd e;
                   color := dict_get (fst e) PRODUCT_COLORS |})
      (filter (fun e => Nat.ltb 0 (snd e)) (distributionOf data)).

(** The count a chart shows for a product: a bucket that was discarded
    shows nothing, which reads as 0. *)
Definition bucketCount (p : string) (dist : list ProductDistributionEntry) : nat :=
  match find (fun e => String.eqb (entryName e) p) dist with
  | Some e => value e
  | None => 0%nat
  end.

(** *** The date range set when the data arrives, and clearFilters *)

Definition defaultDates `{Host} (pathfinderData kissData : list DataEntry)
  : option (JsDate * JsDate) :=
  match map (fun entry => getTime (Date_parse (timeCreated entry)))
            (pathfinderData ++ kissData) with
  | [] => None
  | t :: r => Some (setHours_start (dateOfTime (Math_min t r)),
                    setHours_end (dateOfTime (Math_max t r)))
  end.

(** The filter controls after [fetchOverviewData] has stored the data. *)
Definition afterLoad `{Host} (f : Filters) (pathfinderData kissData : list DataEntry)
  : Filters :=
  match defaultDates pathfinderData kissData with
  | Some (minDate, maxDate) =>
      {| startDate := Some minDate;
         endDate := Some maxDate;
         agentFilter := agentFilter f;
         boundFilter := boundFilter f |}
  | None => f
  end.

Definition clearFilters : Filters :=
  {| startDate := None;
     endDate := None;
     agentFilter := "all";
     boundFilter := "all" |}.

End Overview.

(* ===================================================================== *)
(** ** A reference host *)
(* ===================================================================== *)

(** A host in the UTC time zone whose date parser accepts the ISO forms
    [YYYY-MM-DD] and [YYYY-MM-DDTHH:MM:SS(.sss)Z] and nothing else, and whose
    collation is the code-unit order. The theorems below hold for every host;
    this one evaluates the pipeline on concrete inputs. *)
Module RefHost.
Import Js.

Definition digit (c : ascii) : option Z :=
  let n := nat_of_ascii c in
  if (Nat.leb 48 n && Nat.leb n 57)%bool then Some (Z.of_nat (n - 48)) else None.

Fixpoint digits (s : string) (acc : Z) : option Z :=
  match s with
  | EmptyString => Some acc
  | String c r =>
      match digit c with
      | Some d => digits r (10 * acc + d)
      | None => None
      end
  end.

(** The decimal number written at [s[i .. i+n)]. *)
Definition field (s : string) (i n : nat) : option Z :=
  let t := substring i n s in
  if Nat.eqb (String.length t) n then digits t 0 else None.

Definition charAt (s : string) (i : nat) : string := substring i 1 s.

Definition isLeap (y : Z) : bool :=
  ((y mod 4 =? 0) && (negb (y mod 100 =? 0) || (y mod 400 =? 0)))%bool.

Definition daysInMonth (y m : Z) : Z :=
  if m =? 2 then (if isLeap y then 29 else 28)
  else if (m =? 4) || (m =? 6) || (m =? 9) || (m =? 11) then 30
  else 31.

(** Days from 1970-01-01 to the civil date [y]-[m]-[d]. *)
Definition daysFromCivil (y m d : Z) : Z :=
  let y' := if m <=? 2 then y - 1 else y in
  let era := y' / 400 in
  let yoe := y' - era * 400 in
  let mp := (m + 9) mod 12 in
  let doy := (153 * mp + 2) / 5 + d - 1 in
  let doe := yoe * 365 + yoe / 4 - yoe / 100 + doy in
  era * 146097 + doe - 719468.

Definition msPerDay : Z := 86400000.

Definition parseDay (s : string) : option Z :=
  match field s 0 4, field s 5 2, field s 8 2 with
  | Some y, Some m, Some d =>
      if (String.eqb (charAt s 4) "-" && String.eqb (charAt s 7) "-"
          && (1 <=? m) && (m <=? 12) && (1 <=? d) && (d <=? daysInMonth y m))%bool
      then Some (daysFromCivil y m d * msPerDay)
      else None
  | _, _, _ => None
  end.

Definition parseClock (s : string) : option Z :=
  match field s 11 2, field s 14 2, field s 17 2 with
  | Some h, Some mi, Some sec =>
      if (String.eqb (charAt s 10) "T" && String.eqb (charAt s 13) ":"
          && String.eqb (charAt s 16) ":"
          && (h <=? 23) && (mi <=? 59) && (sec <=? 59))%bool
      then
        let base := (h * 60 + mi) * 60000 + sec * 1000 in
        if (Nat.eqb (String.length s) 20 && String.eqb (charAt s 19) "Z")%bool
        then Some base
        else if (Nat.eqb (String.length s) 24 && String.eqb (charAt s 19) "."
                 && String.eqb (charAt s 23) "Z")%bool
             then option_map (fun ms => base + ms) (field s 20 3)
             else None
      else None
  | _, _, _ => None
  end.

Definition parse (s : string) : JsDate :=
  match parseDay s with
  | None => InvalidDate
  | Some day =>
      if Nat.eqb (String.length s) 10 then TimeValue day
      else match parseClock s with
           | Some clock => TimeValue (day + clock)
           | None => InvalidDate
           end
  end.

Definition codeUnitCompare (a b : string) : Z :=
  match String.compare a b with
  | Lt => -1
  | Eq => 0
  | Gt => 1
  end.

Definition utc : Host :=
  {| Date_parse := parse;
     startOfDay := fun t => t - t mod msPerDay;
     endOfDay := fun t => t - t mod msPerDay + (msPerDay - 1);
     localeCompare := codeUnitCompare |}.

End RefHost.

(* ===================================================================== *)
(** ** Sample data *)
(* ===================================================================== *)

Module Samples.
Import Js Business.

(** A Pathfinder record as the list-all endpoint returns it, tagged by
    [fetchAllSessions]. *)
Definition pathfinderRecord (sales client : string) (reached : Z)
  (prod : option string) (time : option string) : BusinessRecord :=
  {| id := "1";
     session_id := "s-1";
     google_id := "g-1";
     google_full_name := sales;
     google_email := "";
     step := reached;
     total_steps := 8;
     client_name := client;
     website_url := "";
     diagnostic_answers := "{}";
     product := prod;
     contract_length := None;
     start_time := time;
     timestamp := time;
     _sessionType := pathfinder |}.

Definition kissRaw (sales : option string) (screen : option Z)
  (updated : option string) : KissRawRecord :=
  {| kiss_id := "k-1";
     data := Some
             {| clientUrl := None;
                createdAt := None;
                sessionId := None;
                updatedAt := None;
                prospectName := None;
                currentScreen := screen;
                contractLength := None;
                salesPersonName := sales;
                selectedProduct := None;
                recommendedProduct := None |};
     created_at := updated;
     updated_at := updated |}.

Definition entry (sales : string) (prod : option string) (time : string)
  : Overview.DataEntry :=
  {| Overview.timeCreated := time;
     Overview.salesPerson := sales;
     Overview.salesEmail := None;
     Overview.product := prod;
     Overview.bound := None |}.

(** Two records whose timestamp fields differ and do not parse as dates. *)
Definition unparsed : list BusinessRecord :=
  [ pathfinderRecord "A" "c1" 2 None (Some "N/A");
    pathfinderRecord "B" "c2" 3 None (Some "") ].

(** 2024-01-05T00:00:00Z and 2024-01-05T12:00:00Z as time values. *)
Definition jan5 : Z := 1704412800000.
Definition jan5noon : Z := 1704456000000.

(** A record and an overview entry stamped 2024-01-05T08:00:00Z, and a
    record and an entry whose time stamp does not parse. *)
Definition morningRecord : BusinessRecord :=
  pathfinderRecord "A" "c1" 2 None (Some "2024-01-05T08:00:00Z").
Definition morningEntry : Overview.DataEntry :=
  entry "A" (Some "LSA") "2024-01-05T08:00:00Z".
Definition undatedRecord : BusinessRecord :=
  pathfinderRecord "A" "c1" 2 None (Some "N/A").
Definition undatedEntry : Overview.DataEntry :=
  entry "A" (Some "LSA") "N/A".

(** A lone KISS session of salesperson B, as normalised from the payload,
    and a lone Pathfinder session that carries no salesperson name. *)
Definition loneKiss : list BusinessRecord :=
  match normalizeKissRecord (kissRaw (Some "B") (Some 1) (Some "2024-01-05")) with
  | Returned r => [r]
  | Thrown _ => []
  end.
Definition unnamedSession : list BusinessRecord :=
  [ pathfinderRecord "" "c1" 2 None (Some "2024-01-05") ].

(** A raw KISS record that came without its data object. *)
Definition kissWithoutData : KissRawRecord :=
  {| kiss_id := "k-2";
     data := None;
     created_at := Some "2024-01-05";
     updated_at := Some "2024-01-05" |}.

(** A Pathfinder session of a salesperson whose name is the name of a
    property every object inherits, and the same as an overview entry. *)
Definition inheritedName : list BusinessRecord :=
  [ pathfinderRecord "constructor" "c1" 2 None (Some "2024-01-05") ].
Definition inheritedAgent : list Overview.DataEntry :=
  [ entry "constructor" (Some "LSA") "2024-01-05T08:00:00Z" ].

(** A lone Pathfinder session without salesperson name that reached the
    last of its 8 steps. *)
Definition unnamedComplete : list BusinessRecord :=
  [ pathfinderRecord "" "c1" 8 None (Some "2024-01-05") ].

(** A session that reached 1 of 3 steps, and six of them for one
    salesperson. *)
Definition oneOfThree : BusinessRecord :=
  {| id := "1";
     session_id := "s-1";
     google_id := "g-1";
     google_full_name := "A";
     google_email := "";
     step := 1;
     total_steps := 3;
     client_name := "c1";
     website_url := "";
     diagnostic_answers := "{}";
     product := None;
     contract_length := None;
     start_time := None;
     timestamp := None;
     _sessionType := pathfinder |}.
Definition sixThirds : list BusinessRecord := repeat oneOfThree 6.

(** The two records of the specification's leaderboard scenario. *)
Definition scenario : list BusinessRecord :=
  [ pathfinderRecord "A" "c1" 2 (Some "Lead Gen") (Some "2024-01-05");
    pathfinderRecord "A" "c2" 8 (Some "Local SEO") (Some "2024-01-10") ].

(** Fifty-two records, one of 2 January, fifty of 5 January and one of
    8 January 2024: two pages of results. *)
Definition jan3 : Z := 1704240000000.
Definition jan6 : Z := 1704499200000.
Definition busyDay : list BusinessRecord :=
  pathfinderRecord "A" "c0" 2 None (Some "2024-01-02")
  :: repeat (pathfinderRecord "A" "c1" 2 None (Some "2024-01-05")) 50
  ++ [pathfinderRecord "A" "c2" 2 None (Some "2024-01-08")].

(** The results list on its second page, nothing selected. *)
Definition secondPage : ResultsList.State :=
  {| ResultsList.filters := ResultsList.noFilters;
     ResultsList.sortField := ResultsList.by_timestamp;
     ResultsList.sortDir := ResultsList.desc;
     ResultsList.currentPage := 2 |}.

(** The results list with the product Lead Gen selected. *)
Definition leadGenOnly : ResultsList.Filters :=
  {| ResultsList.searchQuery := "";
     ResultsList.productFilter := "Lead Gen";
     ResultsList.salesPersonFilter := "all";
     ResultsList.contractLengthFilter := "all";
     ResultsList.dateFrom := None;
     ResultsList.dateTo := None |}.

(** An overview entry stamped 2024-01-07T10:00:00Z. *)
Definition laterEntry : Overview.DataEntry :=
  entry "B" (Some "Lead Gen") "2024-01-07T10:00:00Z".

(** 2024-01-05T08:00:00Z and 2024-01-06T09:30:00Z as time values. *)
Definition jan5morning : Z := 1704441600000.
Definition jan6halfPastNine : Z := 1704533400000.

End Samples.

(* ===================================================================== *)
(** ** Vocabulary of the properties *)
(* ===================================================================== *)

(** *** Sorting by a key *)

Definition ascending {A : Type} (key : A -> Z) (a b : A) : Prop := key a < key b.

(** *** Time values and date ranges *)

Section TimeVocabulary.
Import Js Business.
Context `{Host}.

(** The time value the sort reads off a record; [None] is NaN. *)
Definition timeOf (r : BusinessRecord) : option Z :=
  getTime (newDate (timestamp r)).

Definition timeKey (r : BusinessRecord) : Z :=
  match timeOf r with
  | Some t => t
  | None => 0
  end.

(** The results list with only a date range selected. *)
Definition resultsRange (lo hi : option Z) : ResultsList.Filters :=
  {| ResultsList.searchQuery := "";
     ResultsList.productFilter := "all";
     ResultsList.salesPersonFilter := "all";
     ResultsList.contractLengthFilter := "all";
     ResultsList.dateFrom := option_map TimeValue lo;
     ResultsList.dateTo := option_map TimeValue hi |}.

(** The overview with only a date range selected. *)
Definition overviewRange (lo hi : option Z) : Overview.Filters :=
  {| Overview.startDate := option_map TimeValue lo;
     Overview.endDate := option_map TimeValue hi;
     Overview.agentFilter := "all";
     Overview.boundFilter := "all" |}.

(** A time value lies in the range selected by [lo] and [hi], compared
    against the boundaries as they are. *)
Definition between (lo hi : option Z) (t : Z) : Prop :=
  (forall l, lo = Some l -> l <= t) /\ (forall h, hi = Some h -> t <= h).

(** A date lies in the selected range once the lower boundary is moved to
    the start of its day and the upper boundary to the end of its day; an
    invalid date lies in no range. *)
Definition withinRange (d : JsDate) (lo hi : option Z) : Prop :=
  match d with
  | TimeValue t => between (option_map startOfDay lo) (option_map endOfDay hi) t
  | InvalidDate => False
  end.

End TimeVocabulary.

(** *** Products *)

Section ProductVocabulary.
Import Js Overview.

(** The fixed enumerated set: the keys the distribution starts with. *)
Definition productNames : list string := dict_keys emptyDistribution.

(** The entry names product [p]. *)
Definition hasProduct (p : string) (e : DataEntry) : bool :=
  match product e with
  | Some q => String.eqb p q
  | None => false
  end.

(** The number of entries that name product [p]. *)
Definition countOf (p : string) (data : list DataEntry) : nat :=
  List.length (filter (hasProduct p) data).

(** The entry names one of the enumerated products. *)
Definition recognised (e : DataEntry) : bool :=
  existsb (fun p => hasProduct p e) productNames.

Definition indicator (b : bool) : nat := if b then 1%nat else 0%nat.

End ProductVocabulary.

(** *** Grouping records by a name

    The three per-salesperson aggregations run the same loop: a record that
    passes a guard is folded into the dictionary entry of its name, which is
    created on first use. *)

Section GroupVocabulary.
Import Js.
Context {R V : Type}.
Variable key : R -> string.
Variable guard : R -> bool.
Variable init : string -> V.
Variable f : R -> V -> V.

Definition groupStep (m : Dict V) (r : R) : Dict V :=
  if guard r then upsert (key r) (init (key r)) (f r) m else m.

(** The record is folded into the group named [k]. *)
Definition joins (k : string) (r : R) : bool :=
  (guard r && String.eqb (key r) k)%bool.

Definition absorb (rs : list R) (v : V) : V :=
  fold_left (fun acc r => f r acc) rs v.

(** The group named [k] as the loop leaves it. *)
Definition groupValue (k : string) (l : list R) : V :=
  absorb (filter (joins k) l) (init k).

(** The same loop when the dictionary is a plain object. *)
Definition objectStep (m : Dict V) (r : R) : Dict V :=
  if guard r then object_upsert (key r) (init (key r)) (f r) m else m.

End GroupVocabulary.

(** *** Salespeople and their sessions *)

Section SalesVocabulary.
Import Js Business.

(** The record carries a salesperson name. *)
Definition named (s : BusinessRecord) : bool := truthy (google_full_name s).

(** The record carries a salesperson name under which a plain object makes
    an entry of its own. *)
Definition counted (s : BusinessRecord) : bool :=
  (named s && negb (inherited (google_full_name s)))%bool.

Definition ofType (t : SessionType) (s : BusinessRecord) : bool :=
  SessionType_eqb (_sessionType s) t.

(** The records of the salesperson named [n]. *)
Definition sessionsOf (n : string) (l : list BusinessRecord) : list BusinessRecord :=
  filter (fun s => String.eqb (google_full_name s) n) l.

(** How many records of session type [t] the salesperson named [n] has. *)
Definition countOfType (t : SessionType) (n : string) (l : list BusinessRecord) : nat :=
  List.length (filter (ofType t) (sessionsOf n l)).

(** The completion test of the leaderboard's first loop. *)
Definition reached (s : BusinessRecord) : bool := total_steps s <=? step s.

(** The session belongs to a salesperson that the list of groups names. *)
Definition listedIn (gs : list SalesLeaderboard.SalespersonStats)
  (s : BusinessRecord) : bool :=
  existsb (fun g => String.eqb (google_full_name s) (SalesLeaderboard.name g)) gs.

End SalesVocabulary.

(** *** Agents of the overview *)

Section AgentVocabulary.
Import Js Business Overview.

(** The entries of the agent named [n]. *)
Definition entriesOf (n : string) (data : list DataEntry) : list DataEntry :=
  filter (fun e => String.eqb (salesPerson e) n) data.

(** The two loops of [allAgents] as one loop over the entries, each tagged
    with the list it comes from. *)
Definition tagged (pathfinderData kissData : list DataEntry)
  : list (SessionType * DataEntry) :=
  map (pair pathfinder) pathfinderData ++ map (pair kiss) kissData.

Definition countTagged (te : SessionType * DataEntry) (c : Counts) : Counts :=
  match fst te with
  | pathfinder => {| pathfinderCount := S (pathfinderCount c); kissCount := kissCount c |}
  | kiss => {| pathfinderCount := pathfinderCount c; kissCount := S (kissCount c) |}
  end.

Definition agentStep : Dict Counts -> SessionType * DataEntry -> Dict Counts :=
  groupStep (fun te => salesPerson (snd te))
    (fun te => negb (inherited (salesPerson (snd te)))) (fun _ => noCounts)
    countTagged.

End AgentVocabulary.

(** *** The handlers of the results list as events *)

Section ResultsEvents.
Import Js Business ResultsList.
Context `{Host}.

(** What the user can do to the results list short of picking a date. *)
Inductive Event : Type :=
| SearchChanged (v : string)
| ProductChanged (v : string)
| SalesPersonChanged (v : string)
| ContractChanged (v : string)
| FiltersCleared
| SortToggled (field : SortField)
| PreviousClicked
| NextClicked
| PageClicked (p : Z).

Definition react (results : list BusinessRecord) (ev : Event) (st : State) : State :=
  match ev with
  | SearchChanged v => onSearchChange v st
  | ProductChanged v => onProductChange v st
  | SalesPersonChanged v => handleSalesPersonFilterChange v st
  | ContractChanged v => onContractChange v st
  | FiltersCleared => clearFilters st
  | SortToggled field => toggleSort field st
  | PreviousClicked => previousPage st
  | NextClicked => nextPage results st
  | PageClicked p => gotoPage p st
  end.

(** A page can be clicked when the page links show it. *)
Definition offered (results : list BusinessRecord) (st : State) (ev : Event) : Prop :=
  match ev with
  | PageClicked p =>
      In (pageLink p)
         (pageItems (totalPages (shownIn results st)) (currentPage st))
  | _ => True
  end.

(** The current page is one of the pages of what the table shows. *)
Definition pageInRange (results : list BusinessRecord) (st : State) : Prop :=
  1 <= currentPage st <= totalPages (shownIn results st).

(** The two date pickers. *)
Inductive Calendar : Type :=
| FromCalendar
| ToCalendar.

Definition pickDate (c : Calendar) (d : option JsDate) (st : State) : State :=
  match c with
  | FromCalendar => setDateFrom d st
  | ToCalendar => setDateTo d st
  end.

End ResultsEvents.

(** Two items stand next to each other in a list. *)
Definition follows {T : Type} (l : list T) (a b : T) : Prop :=
  exists before after, l = before ++ a :: b :: after.

(** The page numbers of a row of page links. *)
Definition linksOf (items : list ResultsList.PageItem) : list Z :=
  flat_map (fun item => match item with
                        | ResultsList.pageLink p => [p]
                        | ResultsList.ellipsis => []
                        end) items.

(** *** Further vocabulary of the leaderboard, the overview and the detail view *)

(** The leaderboard with a date range selected. *)
Definition leaderboardRange (lo hi : option Z) : SalesLeaderboard.DateRange :=
  {| SalesLeaderboard.from := option_map Js.TimeValue lo;
     SalesLeaderboard.to := option_map Js.TimeValue hi |}.

(** The whole minutes an elapsed time stands for. *)
Definition wholeMinutes (e : BusinessDetail.Elapsed) : option Z :=
  match e with
  | BusinessDetail.DaysHoursMinutes d h m => Some ((d * 24 + h) * 60 + m)
  | BusinessDetail.HoursMinutes h m => Some (h * 60 + m)
  | BusinessDetail.MinutesOnly m => Some m
  | _ => None
  end.

(** The host's day boundaries enclose the time they are taken of. *)
Definition daysEnclose `{Js.Host} : Prop :=
  forall t, Js.startOfDay t <= t <= Js.endOfDay t.

(** The time value of an overview entry; [None] is NaN. *)
Definition entryTime `{Js.Host} (e : Overview.DataEntry) : option Z :=
  Js.getTime (Js.Date_parse (Overview.timeCreated e)).

(** *** Loading the sessions *)

(** The load failed: the sessions and the loaded flag are as they were,
    loading has ended and the failure toast is shown. *)
Definition loadFailure (st : SalesLeaderboard.PageState)
  (result : SalesLeaderboard.PageState * SalesLeaderboard.Toast) : Prop :=
  SalesLeaderboard.leaderboardSessions (fst result)
  = SalesLeaderboard.leaderboardSessions st
  /\ SalesLeaderboard.leaderboardLoaded (fst result)
     = SalesLeaderboard.leaderboardLoaded st
  /\ SalesLeaderboard.isLoading (fst result) = false
  /\ snd result = SalesLeaderboard.LoadFailed.

(** The load succeeded with the Pathfinder records [raw] and the KISS
    records [ks]: the sessions are the tagged Pathfinder records followed by
    the KISS records, and the toast announces their number. *)
Definition loadSuccess (raw ks : list Business.BusinessRecord)
  (result : SalesLeaderboard.PageState * SalesLeaderboard.Toast) : Prop :=
  result
  = ({| SalesLeaderboard.leaderboardSessions :=
          map SalesLeaderboard.tagPathfinder raw ++ ks;
        SalesLeaderboard.leaderboardLoaded := true;
        SalesLeaderboard.isLoading := false |},
     SalesLeaderboard.LeaderboardLoaded (List.length raw + List.length ks)).

(** An element of the KISS array on which the normaliser throws: [null], or
    a record without data object. *)
Definition broken (e : option Business.KissRawRecord) : Prop :=
  match e with
  | Some k => Business.data k = None
  | None => True
  end.

(** The element is a record that the normaliser turns into [r]. *)
Definition normalizedAs (e : option Business.KissRawRecord)
  (r : Business.BusinessRecord) : Prop :=
  exists k, e = Some k /\ Business.normalizeKissRecord k = Js.Returned r.

(** The range of the leaderboard with no date selected. *)
Definition anyDate : SalesLeaderboard.DateRange :=
  {| SalesLeaderboard.from := None; SalesLeaderboard.to := None |}.

(* ===================================================================== *)
(** ** Facts about the JavaScript operations *)
(* ===================================================================== *)

(** *** Rounding to the nearest double

    What the properties need of [binary64]: it is monotone, it keeps the
    sign, and it leaves the integers below 2^53 as they are. *)

Section DoubleFacts.
Import Js.
Local Open Scope Q_scope.

Lemma rne_cases (x : Q) : rne x = Qfloor x \/ rne x = (Qfloor x + 1)%Z.
Proof.
  unfold rne. destruct (Qcompare _ _); auto. destruct (Z.even _); auto.
Qed.

Lemma rne_comp (x y : Q) : x == y -> rne x = rne y.
Proof.
  intros Heq. unfold rne. rewrite (Qfloor_comp _ _ Heq).
  assert (Hc : (x - inject_Z (Qfloor y) ?= 1 # 2) = (y - inject_Z (Qfloor y) ?= 1 # 2)).
  { apply Qcompare_comp; [|reflexivity]. now rewrite Heq. }
  now rewrite Hc.
Qed.

Lemma rne_mono (x y : Q) : x <= y -> (rne x <= rne y)%Z.
Proof.
  intros Hle. pose proof (Qfloor_resp_le _ _ Hle) as Hf.
  destruct (Z.eq_dec (Qfloor x) (Qfloor y)) as [Heq|Hne].
  - unfold rne. rewrite Heq.
    destruct (Qcompare_spec (x - inject_Z (Qfloor y)) (1 # 2)) as [Hx|Hx|Hx];
      destruct (Qcompare_spec (y - inject_Z (Qfloor y)) (1 # 2)) as [Hy|Hy|Hy];
      try lia; try (exfalso; lra);
      destruct (Z.even (Qfloor y)); lia.
  - destruct (rne_cases x) as [-> | ->], (rne_cases y) as [-> | ->]; lia.
Qed.

Lemma rne_inject_Z (z : Z) : rne (inject_Z z) = z.
Proof.
  unfold rne. rewrite Qfloor_Z.
  destruct (Qcompare_spec (inject_Z z - inject_Z z) (1 # 2)) as [Hx|Hx|Hx];
    auto; exfalso; lra.
Qed.

Lemma pow2_pos (e : Z) : 0 < pow2 e.
Proof. apply Qpower_0_lt. reflexivity. Qed.

Lemma pow2_add (a b : Z) : pow2 (a + b) == pow2 a * pow2 b.
Proof. apply Qpower_plus. discriminate. Qed.

Lemma pow2_lt (a b : Z) : (a < b)%Z -> pow2 a < pow2 b.
Proof. intros Hlt. apply Qpower_lt_compat_l; [exact Hlt|reflexivity]. Qed.

Lemma pow2_le (a b : Z) : (a <= b)%Z -> pow2 a <= pow2 b.
Proof. intros Hle. apply Qpower_le_compat_l; [exact Hle|discriminate]. Qed.

Lemma pow2_Z (a : Z) : (0 <= a)%Z -> pow2 a == inject_Z (2 ^ a).
Proof. intros Ha. unfold pow2. now rewrite Zpower_Qpower. Qed.

Lemma pow2_succ (a : Z) : pow2 (a + 1) == 2 * pow2 a.
Proof. rewrite pow2_add. unfold pow2 at 2. rewrite Qpower_1_r. ring. Qed.

Lemma Q_as_quotient (x : Q) :
  x * inject_Z (Zpos (Qden x)) == inject_Z (Qnum x).
Proof.
  destruct x as [n d]. unfold Qeq, Qmult, inject_Z; simpl.
  rewrite Pos.mul_1_r. ring.
Qed.

Lemma log2_bounds (n : Z) :
  (0 < n)%Z ->
  pow2 (Z.log2 n) <= inject_Z n /\ inject_Z n < pow2 (Z.log2 n + 1).
Proof.
  intros Hn. destruct (Z.log2_spec n Hn) as [Hlo Hhi].
  pose proof (Z.log2_nonneg n) as Hnn.
  rewrite !pow2_Z by lia. rewrite <- Zle_Qle, <- Zlt_Qlt.
  split; [exact Hlo|]. now rewrite <- Z.add_1_r in Hhi.
Qed.

Lemma ilog2_spec (x : Q) :
  0 < x -> pow2 (ilog2 x) <= x /\ x < pow2 (ilog2 x + 1).
Proof.
  intros Hx.
  assert (Hn : (0 < Qnum x)%Z).
  { destruct x as [n d]. unfold Qlt in Hx; simpl in *. lia. }
  destruct (log2_bounds (Qnum x) Hn) as [Hnlo Hnhi].
  destruct (log2_bounds (Zpos (Qden x)) eq_refl) as [Hdlo Hdhi].
  pose proof (Q_as_quotient x) as Hq.
  set (ln := Z.log2 (Qnum x)) in *. set (ld := Z.log2 (Zpos (Qden x))) in *.
  set (n := inject_Z (Qnum x)) in *. set (d := inject_Z (Zpos (Qden x))) in *.
  assert (Hup : x < pow2 (ln - ld + 1)).
  { pose proof (pow2_add (ln - ld + 1) ld) as Hadd.
    replace (ln - ld + 1 + ld)%Z with (ln + 1)%Z in Hadd by lia.
    pose proof (pow2_pos (ln - ld + 1)) as Hp. pose proof (pow2_pos ld) as Hp'.
    nra. }
  assert (Hdown : pow2 (ln - ld - 1) <= x).
  { pose proof (pow2_add (ln - ld - 1) (ld + 1)) as Hadd.
    replace (ln - ld - 1 + (ld + 1))%Z with ln in Hadd by lia.
    pose proof (pow2_pos (ln - ld - 1)) as Hp. pose proof (pow2_pos (ld + 1)) as Hp'.
    nra. }
  unfold ilog2. fold ln ld.
  destruct (Qle_bool (pow2 (ln - ld)) x) eqn:Etest.
  - apply Qle_bool_iff in Etest. split; auto.
  - assert (Hlt : x < pow2 (ln - ld)).
    { apply Qnot_le_lt. intros Hle. apply Qle_bool_iff in Hle. congruence. }
    replace (ln - ld - 1 + 1)%Z with (ln - ld)%Z by lia. split; auto.
Qed.

Lemma pow2_lt_inv (a b : Z) : pow2 a < pow2 b -> (a < b)%Z.
Proof. intros Hlt. apply (Qpower_lt_compat_l_inv 2); [exact Hlt|reflexivity]. Qed.

Lemma ilog2_unique (x : Q) (e : Z) :
  0 < x -> pow2 e <= x -> x < pow2 (e + 1) -> ilog2 x = e.
Proof.
  intros Hx Hlo Hhi. destruct (ilog2_spec x Hx) as [Hlo' Hhi'].
  assert (H1 : (ilog2 x < e + 1)%Z) by (apply pow2_lt_inv; lra).
  assert (H2 : (e < ilog2 x + 1)%Z) by (apply pow2_lt_inv; lra).
  lia.
Qed.

Lemma ilog2_mono (x y : Q) : 0 < x -> x <= y -> (ilog2 x <= ilog2 y)%Z.
Proof.
  intros Hx Hle. destruct (ilog2_spec x Hx) as [Hlo _].
  destruct (ilog2_spec y ltac:(lra)) as [_ Hhi].
  assert (H1 : (ilog2 x < ilog2 y + 1)%Z) by (apply pow2_lt_inv; lra).
  lia.
Qed.

Lemma ilog2_comp (x y : Q) : 0 < x -> x == y -> ilog2 x = ilog2 y.
Proof.
  intros Hx Heq. destruct (ilog2_spec x Hx) as [Hlo Hhi].
  symmetry. apply ilog2_unique; lra.
Qed.

Lemma scaled_bounds (x : Q) :
  0 < x ->
  inject_Z (2 ^ 52) <= x / pow2 (ilog2 x - 52)
  /\ x / pow2 (ilog2 x - 52) <= inject_Z (2 ^ 53).
Proof.
  intros Hx. destruct (ilog2_spec x Hx) as [Hlo Hhi].
  pose proof (pow2_pos (ilog2 x - 52)) as Hu.
  pose proof (pow2_add (ilog2 x - 52) 52) as H52.
  pose proof (pow2_add (ilog2 x - 52) 53) as H53.
  replace (ilog2 x - 52 + 52)%Z with (ilog2 x) in H52 by lia.
  replace (ilog2 x - 52 + 53)%Z with (ilog2 x + 1)%Z in H53 by lia.
  rewrite (pow2_Z 52) in H52 by lia. rewrite (pow2_Z 53) in H53 by lia.
  set (u := pow2 (ilog2 x - 52)) in *.
  split.
  - apply Qle_shift_div_l; [exact Hu|]. lra.
  - apply Qle_shift_div_r; [exact Hu|]. lra.
Qed.

Lemma significand_bounds (x : Q) :
  0 < x -> pow2 (ilog2 x) <= significand x /\ significand x <= pow2 (ilog2 x + 1).
Proof.
  intros Hx. destruct (scaled_bounds x Hx) as [Hlo Hhi].
  apply rne_mono in Hlo, Hhi. rewrite rne_inject_Z in Hlo, Hhi.
  unfold significand.
  pose proof (pow2_pos (ilog2 x - 52)) as Hu.
  pose proof (pow2_add (ilog2 x - 52) 52) as H52.
  pose proof (pow2_add (ilog2 x - 52) 53) as H53.
  replace (ilog2 x - 52 + 52)%Z with (ilog2 x) in H52 by lia.
  replace (ilog2 x - 52 + 53)%Z with (ilog2 x + 1)%Z in H53 by lia.
  rewrite (pow2_Z 52) in H52 by lia. rewrite (pow2_Z 53) in H53 by lia.
  rewrite Zle_Qle in Hlo, Hhi.
  set (u := pow2 (ilog2 x - 52)) in *.
  set (m := inject_Z (rne (x / u))) in *.
  split; nra.
Qed.

Lemma significand_mono (x y : Q) :
  0 < x -> x <= y -> significand x <= significand y.
Proof.
  intros Hx Hle. assert (Hy : 0 < y) by lra.
  pose proof (ilog2_mono x y Hx Hle) as He.
  destruct (Z.eq_dec (ilog2 x) (ilog2 y)) as [Heq|Hne].
  - unfold significand. rewrite Heq.
    pose proof (pow2_pos (ilog2 y - 52)) as Hu.
    assert (Hdiv : x / pow2 (ilog2 y - 52) <= y / pow2 (ilog2 y - 52)).
    { apply Qmult_le_compat_r; [exact Hle|].
      apply Qlt_le_weak, Qinv_lt_0_compat, Hu. }
    apply rne_mono in Hdiv. rewrite Zle_Qle in Hdiv.
    set (u := pow2 (ilog2 y - 52)) in *. nra.
  - destruct (significand_bounds x Hx) as [_ Hhi].
    destruct (significand_bounds y Hy) as [Hlo _].
    pose proof (pow2_le (ilog2 x + 1) (ilog2 y) ltac:(lia)). lra.
Qed.

Lemma significand_comp (x y : Q) : 0 < x -> x == y -> significand x == significand y.
Proof.
  intros Hx Heq. unfold significand. rewrite <- (ilog2_comp x y Hx Heq).
  assert (Hr : rne (x / pow2 (ilog2 x - 52)) = rne (y / pow2 (ilog2 x - 52))).
  { apply rne_comp. unfold Qdiv. apply Qmult_comp; [exact Heq|reflexivity]. }
  now rewrite Hr.
Qed.

Lemma binary64_pos (x : Q) : 0 < x -> binary64 x == significand x.
Proof.
  intros Hx. unfold binary64. destruct (Qcompare_spec 0 x) as [H|H|H]; try lra.
  apply Qred_correct.
Qed.

Lemma binary64_neg (x : Q) : x < 0 -> binary64 x == - significand (- x).
Proof.
  intros Hx. unfold binary64. destruct (Qcompare_spec 0 x) as [H|H|H]; try lra.
  apply Qred_correct.
Qed.

Lemma binary64_zero (x : Q) : x == 0 -> binary64 x == 0.
Proof.
  intros Hx. unfold binary64. destruct (Qcompare_spec 0 x) as [H|H|H]; lra.
Qed.

Lemma significand_pos (x : Q) : 0 < x -> 0 < significand x.
Proof.
  intros Hx. destruct (significand_bounds x Hx) as [Hlo _].
  pose proof (pow2_pos (ilog2 x)). lra.
Qed.

(** Rounding keeps the sign. *)
Lemma binary64_sign (x : Q) : (0 < x -> 0 < binary64 x) /\ (x < 0 -> binary64 x < 0).
Proof.
  split; intros Hx.
  - rewrite binary64_pos by exact Hx. now apply significand_pos.
  - rewrite binary64_neg by exact Hx.
    pose proof (significand_pos (- x) ltac:(lra)). lra.
Qed.

(** Rounding is monotone. *)
Lemma binary64_mono (x y : Q) : x <= y -> binary64 x <= binary64 y.
Proof.
  intros Hle.
  destruct (Qlt_le_dec 0 x) as [Hx|Hx].
  - rewrite (binary64_pos x Hx), (binary64_pos y) by lra. now apply significand_mono.
  - destruct (Qlt_le_dec x 0) as [Hx'|Hx'].
    + rewrite (binary64_neg x Hx').
      pose proof (significand_pos (- x) ltac:(lra)) as Hsx.
      destruct (Qlt_le_dec y 0) as [Hy|Hy].
      * rewrite (binary64_neg y Hy).
        pose proof (significand_mono (- y) (- x) ltac:(lra) ltac:(lra)). lra.
      * destruct (Qlt_le_dec 0 y) as [Hy'|Hy'].
        -- pose proof (proj1 (binary64_sign y) Hy'). lra.
        -- rewrite (binary64_zero y) by lra. lra.
    + rewrite (binary64_zero x) by lra.
      destruct (Qlt_le_dec 0 y) as [Hy'|Hy'].
      * pose proof (proj1 (binary64_sign y) Hy'). lra.
      * rewrite (binary64_zero y) by lra. lra.
Qed.

Lemma binary64_nonneg (x : Q) : 0 <= x -> 0 <= binary64 x.
Proof.
  intros Hx. apply binary64_mono in Hx.
  rewrite (binary64_zero 0) in Hx by reflexivity. exact Hx.
Qed.

(** Rounding respects the equality of rationals. *)
Lemma binary64_comp (x y : Q) : x == y -> binary64 x == binary64 y.
Proof.
  intros Heq.
  destruct (Qlt_le_dec 0 x) as [Hx|Hx].
  - rewrite (binary64_pos x Hx), (binary64_pos y) by lra. now apply significand_comp.
  - destruct (Qlt_le_dec x 0) as [Hx'|Hx'].
    + rewrite (binary64_neg x Hx'), (binary64_neg y) by lra.
      rewrite (significand_comp (- x) (- y)); [reflexivity|lra|].
      now rewrite Heq.
    + rewrite (binary64_zero x), (binary64_zero y) by lra. reflexivity.
Qed.

(** A number whose scaled form is an integer is its own rounding. *)
Lemma significand_fixed (x : Q) (m : Z) :
  x == inject_Z m * pow2 (ilog2 x - 52) -> significand x == x.
Proof.
  intros Hm. unfold significand.
  pose proof (pow2_pos (ilog2 x - 52)) as Hu.
  assert (Hs : x / pow2 (ilog2 x - 52) == inject_Z m).
  { rewrite Hm at 1. field. lra. }
  rewrite (rne_comp _ _ Hs), rne_inject_Z. now symmetry.
Qed.

(** The integers below 2^53 are doubles. *)
Lemma binary64_integer (z : Z) : (Z.abs z < 2 ^ 53)%Z -> binary64 (inject_Z z) == inject_Z z.
Proof.
  assert (Hposcase : forall p, (0 < p < 2 ^ 53)%Z ->
                               significand (inject_Z p) == inject_Z p).
  { intros p [Hp Hlt].
    assert (Hx : 0 < inject_Z p).
    { change 0 with (inject_Z 0). now rewrite <- Zlt_Qlt. }
    destruct (ilog2_spec _ Hx) as [Hlo Hhi].
    assert (He : (0 <= ilog2 (inject_Z p) < 53)%Z).
    { split.
      - assert (H0 : (0 < ilog2 (inject_Z p) + 1)%Z); [|lia].
        apply pow2_lt_inv. change (pow2 0) with 1.
        assert (H1 : 1 <= inject_Z p).
        { change 1 with (inject_Z 1). rewrite <- Zle_Qle. lia. }
        lra.
      - apply pow2_lt_inv. rewrite (pow2_Z 53) by lia.
        rewrite Zlt_Qlt in Hlt. lra. }
    set (e := ilog2 (inject_Z p)) in *.
    apply (significand_fixed _ (p * 2 ^ (52 - e))). fold e.
    rewrite inject_Z_mult, <- (pow2_Z (52 - e)) by lia.
    pose proof (pow2_add (52 - e) (e - 52)) as Hadd.
    replace (52 - e + (e - 52))%Z with 0%Z in Hadd by lia.
    change (pow2 0) with 1 in Hadd.
    rewrite <- Qmult_assoc, <- Hadd. ring. }
  intros Hz. destruct (Z.lt_trichotomy z 0) as [Hneg|[->|Hpos]].
  - assert (Hx : inject_Z z < 0).
    { change 0 with (inject_Z 0). now rewrite <- Zlt_Qlt. }
    rewrite (binary64_neg _ Hx).
    assert (Hopp : - inject_Z z == inject_Z (- z)) by (rewrite inject_Z_opp; reflexivity).
    assert (Hp : 0 < - inject_Z z) by lra.
    rewrite (significand_comp _ _ Hp Hopp), Hposcase by lia.
    rewrite inject_Z_opp. ring.
  - reflexivity.
  - assert (Hx : 0 < inject_Z z).
    { change 0 with (inject_Z 0). now rewrite <- Zlt_Qlt. }
    rewrite (binary64_pos _ Hx). apply Hposcase. lia.
Qed.

(** The sort reads the sign of a difference, which rounding keeps. *)
Lemma positive_num_sub (a b : Q) :
  positive (Some (num_sub a b)) = positive (Some (a - b)).
Proof.
  unfold positive, num_sub.
  destruct (binary64_sign (a - b)) as [Hpos Hneg].
  pose proof (binary64_zero (a - b)) as Hzero.
  destruct (Qcompare_spec 0 (a - b)) as [He|Hl|Hg];
    destruct (Qcompare_spec 0 (binary64 (a - b))) as [He'|Hl'|Hg'];
    auto; exfalso.
  - rewrite Hzero in Hl' by (symmetry; exact He). lra.
  - specialize (Hpos Hl). lra.
  - specialize (Hpos Hl). lra.
  - specialize (Hneg Hg). lra.
Qed.

End DoubleFacts.

Section DictFacts.
Import Js.
Context {V : Type}.
Implicit Types (d : Dict V) (k : string) (v : V).

Lemma dict_get_set_same k v d : dict_get k (dict_set k v d) = Some v.
Proof.
  induction d as [|[k' v'] r IH]; simpl.
  - now rewrite String.eqb_refl.
  - destruct (String.eqb k' k) eqn:E; simpl; rewrite E; auto.
Qed.

Lemma dict_get_set_other k k' v d :
  k <> k' -> dict_get k' (dict_set k v d) = dict_get k' d.
Proof.
  intros Hne. induction d as [|[k0 v0] r IH]; simpl.
  - destruct (String.eqb_spec k k'); congruence.
  - destruct (String.eqb_spec k0 k); simpl.
    + subst k0. destruct (String.eqb_spec k k'); congruence.
    + now rewrite IH.
Qed.

Lemma dict_keys_set k v d :
  dict_keys (dict_set k v d)
  = if dict_has k d then dict_keys d else dict_keys d ++ [k].
Proof.
  unfold dict_has, dict_keys. induction d as [|[k0 v0] r IH]; simpl; auto.
  destruct (String.eqb k0 k) eqn:E; simpl; auto.
  rewrite IH. now destruct (dict_get k r).
Qed.

Lemma dict_has_keys k d : dict_has k d = true <-> In k (dict_keys d).
Proof.
  unfold dict_has, dict_keys. induction d as [|[k0 v0] r IH]; simpl.
  - split; [discriminate | tauto].
  - destruct (String.eqb_spec k0 k).
    + split; auto.
    + rewrite IH. split; auto. intros [?|?]; congruence.
Qed.

Lemma dict_get_none_keys k d : dict_get k d = None <-> ~ In k (dict_keys d).
Proof.
  rewrite <- dict_has_keys. unfold dict_has.
  destruct (dict_get k d); split; congruence.
Qed.

Lemma dict_get_In k v d : dict_get k d = Some v -> In (k, v) d.
Proof.
  induction d as [|[k0 v0] r IH]; simpl; [discriminate|].
  destruct (String.eqb_spec k0 k).
  - intros [= ->]. subst. now left.
  - auto.
Qed.

Lemma dict_In_get k v d : NoDup (dict_keys d) -> In (k, v) d -> dict_get k d = Some v.
Proof.
  unfold dict_keys. induction d as [|[k0 v0] r IH]; simpl; [tauto|].
  intros Hnd [Heq|Hin]; inversion Hnd as [|? ? Hni Hnd']; subst.
  - inversion Heq; subst. now rewrite String.eqb_refl.
  - destruct (String.eqb_spec k0 k).
    + subst. exfalso. apply Hni. now apply (in_map fst) in Hin.
    + auto.
Qed.

Lemma dict_get_upsert_same k init f d :
  dict_get k (upsert k init f d) = Some (f (current k init d)).
Proof.
  unfold upsert, dict_modify, dict_has, current.
  destruct (dict_get k d) as [v|] eqn:E.
  - rewrite E. apply dict_get_set_same.
  - rewrite dict_get_set_same. apply dict_get_set_same.
Qed.

Lemma dict_get_upsert_other k k' init f d :
  k <> k' -> dict_get k' (upsert k init f d) = dict_get k' d.
Proof.
  intros Hne. unfold upsert, dict_modify, dict_has.
  destruct (dict_get k d) as [v|] eqn:E.
  - rewrite E. now apply dict_get_set_other.
  - rewrite dict_get_set_same.
    rewrite !dict_get_set_other by assumption. reflexivity.
Qed.

Lemma dict_keys_upsert k init f d :
  dict_keys (upsert k init f d)
  = if dict_has k d then dict_keys d else dict_keys d ++ [k].
Proof.
  unfold upsert, dict_modify, dict_has.
  destruct (dict_get k d) as [v|] eqn:E.
  - rewrite E, dict_keys_set. unfold dict_has. now rewrite E.
  - rewrite dict_get_set_same, !dict_keys_set. unfold dict_has.
    now rewrite dict_get_set_same, E.
Qed.

Lemma NoDup_keys_upsert k init f d :
  NoDup (dict_keys d) -> NoDup (dict_keys (upsert k init f d)).
Proof.
  intros Hnd. rewrite dict_keys_upsert.
  destruct (dict_has k d) eqn:E; auto.
  apply NoDup_app; auto.
  - constructor; [simpl; tauto | constructor].
  - intros x Hx [<-|[]]. apply dict_has_keys in Hx. congruence.
Qed.

(** A sum over the values of a dictionary changes under [upsert] by what
    the updated entry gains. *)
Lemma sum_values_upsert (mu : V -> nat) k init f d :
  mu init = 0%nat ->
  (list_sum (map mu (dict_values (upsert k init f d))) + mu (current k init d)
   = list_sum (map mu (dict_values d)) + mu (f (current k init d)))%nat.
Proof.
  intros Hinit.
  assert (Hset : forall v d0,
    (list_sum (map mu (dict_values (dict_set k v d0))) + mu (current k init d0)
     = list_sum (map mu (dict_values d0)) + mu v)%nat).
  { intros v d0. unfold current, dict_values.
    induction d0 as [|[k0 v0] r IH]; simpl.
    - lia.
    - destruct (String.eqb_spec k0 k); simpl; [lia|].
      unfold dict_values in IH. lia. }
  unfold upsert, dict_modify, dict_has.
  destruct (dict_get k d) as [v|] eqn:E.
  - rewrite E. specialize (Hset (f v) d). unfold current in *. rewrite E in *.
    exact Hset.
  - rewrite dict_get_set_same.
    pose proof (Hset init d) as H1.
    pose proof (Hset (f init) (dict_set k init d)) as H2.
    unfold current in *. rewrite dict_get_set_same in H2. rewrite E in *. lia.
Qed.

End DictFacts.

Section SortFacts.
Import Js.
Context {A : Type}.
Implicit Types (cmp : A -> A -> number) (l : list A).

Lemma positive_num_of_Z (z : Z) : positive (num_of_Z z) = (0 <? z).
Proof.
  unfold positive, num_of_Z, Qcompare, inject_Z; simpl.
  rewrite Z.mul_1_r. unfold Z.ltb. reflexivity.
Qed.

Lemma positive_neg_num_of_Z (z : Z) : positive (num_neg (num_of_Z z)) = (z <? 0).
Proof.
  unfold positive, num_neg, num_of_Z, Qcompare, inject_Z, Qopp; simpl.
  rewrite Z.mul_1_r. unfold Z.ltb.
  destruct z; reflexivity.
Qed.

Lemma insert_perm cmp (x : A) l : Permutation (x :: l) (insert cmp x l).
Proof.
  induction l as [|y r IH]; simpl; auto.
  destruct (positive (cmp x y)); auto.
  eapply perm_trans; [apply perm_swap|]. now constructor.
Qed.

Lemma sort_perm cmp l : Permutation l (sort cmp l).
Proof.
  induction l as [|x r IH]; simpl; auto.
  eapply perm_trans; [|apply insert_perm]. now constructor.
Qed.

Lemma sort_In cmp l (x : A) : In x (sort cmp l) <-> In x l.
Proof.
  split; apply Permutation_in; [symmetry|]; apply sort_perm.
Qed.

Lemma sort_length cmp l : List.length (sort cmp l) = List.length l.
Proof. symmetry. apply Permutation_length, sort_perm. Qed.

(** A filter that every element of the list passes changes nothing, and a
    sorted list has the elements of the list it was sorted from. *)
Lemma filter_all_true (p : A -> bool) l :
  (forall x, In x l -> p x = true) -> filter p l = l.
Proof.
  induction l as [|x r IH]; simpl; intros Hall; auto.
  rewrite (Hall x) by auto. f_equal. apply IH. auto.
Qed.

Lemma filter_sort_filter cmp (p : A -> bool) l :
  filter p (sort cmp (filter p l)) = sort cmp (filter p l).
Proof.
  apply filter_all_true. intros x Hx.
  apply sort_In in Hx. now apply filter_In in Hx.
Qed.

(** Sorting by an integer key. *)
Section ByKey.
Variable key : A -> Z.
Variable cmp : A -> A -> number.

Lemma insert_sorted_by_key (x : A) l :
  (forall y, In y l -> positive (cmp x y) = (key y <? key x)) ->
  StronglySorted (fun a b => key a <= key b) l ->
  StronglySorted (fun a b => key a <= key b) (insert cmp x l).
Proof.
  induction l as [|y r IH]; simpl; intros Hc Hs.
  - repeat constructor.
  - rewrite (Hc y) by auto.
    inversion Hs as [|? ? Hs' Hall]; subst.
    destruct (Z.ltb_spec (key y) (key x)).
    + constructor.
      * apply IH; auto.
      * rewrite Forall_forall in *. intros z Hz.
        apply (Permutation_in _ (Permutation_sym (insert_perm cmp x r))) in Hz.
        destruct Hz as [<-|Hz]; [lia | auto].
    + constructor; auto.
      constructor; [assumption|].
      rewrite Forall_forall in *. intros z Hz. specialize (Hall z Hz). lia.
Qed.

Lemma sort_sorted_by_key l :
  (forall x y, In x l -> In y l -> positive (cmp x y) = (key y <? key x)) ->
  StronglySorted (fun a b => key a <= key b) (sort cmp l).
Proof.
  induction l as [|x r IH]; simpl; intros Hc.
  - constructor.
  - apply insert_sorted_by_key.
    + intros y Hy. apply Hc; auto. right. now apply sort_In in Hy.
    + apply IH. intros; apply Hc; auto.
Qed.

Lemma sorted_distinct_strict l :
  NoDup (map key l) ->
  StronglySorted (fun a b => key a <= key b) l ->
  StronglySorted (ascending key) l.
Proof.
  induction l as [|x r IH]; simpl; intros Hnd Hs; [constructor|].
  inversion Hnd as [|? ? Hni Hnd']; inversion Hs as [|? ? Hs' Hall]; subst.
  constructor; auto.
  rewrite Forall_forall in *. intros z Hz. unfold ascending.
  specialize (Hall z Hz).
  assert (key x <> key z); [|lia].
  intros Heq. apply Hni. rewrite Heq. now apply in_map.
Qed.

Lemma sort_strict l :
  NoDup (map key l) ->
  (forall x y, In x l -> In y l -> positive (cmp x y) = (key y <? key x)) ->
  StronglySorted (ascending key) (sort cmp l).
Proof.
  intros Hnd Hc. apply sorted_distinct_strict.
  - eapply Permutation_NoDup; [|exact Hnd].
    apply Permutation_map, sort_perm.
  - now apply sort_sorted_by_key.
Qed.
End ByKey.

Lemma StronglySorted_app_snoc (R : A -> A -> Prop) l (x : A) :
  StronglySorted R l -> Forall (fun y => R y x) l -> StronglySorted R (l ++ [x]).
Proof.
  induction l as [|y r IH]; simpl; intros Hs Hall.
  - repeat constructor.
  - inversion Hs; inversion Hall; subst. constructor; auto.
    apply Forall_app. split; auto.
Qed.

Lemma StronglySorted_rev (R : A -> A -> Prop) l :
  StronglySorted R l -> StronglySorted (fun a b => R b a) (rev l).
Proof.
  induction 1 as [|x r Hs IH Hall]; simpl; [constructor|].
  apply StronglySorted_app_snoc; auto.
  apply Forall_rev. exact Hall.
Qed.

(** Two lists with the same elements, both sorted for an order that no two
    elements satisfy in both directions, are the same list. *)
Lemma sorted_perm_unique (R : A -> A -> Prop) l1 l2 :
  (forall a b, R a b -> R b a -> False) ->
  Permutation l1 l2 -> StronglySorted R l1 -> StronglySorted R l2 -> l1 = l2.
Proof.
  intros Hasym. revert l2.
  induction l1 as [|a t1 IH]; intros l2 Hp H1 H2.
  - apply Permutation_nil in Hp. now subst.
  - destruct l2 as [|b t2].
    { apply Permutation_sym, Permutation_nil in Hp. discriminate. }
    inversion H1 as [|? ? H1' Ha]; inversion H2 as [|? ? H2' Hb]; subst.
    assert (a = b) as ->.
    { assert (Hin_a : In a (b :: t2)) by (eapply Permutation_in; [exact Hp|now left]).
      assert (Hin_b : In b (a :: t1))
        by (eapply Permutation_in; [apply Permutation_sym; exact Hp|now left]).
      destruct Hin_a as [Hab|Hin_a]; auto.
      destruct Hin_b as [Hba|Hin_b]; auto.
      rewrite Forall_forall in Ha, Hb.
      exfalso. apply (Hasym a b); auto. }
    f_equal. apply IH; auto. now apply Permutation_cons_inv in Hp.
Qed.

End SortFacts.

Section MoreListFacts.
Context {A B : Type}.

Lemma NoDup_map_filter (key : A -> B) (test : A -> bool) (xs : list A) :
  NoDup (map key xs) -> NoDup (map key (filter test xs)).
Proof.
  induction xs as [|x r IH]; simpl; intros Hnd; auto.
  inversion Hnd as [|? ? Hni Hnd']; subst.
  destruct (test x); simpl; auto.
  constructor; auto.
  intros Hin. apply Hni. apply in_map_iff in Hin as (y & Hy & Hin).
  apply filter_In in Hin. apply in_map_iff. exists y. tauto.
Qed.

Lemma NoDup_map_on (f g : A -> B) (l : list A) :
  (forall x, In x l -> f x = g x) -> NoDup (map f l) -> NoDup (map g l).
Proof.
  intros Heq Hnd. rewrite <- (map_ext_in f g l); auto.
Qed.

Lemma StronglySorted_weaken (R S : A -> A -> Prop) (l : list A) :
  (forall a b, R a b -> S a b) -> StronglySorted R l -> StronglySorted S l.
Proof.
  intros Himp. induction 1 as [|x r Hs IH Hall]; constructor; auto.
  eapply Forall_impl; [|exact Hall]. auto.
Qed.

End MoreListFacts.

(* ===================================================================== *)
(** ** The record normaliser *)
(* ===================================================================== *)

Section Normalizer.
Import Js Business.

Lemma or_str_nonempty (s : option string) (d : string) :
  d <> "" -> or_str s d <> "".
Proof.
  intros Hd. unfold or_str. destruct s as [v|]; auto.
  destruct (String.eqb_spec v ""); auto.
Qed.

(** C8 (as amended). On a raw KISS record that carries its data object
    [normalizeKissRecord] returns, and the record it returns is tagged
    [kiss]; the step is the current screen, and 0 when that is missing; the
    salesperson and client names are never empty, and are ["Unknown"] when
    the raw name is missing or empty; the diagnostics field is the string
    ["{}"]; and [total_steps] is the constant 2, which is positive. On a
    record without data object it throws. *)
Theorem normalizeKissRecord_defaults (k : KissRawRecord) :
  (forall d, data k = Some d ->
     exists r, normalizeKissRecord k = Returned r
       /\ _sessionType r = kiss
       /\ step r = match currentScreen d with Some n => n | None => 0 end
       /\ google_full_name r
          = match salesPersonName d with
            | Some n => if String.eqb n "" then "Unknown" else n
            | None => "Unknown"
            end
       /\ client_name r
          = match prospectName d with
            | Some n => if String.eqb n "" then "Unknown" else n
            | None => "Unknown"
            end
       /\ google_full_name r <> ""
       /\ client_name r <> ""
       /\ diagnostic_answers r = "{}"
       /\ total_steps r = 2
       /\ 0 < total_steps r)
  /\ (data k = None -> normalizeKissRecord k = Thrown TypeError)
  /\ (forall e, normalizeKissRecord k = Thrown e -> data k = None).
Proof.
  unfold normalizeKissRecord. split; [|split].
  - intros d ->. eexists. split; [reflexivity|].
    repeat split; try reflexivity; simpl.
    + apply or_str_nonempty. discriminate.
    + apply or_str_nonempty. discriminate.
  - now intros ->.
  - intros e. now destruct (data k).
Qed.

(** C8 as stated fails: a raw record that comes without its data object
    makes the normaliser throw. *)
Lemma normalizeKissRecord_throws_counterexample :
  normalizeKissRecord Samples.kissWithoutData = Thrown TypeError
  /\ ~ (exists r, normalizeKissRecord Samples.kissWithoutData = Returned r).
Proof.
  split; [reflexivity|]. intros [r Hr]. discriminate Hr.
Qed.

(** The name of a normalised record is never empty. *)
Lemma normalized_named (k : KissRawRecord) (r : BusinessRecord) :
  normalizeKissRecord k = Returned r -> google_full_name r <> "".
Proof.
  unfold normalizeKissRecord. destruct (data k) as [d|]; [|discriminate].
  intros [= <-]. simpl. apply or_str_nonempty. discriminate.
Qed.

End Normalizer.

(* ===================================================================== *)
(** ** Sorting the results by timestamp *)
(* ===================================================================== *)

Section TimestampSort.
Import Js Business ResultsList.
Context `{Host}.

Lemma cmp_timestamp_asc (l : list BusinessRecord) :
  Forall (fun r => timeOf r <> None) l ->
  forall x y, In x l -> In y l ->
    positive (comparator by_timestamp asc x y) = (timeKey y <? timeKey x).
Proof.
  intros Hv x y Hx Hy. rewrite Forall_forall in Hv.
  pose proof (Hv x Hx) as Vx. pose proof (Hv y Hy) as Vy.
  unfold comparator, cmpField, timeKey. unfold timeOf in *.
  destruct (getTime (newDate (timestamp x))) as [a|]; [|congruence].
  destruct (getTime (newDate (timestamp y))) as [b|]; [|congruence].
  unfold time_minus. rewrite positive_num_of_Z.
  destruct (Z.ltb_spec 0 (a - b)); destruct (Z.ltb_spec b a); auto; lia.
Qed.

Lemma cmp_timestamp_desc (l : list BusinessRecord) :
  Forall (fun r => timeOf r <> None) l ->
  forall x y, In x l -> In y l ->
    positive (comparator by_timestamp desc x y) = (- timeKey y <? - timeKey x).
Proof.
  intros Hv x y Hx Hy. rewrite Forall_forall in Hv.
  pose proof (Hv x Hx) as Vx. pose proof (Hv y Hy) as Vy.
  unfold comparator, cmpField, timeKey. unfold timeOf in *.
  destruct (getTime (newDate (timestamp x))) as [a|]; [|congruence].
  destruct (getTime (newDate (timestamp y))) as [b|]; [|congruence].
  unfold time_minus. rewrite positive_neg_num_of_Z.
  destruct (Z.ltb_spec (a - b) 0); destruct (Z.ltb_spec (- b) (- a)); auto; lia.
Qed.

Lemma timeKey_distinct (l : list BusinessRecord) :
  Forall (fun r => timeOf r <> None) l ->
  NoDup (map timeOf l) -> NoDup (map timeKey l).
Proof.
  intros Hv Hnd. apply NoDup_map_NoDup_ForallPairs.
  - intros x y Hx Hy Heq. rewrite Forall_forall in Hv.
    pose proof (Hv x Hx) as Vx. pose proof (Hv y Hy) as Vy.
    unfold timeKey in Heq.
    destruct (timeOf x) as [a|] eqn:Ex; [|congruence].
    destruct (timeOf y) as [b|] eqn:Ey; [|congruence].
    subst b. rewrite <- Ey in Ex.
    clear Vx Vy Ey Hv. revert x y Hx Hy Ex.
    induction l as [|z r IH]; simpl; [tauto|].
    inversion Hnd as [|? ? Hni Hnd']; subst.
    intros x y [->|Hx] [->|Hy] Ex; auto.
    + exfalso. apply Hni. rewrite Ex. now apply in_map.
    + exfalso. apply Hni. rewrite <- Ex. now apply in_map.
  - now apply NoDup_map_inv in Hnd.
Qed.

Lemma sorted_desc_rev_asc (l : list BusinessRecord) :
  Forall (fun r => timeOf r <> None) l ->
  NoDup (map timeOf l) ->
  sorted by_timestamp desc l = rev (sorted by_timestamp asc l).
Proof.
  intros Hv Hnd. pose proof (timeKey_distinct l Hv Hnd) as Hk.
  unfold sorted.
  apply (sorted_perm_unique (fun a b => timeKey b < timeKey a)).
  - intros; lia.
  - eapply perm_trans; [apply Permutation_sym, sort_perm|].
    eapply perm_trans; [apply (sort_perm (comparator by_timestamp asc))|].
    apply Permutation_rev.
  - eapply StronglySorted_weaken;
      [|apply (sort_strict (fun r => - timeKey r))].
    + unfold ascending. intros; lia.
    + apply NoDup_map_NoDup_ForallPairs.
      * intros x y Hx Hy Heq.
        assert (Hxy : timeKey x = timeKey y) by lia.
        clear Heq. revert x y Hx Hy Hxy.
        clear Hv Hnd. induction l as [|z r IH]; simpl; [tauto|].
        simpl in Hk. inversion Hk as [|? ? Hni Hk']; subst.
        intros x y [->|Hx] [->|Hy] E; auto.
        -- exfalso. apply Hni. rewrite E. now apply in_map.
        -- exfalso. apply Hni. rewrite <- E. now apply in_map.
      * now apply NoDup_map_inv in Hnd.
    + now apply cmp_timestamp_desc.
  - apply (StronglySorted_rev (ascending timeKey)).
    apply sort_strict; auto. now apply cmp_timestamp_asc.
Qed.

(** C5 (as amended). For every record list whose timestamps all parse to
    valid dates with pairwise distinct time values, sorting by timestamp in
    descending direction gives exactly the reverse of sorting the same list
    in ascending direction; the same holds for the filtered and sorted
    result under any filter setting. *)
Theorem sort_timestamp_desc_reverses_asc (f : Filters) (results : list BusinessRecord) :
  Forall (fun r => timeOf r <> None) results ->
  NoDup (map timeOf results) ->
  sorted by_timestamp desc results = rev (sorted by_timestamp asc results)
  /\ filteredAndSortedResults f by_timestamp desc results
     = rev (filteredAndSortedResults f by_timestamp asc results).
Proof.
  intros Hv Hnd. split.
  - now apply sorted_desc_rev_asc.
  - unfold filteredAndSortedResults, filtered. apply sorted_desc_rev_asc.
    + rewrite Forall_forall in *. intros r Hr. apply filter_In in Hr. apply Hv, Hr.
    + now apply NoDup_map_filter.
Qed.

End TimestampSort.

(** The hypotheses of C5 hold of the specification's scenario, whose two
    records are then sorted in opposite orders. *)
Lemma sort_timestamp_desc_reverses_asc_witness :
  Forall (fun r => timeOf (H:=RefHost.utc) r <> None) Samples.scenario
  /\ NoDup (map (timeOf (H:=RefHost.utc)) Samples.scenario)
  /\ ResultsList.sorted (H:=RefHost.utc) ResultsList.by_timestamp ResultsList.desc
       Samples.scenario
     = rev (ResultsList.sorted (H:=RefHost.utc) ResultsList.by_timestamp
              ResultsList.asc Samples.scenario).
Proof.
  assert (Hv : Forall (fun r => timeOf (H:=RefHost.utc) r <> None) Samples.scenario).
  { repeat constructor; vm_compute; discriminate. }
  assert (Hnd : NoDup (map (timeOf (H:=RefHost.utc)) Samples.scenario)).
  { vm_compute. repeat constructor; simpl; intuition discriminate. }
  split; [exact Hv|]. split; [exact Hnd|].
  exact (proj1 (@sort_timestamp_desc_reverses_asc RefHost.utc
                  ResultsList.noFilters Samples.scenario Hv Hnd)).
Defined.

(** C5 as stated fails: two records whose timestamp fields are distinct but
    do not parse compare as equal (the comparator returns NaN), so the stable
    sort leaves them in place in both directions. *)
Lemma sort_timestamp_unparsed_counterexample :
  NoDup (map Business.timestamp Samples.unparsed)
  /\ ResultsList.sorted (H:=RefHost.utc) ResultsList.by_timestamp ResultsList.asc
       Samples.unparsed = Samples.unparsed
  /\ ResultsList.sorted (H:=RefHost.utc) ResultsList.by_timestamp ResultsList.desc
       Samples.unparsed = Samples.unparsed
  /\ ResultsList.sorted (H:=RefHost.utc) ResultsList.by_timestamp ResultsList.desc
       Samples.unparsed
     <> rev (ResultsList.sorted (H:=RefHost.utc) ResultsList.by_timestamp
               ResultsList.asc Samples.unparsed).
Proof.
  split; [|split; [|split]].
  - vm_compute. repeat constructor; simpl; intuition discriminate.
  - reflexivity.
  - reflexivity.
  - vm_compute. discriminate.
Qed.

(* ===================================================================== *)
(** ** The filter step *)
(* ===================================================================== *)

Section FilterStep.
Import Js Business ResultsList.
Context `{Host}.

Lemma filter_idempotent {A : Type} (p : A -> bool) (l : list A) :
  filter p (filter p l) = filter p l.
Proof.
  apply filter_all_true. intros x Hx. now apply filter_In in Hx.
Qed.

(** C3. The filter step is a function of the filter controls and the record
    list alone; its output holds exactly the input records that pass the
    test, so it is contained in the input and never longer; filtering the
    output again with the same controls returns it unchanged, and so does
    filtering the filtered and sorted result. *)
Theorem filter_subset_idempotent (f : Filters) (results : list BusinessRecord) :
  (forall r, In r (filtered f results) <-> In r results /\ keep f r = true)
  /\ incl (filtered f results) results
  /\ (List.length (filtered f results) <= List.length results)%nat
  /\ filtered f (filtered f results) = filtered f results
  /\ (forall field dir,
        filtered f (filteredAndSortedResults f field dir results)
        = filteredAndSortedResults f field dir results).
Proof.
  unfold filtered. split; [|split; [|split; [|split]]].
  - intros r. apply filter_In.
  - apply incl_filter.
  - apply filter_length_le.
  - apply filter_idempotent.
  - intros field dir. unfold filteredAndSortedResults, sorted, filtered.
    apply filter_sort_filter.
Qed.

End FilterStep.

(* ===================================================================== *)
(** ** The date-range filters *)
(* ===================================================================== *)

Section DateRange.
Import Js Business.
Context `{Host}.

Lemma between_bool (lo hi : option Z) (t : Z) :
  (negb match lo with Some l => t <? l | None => false end
   && negb match hi with Some h => h <? t | None => false end)%bool = true
  <-> between lo hi t.
Proof.
  unfold between. rewrite andb_true_iff, !negb_true_iff. split.
  - intros [Hl Hh]. split.
    + intros l ->. apply Z.ltb_ge in Hl. exact Hl.
    + intros h ->. apply Z.ltb_ge in Hh. exact Hh.
  - intros [Hl Hh]. split.
    + destruct lo as [l|]; auto. apply Z.ltb_ge. auto.
    + destruct hi as [h|]; auto. apply Z.ltb_ge. auto.
Qed.

Lemma results_keep_valid (r : BusinessRecord) (lo hi : option Z) (t : Z) :
  newDate (timestamp r) = TimeValue t ->
  (ResultsList.keep (resultsRange lo hi) r = true
   <-> between lo (option_map endOfDay hi) t).
Proof.
  intros Ht. rewrite <- between_bool.
  unfold ResultsList.keep, resultsRange; simpl. rewrite Ht.
  destruct lo as [l|], hi as [h|]; simpl;
    repeat match goal with |- context [?a <? ?b] => destruct (a <? b) end;
    simpl; split; congruence.
Qed.

Lemma overview_keep_valid (e : Overview.DataEntry) (lo hi : option Z) (t : Z) :
  Date_parse (Overview.timeCreated e) = TimeValue t ->
  (Overview.keepPathfinder (overviewRange lo hi) e = true
   <-> between (option_map startOfDay lo) (option_map endOfDay hi) t).
Proof.
  intros Ht. rewrite <- between_bool.
  unfold Overview.keepPathfinder, Overview.outsideRange, overviewRange; simpl.
  rewrite Ht.
  destruct lo as [l|], hi as [h|]; simpl;
    repeat match goal with |- context [?a <? ?b] => destruct (a <? b) end;
    simpl; split; congruence.
Qed.

(** C7 (as amended). For a record whose primary timestamp parses to a valid
    date with time value [t], and every selected range: the overview filter
    admits the record exactly when [t] lies between the start of the lower
    boundary's day and the end of the upper boundary's day, inclusively; the
    results-list filter admits it exactly when [t] lies between the lower
    boundary as selected and the end of the upper boundary's day,
    inclusively, which is the same range whenever the selected lower boundary
    is itself a start of day. *)
Theorem date_range_filter_inclusive (r : BusinessRecord) (e : Overview.DataEntry)
  (lo hi : option Z) (t t' : Z) :
  newDate (timestamp r) = TimeValue t ->
  Date_parse (Overview.timeCreated e) = TimeValue t' ->
  (Overview.keepPathfinder (overviewRange lo hi) e = true
   <-> withinRange (TimeValue t') lo hi)
  /\ (ResultsList.keep (resultsRange lo hi) r = true
      <-> between lo (option_map endOfDay hi) t)
  /\ ((forall l, lo = Some l -> startOfDay l = l) ->
      (ResultsList.keep (resultsRange lo hi) r = true
       <-> withinRange (TimeValue t) lo hi)).
Proof.
  intros Hr He. split; [|split].
  - now apply overview_keep_valid.
  - now apply results_keep_valid.
  - intros Hstart. rewrite (results_keep_valid r lo hi t Hr).
    unfold withinRange, between. destruct lo as [l|]; simpl.
    + rewrite (Hstart l eq_refl). tauto.
    + tauto.
Qed.

(** A record whose timestamp does not parse passes every date range, in both
    filters: each comparison with an invalid date is false. *)
Lemma date_range_admits_unparsed (r : BusinessRecord) (e : Overview.DataEntry)
  (lo hi : option Z) :
  newDate (timestamp r) = InvalidDate ->
  Date_parse (Overview.timeCreated e) = InvalidDate ->
  ResultsList.keep (resultsRange lo hi) r = true
  /\ Overview.keepPathfinder (overviewRange lo hi) e = true.
Proof.
  intros Hr He.
  unfold ResultsList.keep, Overview.keepPathfinder, Overview.outsideRange,
    resultsRange, overviewRange; simpl.
  rewrite Hr, He. destruct lo, hi; simpl; auto.
Qed.

End DateRange.

(** C7 at a record and an entry stamped 08:00 on the selected day. *)
Lemma date_range_filter_inclusive_witness :
  Js.newDate (H:=RefHost.utc) (Business.timestamp Samples.morningRecord)
  = Js.TimeValue 1704441600000
  /\ Overview.keepPathfinder (H:=RefHost.utc)
       (overviewRange (Some Samples.jan5) (Some Samples.jan5)) Samples.morningEntry
     = true
  /\ ResultsList.keep (H:=RefHost.utc)
       (resultsRange (Some Samples.jan5) (Some Samples.jan5)) Samples.morningRecord
     = true.
Proof.
  pose proof (@date_range_filter_inclusive RefHost.utc
                Samples.morningRecord Samples.morningEntry
                (Some Samples.jan5) (Some Samples.jan5)
                1704441600000 1704441600000 eq_refl eq_refl) as (Ho & Hr & _).
  split; [reflexivity|]. split.
  - apply Ho. split; intros b [= <-]; vm_compute; discriminate.
  - apply Hr. split; intros b [= <-]; vm_compute; discriminate.
Defined.

(** C7 as stated fails. A record whose timestamp does not parse lies in no
    range, and both filters admit it. And the results list compares against
    the lower boundary as selected: with a lower boundary at noon, a record
    stamped 08:00 that day is rejected, although it lies after the start of
    that day and before its end. *)
Lemma date_range_counterexample :
  ~ (ResultsList.keep (H:=RefHost.utc)
       (resultsRange (Some Samples.jan5) (Some Samples.jan5)) Samples.undatedRecord
     = true
     <-> withinRange (H:=RefHost.utc)
           (Js.newDate (H:=RefHost.utc) (Business.timestamp Samples.undatedRecord))
           (Some Samples.jan5) (Some Samples.jan5))
  /\ ~ (Overview.keepPathfinder (H:=RefHost.utc)
          (overviewRange (Some Samples.jan5) (Some Samples.jan5)) Samples.undatedEntry
        = true
        <-> withinRange (H:=RefHost.utc)
              (Js.Date_parse (Host:=RefHost.utc)
                 (Overview.timeCreated Samples.undatedEntry))
              (Some Samples.jan5) (Some Samples.jan5))
  /\ ~ (ResultsList.keep (H:=RefHost.utc)
          (resultsRange (Some Samples.jan5noon) (Some Samples.jan5noon))
          Samples.morningRecord
        = true
        <-> withinRange (H:=RefHost.utc)
              (Js.newDate (H:=RefHost.utc) (Business.timestamp Samples.morningRecord))
              (Some Samples.jan5noon) (Some Samples.jan5noon)).
Proof.
  split; [|split].
  - intros [Hadmit _]. apply Hadmit. reflexivity.
  - intros [Hadmit _]. apply Hadmit. reflexivity.
  - intros [_ Hreject].
    assert (Hkeep : ResultsList.keep (H:=RefHost.utc)
                      (resultsRange (Some Samples.jan5noon) (Some Samples.jan5noon))
                      Samples.morningRecord = true).
    { apply Hreject. split; intros b [= <-]; vm_compute; discriminate. }
    vm_compute in Hkeep. discriminate.
Qed.

(* ===================================================================== *)
(** ** Pagination *)
(* ===================================================================== *)

Section Pagination.
Import Js ResultsList.
Context {A : Type}.
Implicit Types (shown : list A).

Lemma ceil_div_bounds (n : Z) :
  ITEMS_PER_PAGE * (ceil_div n ITEMS_PER_PAGE - 1) < n
  <= ITEMS_PER_PAGE * ceil_div n ITEMS_PER_PAGE.
Proof.
  unfold ceil_div, ITEMS_PER_PAGE.
  pose proof (Z.div_mod (- n) 50 ltac:(lia)) as Hdm.
  pose proof (Z.mod_pos_bound (- n) 50 ltac:(lia)) as Hb.
  lia.
Qed.

Lemma firstn_plus (a b : nat) (l : list A) :
  firstn (a + b) l = firstn a l ++ firstn b (skipn a l).
Proof.
  revert l. induction a as [|a IH]; intros l; simpl; auto.
  destruct l as [|x r]; simpl.
  - now rewrite firstn_nil.
  - now rewrite IH.
Qed.

(** Consecutive chunks of [k] items concatenate to a prefix. *)
Lemma concat_chunks (k m : nat) (l : list A) :
  List.concat (map (fun i => firstn k (skipn (i * k) l)) (seq 0 m)) = firstn (m * k) l.
Proof.
  induction m as [|m IH].
  - reflexivity.
  - rewrite seq_S, map_app, concat_app, IH. simpl.
    rewrite app_nil_r. rewrite <- firstn_plus. f_equal. lia.
Qed.

(** The slice of page [p] is the chunk of 50 items that starts at item
    [(p - 1) * 50]. *)
Lemma paginated_chunk shown (p : Z) :
  1 <= p ->
  paginatedResults shown p
  = firstn 50 (skipn (Z.to_nat ((p - 1) * ITEMS_PER_PAGE)) shown).
Proof.
  intros Hp. unfold paginatedResults, slice, rel_index, ITEMS_PER_PAGE.
  set (len := Z.of_nat (List.length shown)).
  set (s := (p - 1) * 50).
  assert (Hs : 0 <= s) by (unfold s; lia).
  assert (Hlen : 0 <= len) by (unfold len; lia).
  destruct (Z.ltb_spec s 0); [lia|].
  destruct (Z.ltb_spec (s + 50) 0); [lia|].
  destruct (Z.le_gt_cases s len) as [Hle|Hgt].
  - rewrite (Z.min_l s len) by lia.
    destruct (Z.le_gt_cases (s + 50) len) as [Hle2|Hgt2].
    + rewrite Z.min_l by lia. f_equal. lia.
    + rewrite Z.min_r by lia.
      assert (Hsk : List.length (skipn (Z.to_nat s) shown) = Z.to_nat (len - s)).
      { rewrite length_skipn. unfold len. lia. }
      rewrite <- Hsk, firstn_all. symmetry. apply firstn_all2. lia.
  - rewrite !Z.min_r by lia. rewrite Z.sub_diag.
    change (Z.to_nat 0) with 0%nat. rewrite firstn_O.
    rewrite (skipn_all2 (n := Z.to_nat s)) by (unfold len in *; lia).
    now rewrite firstn_nil.
Qed.

Lemma totalPages_pos shown : 1 <= totalPages shown.
Proof. unfold totalPages. lia. Qed.

Lemma totalPages_covers shown :
  Z.of_nat (List.length shown) <= totalPages shown * ITEMS_PER_PAGE.
Proof.
  unfold totalPages.
  pose proof (ceil_div_bounds (Z.of_nat (List.length shown))).
  unfold ITEMS_PER_PAGE in *. lia.
Qed.

Lemma pages_chunks shown :
  pages shown
  = map (fun i => firstn 50 (skipn (i * 50) shown))
        (seq 0 (Z.to_nat (totalPages shown))).
Proof.
  unfold pages, pageNumbers. rewrite map_map. apply map_ext.
  intros i. rewrite paginated_chunk by lia. f_equal. f_equal.
  unfold ITEMS_PER_PAGE. lia.
Qed.

Lemma pages_concat shown : List.concat (pages shown) = shown.
Proof.
  rewrite pages_chunks, concat_chunks.
  apply firstn_all2.
  pose proof (totalPages_covers shown). pose proof (totalPages_pos shown).
  unfold ITEMS_PER_PAGE in *. lia.
Qed.

Lemma last_page_length shown :
  0 < Z.of_nat (List.length shown) ->
  (1 <= List.length (paginatedResults shown (totalPages shown)) <= 50)%nat.
Proof.
  intros Hn. pose proof (totalPages_pos shown) as Hp.
  rewrite paginated_chunk by assumption.
  rewrite length_firstn, length_skipn.
  unfold totalPages in *.
  pose proof (ceil_div_bounds (Z.of_nat (List.length shown))) as Hc.
  unfold ITEMS_PER_PAGE in *.
  assert (Hmax : Z.max 1 (ceil_div (Z.of_nat (List.length shown)) 50)
                 = ceil_div (Z.of_nat (List.length shown)) 50) by lia.
  rewrite Hmax. lia.
Qed.

(** C4. With the page size fixed at 50: the number of pages is
    [ceil(count / 50)], and 1 when that is 0; the slices of pages
    1 .. totalPages, laid end to end, are the list itself, item [j] of page
    [p] being item [(p - 1) * 50 + j] of the list, so that no item falls in
    two pages and the page sizes add up to the count; the last page holds
    between 1 and 50 items when the list is not empty; and the empty list
    has exactly one page, which is empty. *)
Theorem pagination_partitions shown :
  totalPages shown
  = Z.max 1 (ceil_div (Z.of_nat (List.length shown)) ITEMS_PER_PAGE)
  /\ ITEMS_PER_PAGE * (ceil_div (Z.of_nat (List.length shown)) ITEMS_PER_PAGE - 1)
     < Z.of_nat (List.length shown)
     <= ITEMS_PER_PAGE * ceil_div (Z.of_nat (List.length shown)) ITEMS_PER_PAGE
  /\ List.length (pages shown) = Z.to_nat (totalPages shown)
  /\ List.concat (pages shown) = shown
  /\ list_sum (map (@List.length A) (pages shown)) = List.length shown
  /\ (forall (p : Z) (j : nat), 1 <= p ->
        nth_error (paginatedResults shown p) j
        = if Nat.ltb j 50
          then nth_error shown (Z.to_nat ((p - 1) * ITEMS_PER_PAGE) + j)
          else None)
  /\ (forall (p q : Z) (j j' : nat), 1 <= p -> 1 <= q ->
        (j < 50)%nat -> (j' < 50)%nat ->
        (Z.to_nat ((p - 1) * ITEMS_PER_PAGE) + j
         = Z.to_nat ((q - 1) * ITEMS_PER_PAGE) + j')%nat ->
        p = q /\ j = j')
  /\ (0 < Z.of_nat (List.length shown) ->
        (1 <= List.length (paginatedResults shown (totalPages shown)) <= 50)%nat)
  /\ (shown = [] -> totalPages shown = 1 /\ pages shown = [[]]).
Proof.
  split; [reflexivity|].
  split; [apply ceil_div_bounds|].
  split.
  { unfold pages, pageNumbers. now rewrite !length_map, length_seq. }
  split; [apply pages_concat|].
  split.
  { rewrite <- length_concat. now rewrite pages_concat. }
  split.
  { intros p j Hp. rewrite paginated_chunk by assumption.
    rewrite nth_error_firstn. destruct (Nat.ltb j 50); auto.
    apply nth_error_skipn. }
  split.
  { unfold ITEMS_PER_PAGE. intros p q j j' Hp Hq Hj Hj' Heq. lia. }
  split; [apply last_page_length|].
  intros ->. split; reflexivity.
Qed.

End Pagination.

(* ===================================================================== *)
(** ** The product distribution *)
(* ===================================================================== *)

Section ProductDistribution.
Import Js Overview.
Implicit Types (data : list DataEntry) (e : DataEntry) (p : string).

Lemma countOf_cons p e data :
  countOf p (e :: data) = (indicator (hasProduct p e) + countOf p data)%nat.
Proof. unfold countOf; simpl. now destruct (hasProduct p e). Qed.

Lemma countOf_app p data data' :
  countOf p (data ++ data') = (countOf p data + countOf p data')%nat.
Proof. unfold countOf. now rewrite filter_app, length_app. Qed.

Lemma countProduct_step (a b c : nat) e :
  countProduct [("Lead Gen", a); ("Local SEO", b); ("LSA", c)] e
  = [("Lead Gen", (a + indicator (hasProduct "Lead Gen" e))%nat);
     ("Local SEO", (b + indicator (hasProduct "Local SEO" e))%nat);
     ("LSA", (c + indicator (hasProduct "LSA" e))%nat)].
Proof.
  unfold countProduct, hasProduct.
  destruct (product e) as [q|]; [|cbn [indicator]; now rewrite !Nat.add_0_r].
  unfold dict_has, dict_modify; cbn [dict_get dict_set].
  destruct (String.eqb_spec "Lead Gen" q) as [E1|N1];
    destruct (String.eqb_spec "Local SEO" q) as [E2|N2];
    destruct (String.eqb_spec "LSA" q) as [E3|N3];
    try congruence;
    cbn [dict_get dict_set indicator];
    rewrite ?Nat.add_0_r, ?Nat.add_1_r; reflexivity.
Qed.

Lemma distribution_from (a b c : nat) data :
  fold_left countProduct data [("Lead Gen", a); ("Local SEO", b); ("LSA", c)]
  = [("Lead Gen", (a + countOf "Lead Gen" data)%nat);
     ("Local SEO", (b + countOf "Local SEO" data)%nat);
     ("LSA", (c + countOf "LSA" data)%nat)].
Proof.
  revert a b c. induction data as [|e r IH]; intros a b c.
  - unfold countOf; simpl. now rewrite !Nat.add_0_r.
  - cbn [fold_left]. rewrite countProduct_step, IH, !countOf_cons.
    now rewrite !Nat.add_assoc.
Qed.

(** The distribution object after the loop: one counter per product. *)
Lemma distributionOf_counts data :
  distributionOf data
  = [("Lead Gen", countOf "Lead Gen" data);
     ("Local SEO", countOf "Local SEO" data);
     ("LSA", countOf "LSA" data)].
Proof. unfold distributionOf, emptyDistribution. apply distribution_from. Qed.

Lemma bucketCount_counts p data :
  bucketCount p (calculateProductDistribution data)
  = if String.eqb "Lead Gen" p then countOf "Lead Gen" data
    else if String.eqb "Local SEO" p then countOf "Local SEO" data
    else if String.eqb "LSA" p then countOf "LSA" data
    else 0%nat.
Proof.
  unfold calculateProductDistribution. rewrite distributionOf_counts.
  unfold bucketCount.
  destruct (countOf "Lead Gen" data), (countOf "Local SEO" data),
    (countOf "LSA" data);
    cbn [filter map find snd fst Nat.ltb Nat.leb entryName value];
    destruct (String.eqb_spec "Lead Gen" p) as [E1|N1];
    destruct (String.eqb_spec "Local SEO" p) as [E2|N2];
    destruct (String.eqb_spec "LSA" p) as [E3|N3];
    try congruence; reflexivity.
Qed.

Lemma names_cases p :
  In p productNames <-> p = "Lead Gen" \/ p = "Local SEO" \/ p = "LSA".
Proof. simpl. intuition congruence. Qed.

Lemma recognised_count e :
  indicator (recognised e)
  = (indicator (hasProduct "Lead Gen" e) + indicator (hasProduct "Local SEO" e)
     + indicator (hasProduct "LSA" e))%nat.
Proof.
  unfold recognised, hasProduct, productNames, emptyDistribution.
  cbn [dict_keys map fst existsb].
  destruct (product e) as [q|]; auto.
  destruct (String.eqb_spec "Lead Gen" q) as [E1|N1];
    destruct (String.eqb_spec "Local SEO" q) as [E2|N2];
    destruct (String.eqb_spec "LSA" q) as [E3|N3];
    try congruence; reflexivity.
Qed.

Lemma recognised_total data :
  List.length (filter recognised data)
  = (countOf "Lead Gen" data + countOf "Local SEO" data + countOf "LSA" data)%nat.
Proof.
  induction data as [|e r IH]; auto.
  rewrite !countOf_cons. pose proof (recognised_count e) as He.
  simpl. destruct (recognised e); simpl in *; lia.
Qed.

Lemma countOf_recognised p data :
  In p productNames -> countOf p (filter recognised data) = countOf p data.
Proof.
  intros Hp. unfold countOf. induction data as [|e r IH]; auto.
  simpl. destruct (recognised e) eqn:Er; simpl.
  - destruct (hasProduct p e); simpl; auto.
  - destruct (hasProduct p e) eqn:Ep; auto.
    exfalso. unfold recognised in Er.
    assert (existsb (fun q => hasProduct q e) productNames = true); [|congruence].
    apply existsb_exists. eauto.
Qed.


(** C10. For every product, the count the combined distribution shows is
    the count of the Pathfinder distribution plus the count of the KISS
    distribution, a discarded bucket counting as 0. *)
Theorem combined_distribution_adds (filteredPathfinder filteredKiss : list DataEntry)
  (p : string) :
  bucketCount p
    (calculateProductDistribution (combinedData filteredPathfinder filteredKiss))
  = (bucketCount p (calculateProductDistribution filteredPathfinder)
     + bucketCount p (calculateProductDistribution filteredKiss))%nat.
Proof.
  unfold combinedData. rewrite !bucketCount_counts, !countOf_app.
  destruct (String.eqb "Lead Gen" p); auto.
  destruct (String.eqb "Local SEO" p); auto.
  destruct (String.eqb "LSA" p); auto.
Qed.

End ProductDistribution.

(* ===================================================================== *)
(** ** Grouping records by a name *)
(* ===================================================================== *)

Section GroupFold.
Import Js.
Context {R V : Type}.
Variable key : R -> string.
Variable guard : R -> bool.
Variable init : string -> V.
Variable f : R -> V -> V.

Local Abbreviation step := (groupStep key guard init f).
Local Abbreviation member := (joins key guard).
Local Abbreviation group := (groupValue key guard init f).

Lemma groupStep_get (m : Dict V) (r : R) (k : string) :
  dict_get k (step m r)
  = if member k r then Some (f r (current k (init k) m)) else dict_get k m.
Proof.
  unfold groupStep, joins. destruct (guard r); cbn [andb]; auto.
  destruct (String.eqb_spec (key r) k) as [<-|Hne].
  - apply dict_get_upsert_same.
  - now apply dict_get_upsert_other.
Qed.

Lemma group_get_from (l : list R) (m : Dict V) (k : string) :
  dict_get k (fold_left step l m)
  = match dict_get k m with
    | Some v => Some (absorb f (filter (member k) l) v)
    | None => if existsb (member k) l then Some (group k l) else None
    end.
Proof.
  revert m. induction l as [|r l IH]; intros m.
  - simpl. now destruct (dict_get k m).
  - cbn [fold_left filter existsb]. rewrite IH, groupStep_get.
    unfold groupValue, current. cbn [filter].
    destruct (member k r); cbn [orb]; destruct (dict_get k m); reflexivity.
Qed.

Lemma group_get (l : list R) (k : string) :
  dict_get k (fold_left step l [])
  = if existsb (member k) l then Some (group k l) else None.
Proof. now rewrite group_get_from. Qed.

Lemma group_keys_nodup (l : list R) :
  NoDup (dict_keys (fold_left step l [])).
Proof.
  assert (Hgen : forall m, NoDup (dict_keys m) ->
                           NoDup (dict_keys (fold_left step l m))).
  { induction l as [|r l IH]; intros m Hm; auto.
    cbn [fold_left]. apply IH. unfold groupStep.
    destruct (guard r); auto. now apply NoDup_keys_upsert. }
  apply Hgen. constructor.
Qed.

Lemma group_entries (l : list R) (k : string) (v : V) :
  In (k, v) (fold_left step l [])
  <-> existsb (member k) l = true /\ v = group k l.
Proof.
  split.
  - intros Hin. apply dict_In_get in Hin; [|apply group_keys_nodup].
    rewrite group_get in Hin. destruct (existsb (member k) l); [|discriminate].
    injection Hin as <-. auto.
  - intros [Hex ->]. apply dict_get_In. rewrite group_get. now rewrite Hex.
Qed.

(** Sums over the groups. When each record adds one to a measure of its
    group, the measure summed over all groups counts the guarded records. *)
Lemma group_sum_counts (mu : V -> nat) (l : list R) :
  (forall k, mu (init k) = 0%nat) ->
  (forall r v, mu (f r v) = S (mu v)) ->
  list_sum (map mu (dict_values (fold_left step l [])))
  = List.length (filter guard l).
Proof.
  intros Hinit Hstep.
  assert (Hgen : forall m,
    list_sum (map mu (dict_values (fold_left step l m)))
    = (list_sum (map mu (dict_values m)) + List.length (filter guard l))%nat).
  { induction l as [|r l IH]; intros m; cbn [fold_left filter].
    - simpl. lia.
    - rewrite IH. unfold groupStep. destruct (guard r); [|reflexivity].
      pose proof (sum_values_upsert mu (key r) (init (key r)) (f r) m
                    (Hinit (key r))) as Hs.
      rewrite Hstep in Hs. simpl. lia. }
  rewrite Hgen. reflexivity.
Qed.

(** When a record adds its weight to a measure of its group, the measure
    summed over all groups is the weight of the guarded records. *)
Lemma group_sum_weights (mu : V -> nat) (weight : R -> nat) (l : list R) :
  (forall k, mu (init k) = 0%nat) ->
  (forall r v, mu (f r v) = (weight r + mu v)%nat) ->
  list_sum (map mu (dict_values (fold_left step l [])))
  = list_sum (map weight (filter guard l)).
Proof.
  intros Hinit Hstep.
  assert (Hgen : forall m,
    list_sum (map mu (dict_values (fold_left step l m)))
    = (list_sum (map mu (dict_values m))
       + list_sum (map weight (filter guard l)))%nat).
  { induction l as [|r l IH]; intros m; cbn [fold_left filter].
    - simpl. lia.
    - rewrite IH. unfold groupStep. destruct (guard r); [|reflexivity].
      pose proof (sum_values_upsert mu (key r) (init (key r)) (f r) m
                    (Hinit (key r))) as Hs.
      rewrite Hstep in Hs. simpl. lia. }
  rewrite Hgen. reflexivity.
Qed.

End GroupFold.

(** On a plain object the loop forms the groups of the names the object
    does not inherit. *)
Lemma object_fold {R V : Type} (key : R -> string) (guard : R -> bool)
  (init : string -> V) (f : R -> V -> V) (l : list R) (m : Js.Dict V) :
  (forall k, Js.inherited k = true -> Js.dict_get k m = None) ->
  fold_left (objectStep key guard init f) l m
  = fold_left (groupStep key (fun r => (guard r && negb (Js.inherited (key r)))%bool)
                 init f) l m.
Proof.
  revert m. induction l as [|r l IH]; intros m Hm; auto.
  cbn [fold_left]. unfold objectStep at 2, groupStep at 2.
  destruct (guard r); cbn [andb]; [|now apply IH].
  unfold Js.object_upsert, Js.object_truthy.
  destruct (Js.inherited (key r)) eqn:Ei; cbn [negb].
  - rewrite orb_true_r. unfold Js.dict_modify. rewrite (Hm _ Ei). now apply IH.
  - rewrite orb_false_r. apply IH. intros k Hk.
    rewrite dict_get_upsert_other; [now apply Hm|]. congruence.
Qed.

Lemma fold_left_same_step {S T : Type} (g h : S -> T -> S) (l : list T) (s : S) :
  (forall a b, g a b = h a b) -> fold_left g l s = fold_left h l s.
Proof.
  intros Hgh. revert s. induction l as [|x r IH]; intros s; simpl; auto.
  now rewrite Hgh, IH.
Qed.

(** Counting with a test that splits in two exclusive tests. *)
Lemma filter_length_split {T : Type} (p q : T -> bool) (l : list T) :
  (forall x, In x l -> p x = true -> q x = true -> False) ->
  List.length (filter (fun x => (p x || q x)%bool) l)
  = (List.length (filter p l) + List.length (filter q l))%nat.
Proof.
  induction l as [|x r IH]; intros Hex; auto.
  simpl.
  assert (Hr : forall y, In y r -> p y = true -> q y = true -> False)
    by (intros y Hy; apply Hex; now right).
  specialize (IH Hr).
  destruct (p x) eqn:Ep, (q x) eqn:Eq; simpl; try lia.
  exfalso. apply (Hex x); auto. now left.
Qed.

(* ===================================================================== *)
(** ** The sessions of a salesperson *)
(* ===================================================================== *)

Section Salespeople.
Import Js Business.
Implicit Types (l : list BusinessRecord) (s : BusinessRecord) (n : string).

Lemma truthy_nonempty n : truthy n = true <-> n <> "".
Proof.
  unfold truthy. destruct (String.eqb_spec n ""); simpl; split; congruence.
Qed.

Lemma joins_named n l :
  n <> "" -> filter (joins google_full_name named n) l = sessionsOf n l.
Proof.
  intros Hn. unfold sessionsOf. apply filter_ext. intros s.
  unfold joins, named. destruct (String.eqb_spec (google_full_name s) n) as [->|?].
  - rewrite (proj2 (truthy_nonempty n) Hn). reflexivity.
  - apply andb_false_r.
Qed.

Lemma joins_exists n l :
  existsb (joins google_full_name named n) l = true
  <-> n <> "" /\ exists s, In s l /\ google_full_name s = n.
Proof.
  rewrite existsb_exists. unfold joins, named. split.
  - intros (s & Hin & Hj). apply andb_true_iff in Hj as [Ht He].
    apply String.eqb_eq in He. subst n. split.
    + now apply truthy_nonempty.
    + eauto.
  - intros (Hn & s & Hin & <-). exists s. split; auto.
    apply andb_true_iff. split.
    + now apply truthy_nonempty.
    + apply String.eqb_refl.
Qed.

Lemma sessionsOf_nonempty n l :
  (exists s, In s l /\ google_full_name s = n) <-> sessionsOf n l <> [].
Proof.
  unfold sessionsOf. split.
  - intros (s & Hin & <-) Hnil.
    assert (Hs : In s (filter (fun s0 => String.eqb (google_full_name s0)
                                           (google_full_name s)) l)).
    { apply filter_In. split; auto. apply String.eqb_refl. }
    rewrite Hnil in Hs. exact Hs.
  - intros Hne.
    destruct (filter (fun s => String.eqb (google_full_name s) n) l) as [|s r] eqn:E;
      [congruence|].
    assert (Hs : In s (s :: r)) by now left.
    rewrite <- E in Hs. apply filter_In in Hs as [Hin He].
    apply String.eqb_eq in He. eauto.
Qed.

Lemma type_split (rs : list BusinessRecord) :
  List.length rs
  = (List.length (filter (ofType pathfinder) rs)
     + List.length (filter (ofType kiss) rs))%nat.
Proof.
  induction rs as [|s r IH]; auto.
  unfold ofType in *. simpl. destruct (_sessionType s); simpl; lia.
Qed.

Lemma countOfType_positive t n l :
  (0 < countOfType t n l)%nat -> exists s, In s l /\ google_full_name s = n.
Proof.
  unfold countOfType. intros Hpos. apply sessionsOf_nonempty.
  intros Hnil. rewrite Hnil in Hpos. simpl in Hpos. lia.
Qed.

End Salespeople.

(* ===================================================================== *)
(** ** The leaderboard aggregation *)
(* ===================================================================== *)

Section LeaderboardFacts.
Import Js Business SalesLeaderboard.
Implicit Types (sessions : list BusinessRecord) (s : BusinessRecord) (n : string)
  (st g : SalespersonStats).

Lemma statsMap_groups sessions :
  statsMap sessions
  = fold_left (groupStep google_full_name named newStats addSession) sessions [].
Proof.
  unfold statsMap. apply fold_left_same_step. intros m s.
  unfold collect, groupStep, named, upsert. now destruct (truthy (google_full_name s)).
Qed.

Lemma absorb_addSession (rs : list BusinessRecord) st :
  name (absorb addSession rs st) = name st
  /\ pathfinderSessions (absorb addSession rs st)
     = pathfinderSessions st ++ filter (ofType pathfinder) rs
  /\ kissSessions (absorb addSession rs st)
     = kissSessions st ++ filter (ofType kiss) rs
  /\ totalSessions (absorb addSession rs st)
     = (totalSessions st + List.length rs)%nat
  /\ completedSessions (absorb addSession rs st)
     = (completedSessions st + List.length (filter reached rs))%nat.
Proof.
  revert st. induction rs as [|s r IH]; intros st.
  - simpl. rewrite !app_nil_r. repeat split; lia.
  - unfold absorb in *. cbn [fold_left].
    destruct (IH (addSession s st)) as (Hn & Hp & Hk & Ht & Hc).
    rewrite Hn, Hp, Hk, Ht, Hc. unfold addSession, ofType, reached; simpl.
    destruct (_sessionType s); simpl; rewrite <- ?app_assoc; simpl;
      destruct (total_steps s <=? step s); simpl; repeat split; lia.
Qed.

(** What the first loop leaves under each key of [statsMap]. *)
Lemma statsMap_entry sessions n st :
  In (n, st) (statsMap sessions) ->
  n <> ""
  /\ (exists s, In s sessions /\ google_full_name s = n)
  /\ name st = n
  /\ pathfinderSessions st = filter (ofType pathfinder) (sessionsOf n sessions)
  /\ kissSessions st = filter (ofType kiss) (sessionsOf n sessions)
  /\ totalSessions st = List.length (sessionsOf n sessions)
  /\ completedSessions st = List.length (filter reached (sessionsOf n sessions)).
Proof.
  rewrite statsMap_groups. intros Hin.
  apply group_entries in Hin as [Hex ->].
  apply joins_exists in Hex as [Hn Hs].
  unfold groupValue. rewrite (joins_named n sessions Hn).
  destruct (absorb_addSession (sessionsOf n sessions) (newStats n))
    as (H1 & H2 & H3 & H4 & H5).
  rewrite H1, H2, H3, H4, H5. simpl. auto 10.
Qed.

Lemma statsMap_has sessions n :
  n <> "" -> (exists s, In s sessions /\ google_full_name s = n) ->
  exists st, In (n, st) (statsMap sessions).
Proof.
  intros Hn Hs. rewrite statsMap_groups.
  exists (groupValue google_full_name named newStats addSession n sessions).
  apply group_entries. split; auto. apply joins_exists. auto.
Qed.

Lemma groups_names sessions :
  map name (groups sessions) = dict_keys (statsMap sessions).
Proof.
  unfold groups, dict_values, dict_keys. rewrite !map_map.
  apply map_ext_in. intros [n st] Hin.
  apply statsMap_entry in Hin. simpl. tauto.
Qed.

Lemma groups_names_nodup sessions : NoDup (map name (groups sessions)).
Proof.
  rewrite groups_names, statsMap_groups. apply group_keys_nodup.
Qed.

(** What each group holds. *)
Lemma groups_entry sessions g :
  In g (groups sessions) ->
  name g <> ""
  /\ (exists s, In s sessions /\ google_full_name s = name g)
  /\ pathfinderSessions g = filter (ofType pathfinder) (sessionsOf (name g) sessions)
  /\ kissSessions g = filter (ofType kiss) (sessionsOf (name g) sessions)
  /\ totalSessions g = List.length (sessionsOf (name g) sessions)
  /\ completedSessions g
     = List.length (filter reached (sessionsOf (name g) sessions)).
Proof.
  unfold groups, dict_values. rewrite map_map. intros Hin.
  apply in_map_iff in Hin as ([n st] & <- & Hin).
  apply statsMap_entry in Hin as (Hn & Hs & Hname & Hp & Hk & Ht & Hc).
  simpl. rewrite Hname. auto 10.
Qed.

Lemma groups_has sessions n :
  n <> "" -> (exists s, In s sessions /\ google_full_name s = n) ->
  exists g, In g (groups sessions) /\ name g = n.
Proof.
  intros Hn Hs. destruct (statsMap_has sessions n Hn Hs) as [st Hin].
  exists (average st). split.
  - unfold groups, dict_values. rewrite map_map.
    apply in_map_iff. exists (n, st). auto.
  - apply statsMap_entry in Hin. simpl. tauto.
Qed.

Lemma groups_total sessions :
  list_sum (map totalSessions (groups sessions))
  = List.length (filter named sessions).
Proof.
  unfold groups. rewrite map_map. simpl.
  rewrite statsMap_groups.
  apply (group_sum_counts google_full_name named newStats addSession totalSessions).
  - reflexivity.
  - reflexivity.
Qed.

(** The completed counts of all groups together count the sessions that
    carry a name and reached their last step. *)
Lemma groups_completed sessions :
  list_sum (map completedSessions (groups sessions))
  = List.length (filter (fun s => (named s && reached s)%bool) sessions).
Proof.
  unfold groups. rewrite map_map. simpl. rewrite statsMap_groups.
  rewrite (group_sum_weights google_full_name named newStats addSession
             completedSessions (fun s => indicator (reached s))).
  - clear. induction sessions as [|s r IH]; auto.
    simpl. destruct (named s); simpl; auto.
    destruct (reached s); simpl; lia.
  - reflexivity.
  - intros s st. unfold addSession, reached; simpl.
    now destruct (total_steps s <=? step s).
Qed.

Lemma collect_unnamed (m : Dict SalespersonStats) s :
  named s = false -> collect m s = m.
Proof. unfold collect, named. now intros ->. Qed.

(** The sessions counted by a list of groups with distinct names are the
    sessions of the salespeople the list names. *)
Lemma listed_total sessions (gs : list SalespersonStats) :
  NoDup (map name gs) ->
  (forall g, In g gs -> totalSessions g = List.length (sessionsOf (name g) sessions)) ->
  list_sum (map totalSessions gs) = List.length (filter (listedIn gs) sessions).
Proof.
  induction gs as [|g r IH]; intros Hnd Hall.
  - simpl. clear. induction sessions; auto.
  - inversion Hnd as [|? ? Hni Hnd']; subst.
    change (list_sum (map totalSessions (g :: r)))
      with (totalSessions g + list_sum (map totalSessions r))%nat.
    rewrite IH; auto; [|intros; apply Hall; now right].
    rewrite (Hall g) by now left.
    unfold listedIn at 2. cbn [existsb].
    rewrite filter_length_split; [reflexivity|].
    intros s _ Hg Hr. apply Hni.
    apply String.eqb_eq in Hg. apply existsb_exists in Hr as (g' & Hin & He).
    apply String.eqb_eq in He. rewrite <- Hg, He. now apply in_map.
Qed.

Lemma leaderboardStats_In tf sessions g :
  In g (leaderboardStats tf sessions)
  <-> In g (groups sessions) /\ eligible tf g = true.
Proof.
  unfold leaderboardStats. rewrite sort_In. apply filter_In.
Qed.

Lemma leaderboardStats_nodup tf sessions :
  NoDup (map name (leaderboardStats tf sessions)).
Proof.
  unfold leaderboardStats.
  eapply Permutation_NoDup; [apply Permutation_map, sort_perm|].
  apply NoDup_map_filter, groups_names_nodup.
Qed.

End LeaderboardFacts.

Section LeaderboardClaims.
Import Js Business SalesLeaderboard.

(** C1 (as amended). For the leaderboard aggregation over any filtered
    record set: the groups have distinct, non-empty names; the group of a
    name counts exactly the records that carry that name, so the sum of
    [totalSessions] over all groups the aggregation forms equals the number
    of filtered records that carry a salesperson name; every such record has
    the group of its name, and when every filtered record carries a name (as
    every normalised KISS record does) that sum is the record count; and the
    sum over the groups the leaderboard lists (those that pass the noise
    filter) equals the number of filtered records of the listed salespeople,
    which is at most the number of filtered records. *)
Theorem leaderboard_sessions_accounted (tf : SessionTypeFilter)
  (sessions : list BusinessRecord) :
  list_sum (map totalSessions (groups sessions))
  = List.length (filter named sessions)
  /\ NoDup (map name (groups sessions))
  /\ (forall g, In g (groups sessions) ->
        name g <> ""
        /\ totalSessions g = List.length (sessionsOf (name g) sessions)
        /\ totalSessions g
           = (List.length (pathfinderSessions g) + List.length (kissSessions g))%nat)
  /\ (forall s, In s sessions -> named s = true ->
        exists g, In g (groups sessions) /\ name g = google_full_name s)
  /\ ((forall s, In s sessions -> named s = true) ->
      list_sum (map totalSessions (groups sessions)) = List.length sessions)
  /\ (forall k r, normalizeKissRecord k = Returned r -> named r = true)
  /\ list_sum (map totalSessions (leaderboardStats tf sessions))
     = List.length (filter (listedIn (leaderboardStats tf sessions)) sessions)
  /\ (list_sum (map totalSessions (leaderboardStats tf sessions))
      <= List.length sessions)%nat.
Proof.
  assert (Hlisted :
    list_sum (map totalSessions (leaderboardStats tf sessions))
    = List.length (filter (listedIn (leaderboardStats tf sessions)) sessions)).
  { apply listed_total.
    - apply leaderboardStats_nodup.
    - intros g Hg. apply leaderboardStats_In in Hg as [Hg _].
      apply groups_entry in Hg. tauto. }
  split; [apply groups_total|].
  split; [apply groups_names_nodup|].
  split.
  { intros g Hg. apply groups_entry in Hg as (Hn & _ & Hp & Hk & Ht & _).
    split; [assumption|]. split; [assumption|].
    rewrite Ht, Hp, Hk. apply type_split. }
  split.
  { intros s Hs Hnamed. apply groups_has.
    - now apply truthy_nonempty.
    - eauto. }
  split.
  { intros Hall. rewrite groups_total. f_equal. now apply filter_all_true. }
  split.
  { intros k r Hr. apply truthy_nonempty. now apply (normalized_named k). }
  split; [exact Hlisted|].
  rewrite Hlisted. apply filter_length_le.
Qed.

(** C1 as stated fails: a salesperson with a single KISS session forms a
    group that the noise filter drops, and a session without a salesperson
    name joins no group; either way the sum falls short of the record
    count. *)
Lemma leaderboard_total_counterexample :
  list_sum (map totalSessions (leaderboardStats all Samples.loneKiss))
  <> List.length Samples.loneKiss
  /\ list_sum (map totalSessions (groups Samples.unnamedSession))
     <> List.length Samples.unnamedSession.
Proof.
  split; vm_compute; discriminate.
Qed.

(** C2 (as amended). A record is marked complete exactly when
    [step >= total_steps] in the row of the results table and in the record
    detail view. On the leaderboard that holds of every session that carries
    a salesperson name: the session is in the group of its name and adds one
    to the completed count of that group exactly when
    [step >= total_steps], so the completed count of a group, among all
    groups and among the listed ones, is the number of that salesperson's
    sessions with [step >= total_steps], and the completed counts of all
    groups together count the named sessions with [step >= total_steps]. A
    session without salesperson name is skipped: it changes no group. *)
Theorem completion_iff_step_reached (r : BusinessRecord)
  (tf : SessionTypeFilter) (sessions : list BusinessRecord) :
  (ResultsList.isComplete r = true <-> step r >= total_steps r)
  /\ (BusinessDetail.isComplete r = true <-> step r >= total_steps r)
  /\ (forall st,
        (completedSessions (addSession r st) = S (completedSessions st)
         <-> step r >= total_steps r)
        /\ (completedSessions (addSession r st) = completedSessions st
            <-> ~ step r >= total_steps r))
  /\ (forall g, In g (groups sessions) ->
        completedSessions g
        = List.length (filter (fun s => total_steps s <=? step s)
                              (sessionsOf (name g) sessions)))
  /\ (In r sessions -> named r = true ->
      exists g, In g (groups sessions)
                /\ name g = google_full_name r
                /\ In r (sessionsOf (name g) sessions)
                /\ (In r (filter (fun s => total_steps s <=? step s)
                             (sessionsOf (name g) sessions))
                    <-> step r >= total_steps r))
  /\ list_sum (map completedSessions (groups sessions))
     = List.length (filter (fun s => (named s && (total_steps s <=? step s))%bool)
                           sessions)
  /\ (forall g, In g (leaderboardStats tf sessions) ->
        completedSessions g
        = List.length (filter (fun s => total_steps s <=? step s)
                              (sessionsOf (name g) sessions)))
  /\ (named r = false -> forall m, collect m r = m).
Proof.
  unfold ResultsList.isComplete, BusinessDetail.isComplete.
  split; [|split; [|split; [|split; [|split; [|split; [|split]]]]]].
  - rewrite Z.leb_le. lia.
  - rewrite Z.leb_le. lia.
  - intros st. unfold addSession; simpl.
    destruct (Z.leb_spec (total_steps r) (step r)); split; split; intros; lia.
  - intros g Hg. apply groups_entry in Hg. tauto.
  - intros Hr Hnamed.
    destruct (groups_has sessions (google_full_name r)) as (g & Hg & Hname).
    { now apply truthy_nonempty. }
    { eauto. }
    exists g. split; auto. split; auto.
    assert (Hmine : In r (sessionsOf (name g) sessions)).
    { apply filter_In. split; auto. rewrite Hname. apply String.eqb_refl. }
    split; auto. rewrite filter_In, Z.leb_le. intuition lia.
  - apply groups_completed.
  - intros g Hg. apply leaderboardStats_In in Hg as [Hg _].
    apply groups_entry in Hg. tauto.
  - intros Hnamed m. now apply collect_unnamed.
Qed.

(** C2 as stated fails on the leaderboard: a session without salesperson
    name that reached its last step is marked complete in the results table
    and in the detail view, and is counted as completed in no group. *)
Lemma completion_unnamed_counterexample :
  Forall (fun r => step r >= total_steps r
                   /\ ResultsList.isComplete r = true
                   /\ BusinessDetail.isComplete r = true)
         Samples.unnamedComplete
  /\ Samples.unnamedComplete <> []
  /\ list_sum (map completedSessions (groups Samples.unnamedComplete)) = 0%nat
  /\ groups Samples.unnamedComplete = [].
Proof.
  split; [|split; [discriminate|split; reflexivity]].
  repeat constructor; vm_compute; discriminate.
Qed.

End LeaderboardClaims.

(* ===================================================================== *)
(** ** The eligibility rule *)
(* ===================================================================== *)

Section Eligibility.
Import Js Business.
Implicit Types (n : string).

(** *** The salesperson options of the results list *)

Lemma salesPersonCounts_groups (results : list BusinessRecord) :
  ResultsList.salesPersonCounts results
  = fold_left (groupStep google_full_name counted (fun _ => ResultsList.noCounts)
                 (fun r => ResultsList.countSession (_sessionType r)))
              results [].
Proof.
  unfold ResultsList.salesPersonCounts.
  change ResultsList.countRecord
    with (objectStep google_full_name named (fun _ => ResultsList.noCounts)
            (fun r => ResultsList.countSession (_sessionType r))).
  now rewrite object_fold.
Qed.

Lemma joins_counted n (l : list BusinessRecord) :
  n <> "" -> inherited n = false ->
  filter (joins google_full_name counted n) l = sessionsOf n l.
Proof.
  intros Hn Hi. unfold sessionsOf. apply filter_ext. intros s.
  unfold joins, counted, named.
  destruct (String.eqb_spec (google_full_name s) n) as [->|?].
  - rewrite (proj2 (truthy_nonempty n) Hn), Hi. reflexivity.
  - apply andb_false_r.
Qed.

Lemma joins_counted_exists n (l : list BusinessRecord) :
  existsb (joins google_full_name counted n) l = true
  <-> n <> "" /\ inherited n = false /\ exists s, In s l /\ google_full_name s = n.
Proof.
  rewrite existsb_exists. unfold joins, counted, named. split.
  - intros (s & Hin & Hj). apply andb_true_iff in Hj as [Ht He].
    apply andb_true_iff in Ht as [Ht Hi]. apply negb_true_iff in Hi.
    apply String.eqb_eq in He. subst n. split; [|split]; eauto.
    now apply truthy_nonempty.
  - intros (Hn & Hi & s & Hin & <-). exists s. split; auto.
    rewrite (proj2 (truthy_nonempty _) Hn), Hi. apply String.eqb_refl.
Qed.

Lemma absorb_countSession (rs : list BusinessRecord) (c : ResultsList.Counts) :
  ResultsList.pathfinderCount
    (absorb (fun r => ResultsList.countSession (_sessionType r)) rs c)
  = (ResultsList.pathfinderCount c + List.length (filter (ofType pathfinder) rs))%nat
  /\ ResultsList.kissCount
       (absorb (fun r => ResultsList.countSession (_sessionType r)) rs c)
     = (ResultsList.kissCount c + List.length (filter (ofType kiss) rs))%nat.
Proof.
  revert c. induction rs as [|s r IH]; intros c.
  - simpl. lia.
  - unfold absorb in *. cbn [fold_left].
    destruct (IH (ResultsList.countSession (_sessionType s) c)) as [Hp Hk].
    rewrite Hp, Hk. unfold ResultsList.countSession, ofType; simpl.
    destruct (_sessionType s); simpl; lia.
Qed.

Lemma salesPersonCounts_entry (results : list BusinessRecord) n c :
  In (n, c) (ResultsList.salesPersonCounts results)
  <-> (n <> "" /\ inherited n = false
       /\ exists s, In s results /\ google_full_name s = n)
      /\ c = {| ResultsList.pathfinderCount := countOfType pathfinder n results;
                ResultsList.kissCount := countOfType kiss n results |}.
Proof.
  rewrite salesPersonCounts_groups, group_entries, joins_counted_exists.
  split; intros [Hn Hc]; split; auto; destruct Hn as (Hn & Hi & Hs).
  - subst c. unfold groupValue. rewrite (joins_counted n results Hn Hi).
    destruct (absorb_countSession (sessionsOf n results) ResultsList.noCounts)
      as [Hp Hk].
    destruct (absorb _ _ _) as [a b]. simpl in *. subst. reflexivity.
  - subst c. unfold groupValue. rewrite (joins_counted n results Hn Hi).
    destruct (absorb_countSession (sessionsOf n results) ResultsList.noCounts)
      as [Hp Hk].
    destruct (absorb _ _ _) as [a b]. simpl in *. subst. reflexivity.
Qed.

Lemma sort_strings_In (l : list string) n : In n (sort_strings l) <-> In n l.
Proof. unfold sort_strings. apply sort_In. Qed.

Lemma salesPersons_In (results : list BusinessRecord) n :
  In n (ResultsList.salesPersons results)
  <-> n <> "" /\ inherited n = false
      /\ ((0 < countOfType pathfinder n results)%nat
          \/ (5 < countOfType kiss n results)%nat).
Proof.
  unfold ResultsList.salesPersons. rewrite sort_strings_In, in_map_iff. split.
  - intros ([k c] & Hk & Hin). simpl in Hk. subst k.
    apply filter_In in Hin as [Hin Hel].
    apply salesPersonCounts_entry in Hin as [(Hn & Hi & _) ->].
    split; auto. split; auto.
    unfold ResultsList.eligibleCounts in Hel; simpl in Hel.
    apply orb_true_iff in Hel as [Hel|Hel]; apply Nat.ltb_lt in Hel; auto.
  - intros (Hn & Hi & Hcount).
    exists (n, {| ResultsList.pathfinderCount := countOfType pathfinder n results;
                  ResultsList.kissCount := countOfType kiss n results |}).
    split; auto. apply filter_In. split.
    + apply salesPersonCounts_entry. split; auto. split; auto. split; auto.
      destruct Hcount as [Hc|Hc]; eapply countOfType_positive; [exact Hc|].
      instantiate (1 := kiss). lia.
    + unfold ResultsList.eligibleCounts; simpl. apply orb_true_iff.
      destruct Hcount; [left|right]; now apply Nat.ltb_lt.
Qed.

(** *** The groups the leaderboard lists *)

Section Listed.
Context `{Host}.

Lemma filteredSessions_type (t : SessionType) range (sessions : list BusinessRecord) s :
  In s (SalesLeaderboard.filteredSessions (SalesLeaderboard.only t) range sessions) ->
  _sessionType s = t.
Proof.
  unfold SalesLeaderboard.filteredSessions. intros Hin.
  apply filter_In in Hin as [_ Hk].
  unfold SalesLeaderboard.keepSession in Hk.
  destruct (_sessionType s), t; simpl in Hk; congruence.
Qed.

Lemma countOfType_other (t u : SessionType) n (l : list BusinessRecord) :
  (forall s, In s l -> _sessionType s = t) -> u <> t -> countOfType u n l = 0%nat.
Proof.
  intros Hall Hne. unfold countOfType, sessionsOf.
  rewrite (filter_ext_in (ofType u) (fun _ => false)).
  - now induction (filter _ l).
  - intros s Hs. apply filter_In in Hs as [Hs _].
    unfold ofType. rewrite (Hall s Hs). destruct t, u; simpl; congruence.
Qed.

Lemma leaderboard_In tf range (sessions : list BusinessRecord) n :
  In n (map SalesLeaderboard.name (SalesLeaderboard.leaderboard tf range sessions))
  <-> n <> ""
      /\ ((0 < countOfType pathfinder n
                 (SalesLeaderboard.filteredSessions tf range sessions))%nat
          \/ (5 < countOfType kiss n
                    (SalesLeaderboard.filteredSessions tf range sessions))%nat).
Proof.
  unfold SalesLeaderboard.leaderboard.
  set (fs := SalesLeaderboard.filteredSessions tf range sessions).
  assert (Htype : forall t, tf = SalesLeaderboard.only t ->
                            forall s, In s fs -> _sessionType s = t).
  { intros t -> s. apply filteredSessions_type. }
  rewrite in_map_iff. split.
  - intros (g & <- & Hg). apply leaderboardStats_In in Hg as [Hg Hel].
    apply groups_entry in Hg as (Hn & _ & Hp & Hk & _).
    split; auto. unfold SalesLeaderboard.eligible in Hel.
    rewrite Hp, Hk in Hel. unfold countOfType.
    destruct tf as [|[|]].
    + apply orb_true_iff in Hel as [Hel|Hel]; apply Nat.ltb_lt in Hel; auto.
    + apply Nat.ltb_lt in Hel; auto.
    + apply Nat.ltb_lt in Hel; auto.
  - intros [Hn Hcount].
    assert (Hs : exists s, In s fs /\ google_full_name s = n).
    { destruct Hcount as [Hc|Hc]; eapply countOfType_positive; [exact Hc|].
      instantiate (1 := kiss). lia. }
    destruct (groups_has fs n Hn Hs) as (g & Hg & <-).
    exists g. split; auto. apply leaderboardStats_In. split; auto.
    apply groups_entry in Hg as (_ & _ & Hp & Hk & _).
    unfold SalesLeaderboard.eligible. rewrite Hp, Hk.
    fold (countOfType pathfinder (SalesLeaderboard.name g) fs).
    fold (countOfType kiss (SalesLeaderboard.name g) fs).
    destruct tf as [|[|]].
    + apply orb_true_iff.
      destruct Hcount; [left|right]; now apply Nat.ltb_lt.
    + apply Nat.ltb_lt. destruct Hcount as [Hc|Hc]; auto.
      rewrite (countOfType_other pathfinder kiss) in Hc; [lia| |discriminate].
      now apply Htype.
    + apply Nat.ltb_lt. destruct Hcount as [Hc|Hc]; auto.
      rewrite (countOfType_other kiss pathfinder) in Hc; [lia| |discriminate].
      now apply Htype.
Qed.

End Listed.
End Eligibility.

(* ===================================================================== *)
(** ** The agent options of the overview *)
(* ===================================================================== *)

Section Agents.
Import Js Business Overview.
Implicit Types (n : string) (e : DataEntry).

Local Abbreviation agentLoop :=
  (objectStep (fun te : SessionType * DataEntry => salesPerson (snd te))
     (fun _ => true) (fun _ => noCounts) countTagged).

Lemma fold_left_tagged (t : SessionType) (data : list DataEntry) (m : Dict Counts) :
  fold_left agentLoop (map (pair t) data) m
  = fold_left (match t with
               | pathfinder => countPathfinder
               | kiss => countKiss
               end) data m.
Proof.
  revert m. induction data as [|e r IH]; intros m; auto.
  cbn [map fold_left]. rewrite IH. destruct t; reflexivity.
Qed.

Lemma agentCounts_groups (pathfinderData kissData : list DataEntry) :
  agentCounts pathfinderData kissData
  = fold_left agentStep (tagged pathfinderData kissData) [].
Proof.
  unfold agentCounts, tagged, agentStep.
  pose proof (fold_left_tagged kiss kissData) as Hk.
  pose proof (fold_left_tagged pathfinder pathfinderData) as Hp.
  cbv iota in Hk, Hp. rewrite <- Hk, <- Hp, <- fold_left_app.
  now rewrite object_fold.
Qed.

Lemma absorb_countTagged (rs : list (SessionType * DataEntry)) (c : Counts) :
  pathfinderCount (absorb countTagged rs c)
  = (pathfinderCount c
     + List.length (filter (fun te => SessionType_eqb (fst te) pathfinder) rs))%nat
  /\ kissCount (absorb countTagged rs c)
     = (kissCount c
        + List.length (filter (fun te => SessionType_eqb (fst te) kiss) rs))%nat.
Proof.
  revert c. induction rs as [|[t e] r IH]; intros c.
  - simpl. lia.
  - unfold absorb in *. cbn [fold_left].
    destruct (IH (countTagged (t, e) c)) as [Hp Hk].
    rewrite Hp, Hk. unfold countTagged; simpl.
    destruct t; simpl; lia.
Qed.

Local Abbreviation joinsAgent :=
  (joins (fun te : SessionType * DataEntry => salesPerson (snd te))
     (fun te => negb (inherited (salesPerson (snd te))))).

Lemma tagged_of_agent (t u : SessionType) n (data : list DataEntry) :
  inherited n = false ->
  List.length
    (filter (fun te => SessionType_eqb (fst te) u)
       (filter (joinsAgent n) (map (pair t) data)))
  = if SessionType_eqb t u then List.length (entriesOf n data) else 0%nat.
Proof.
  intros Hi. unfold entriesOf, joins. induction data as [|e r IH]; simpl.
  - now destruct (SessionType_eqb t u).
  - destruct (String.eqb_spec (salesPerson e) n) as [->|Hne].
    + rewrite Hi. simpl. destruct (SessionType_eqb t u); simpl; auto.
    + rewrite andb_false_r. exact IH.
Qed.

Lemma agent_joins n (l : list (SessionType * DataEntry)) :
  existsb (joinsAgent n) l = true ->
  inherited n = false.
Proof.
  intros Hex. apply existsb_exists in Hex as (te & _ & Hj).
  unfold joins in Hj. apply andb_true_iff in Hj as [Hi He].
  apply String.eqb_eq in He. subst n. now apply negb_true_iff.
Qed.

Lemma agentCounts_entry (pathfinderData kissData : list DataEntry) n c :
  In (n, c) (agentCounts pathfinderData kissData) ->
  inherited n = false
  /\ pathfinderCount c = List.length (entriesOf n pathfinderData)
  /\ kissCount c = List.length (entriesOf n kissData).
Proof.
  rewrite agentCounts_groups. unfold agentStep. rewrite group_entries.
  intros [Hex ->]. pose proof (agent_joins _ _ Hex) as Hi. split; auto.
  unfold groupValue.
  destruct (absorb_countTagged
              (filter (joinsAgent n) (tagged pathfinderData kissData)) noCounts)
    as [Hp Hk].
  rewrite Hp, Hk. unfold tagged.
  rewrite !filter_app, !length_app, !tagged_of_agent by exact Hi. simpl. lia.
Qed.

Lemma agentCounts_has (pathfinderData kissData : list DataEntry) n :
  inherited n = false ->
  entriesOf n pathfinderData <> [] \/ entriesOf n kissData <> [] ->
  exists c, In (n, c) (agentCounts pathfinderData kissData).
Proof.
  intros Hi Hne. rewrite agentCounts_groups. unfold agentStep.
  eexists. apply group_entries. split; [|reflexivity].
  apply existsb_exists. unfold tagged, joins, entriesOf in *.
  destruct Hne as [Hne|Hne].
  - destruct (filter _ pathfinderData) as [|e r] eqn:E; [congruence|].
    assert (He : In e (e :: r)) by now left.
    rewrite <- E in He. apply filter_In in He as [Hin Heq].
    exists (pathfinder, e). split.
    + apply in_or_app. left. now apply in_map.
    + cbn [snd]. rewrite Heq. apply String.eqb_eq in Heq. rewrite Heq, Hi. reflexivity.
  - destruct (filter _ kissData) as [|e r] eqn:E; [congruence|].
    assert (He : In e (e :: r)) by now left.
    rewrite <- E in He. apply filter_In in He as [Hin Heq].
    exists (kiss, e). split.
    + apply in_or_app. right. now apply in_map.
    + cbn [snd]. rewrite Heq. apply String.eqb_eq in Heq. rewrite Heq, Hi. reflexivity.
Qed.

Lemma allAgents_In (pathfinderData kissData : list DataEntry) n :
  In n (allAgents pathfinderData kissData)
  <-> inherited n = false
      /\ ((0 < List.length (entriesOf n pathfinderData))%nat
          \/ (5 < List.length (entriesOf n kissData))%nat).
Proof.
  unfold allAgents. rewrite sort_strings_In, in_map_iff. split.
  - intros ([k c] & Hk & Hin). simpl in Hk. subst k.
    apply filter_In in Hin as [Hin Hel].
    apply agentCounts_entry in Hin as (Hi & Hp & Hk). simpl in Hel.
    rewrite Hp, Hk in Hel. split; auto.
    apply orb_true_iff in Hel as [Hel|Hel]; apply Nat.ltb_lt in Hel; auto.
  - intros [Hi Hcount].
    destruct (agentCounts_has pathfinderData kissData n Hi) as [c Hin].
    { destruct Hcount as [Hc|Hc]; [left|right]; intros Hnil;
        rewrite Hnil in Hc; simpl in Hc; lia. }
    exists (n, c). split; auto. apply filter_In. split; auto.
    apply agentCounts_entry in Hin as (_ & Hp & Hk). simpl.
    rewrite Hp, Hk. apply orb_true_iff.
    destruct Hcount; [left|right]; now apply Nat.ltb_lt.
Qed.

End Agents.

(** C9 (as amended). For a salesperson name that is not the name of a
    property every object inherits: the name is in the salesperson options
    of the results list exactly when it is not empty and one of its records
    in the unfiltered set is a Pathfinder record or more than 5 are KISS
    records; it is in the agent options of the overview exactly when one of
    its entries is a Pathfinder entry or more than 5 are KISS entries (the
    empty name included). For every name, a group of that name is listed on
    the leaderboard exactly when the name is not empty and the rule holds of
    the sessions that pass the page's filters. The empty name is never a
    salesperson option nor a leaderboard group. *)
Theorem eligibility_rule `{Js.Host} (n : string) (results : list Business.BusinessRecord)
  (pathfinderData kissData : list Overview.DataEntry)
  (tf : SalesLeaderboard.SessionTypeFilter) (range : SalesLeaderboard.DateRange)
  (sessions : list Business.BusinessRecord) :
  (Js.inherited n = false ->
   (In n (ResultsList.salesPersons results)
    <-> n <> ""
        /\ ((0 < countOfType Business.pathfinder n results)%nat
            \/ (5 < countOfType Business.kiss n results)%nat))
   /\ (In n (Overview.allAgents pathfinderData kissData)
       <-> (0 < List.length (entriesOf n pathfinderData))%nat
           \/ (5 < List.length (entriesOf n kissData))%nat))
  /\ (In n (map SalesLeaderboard.name
              (SalesLeaderboard.leaderboard tf range sessions))
      <-> n <> ""
          /\ ((0 < countOfType Business.pathfinder n
                      (SalesLeaderboard.filteredSessions tf range sessions))%nat
              \/ (5 < countOfType Business.kiss n
                         (SalesLeaderboard.filteredSessions tf range sessions))%nat))
  /\ ~ In "" (ResultsList.salesPersons results)
  /\ ~ In "" (map SalesLeaderboard.name
                (SalesLeaderboard.leaderboard tf range sessions)).
Proof.
  split; [|split; [|split]].
  - intros Hi. split.
    + rewrite salesPersons_In. tauto.
    + rewrite allAgents_In. tauto.
  - apply leaderboard_In.
  - rewrite salesPersons_In. tauto.
  - rewrite leaderboard_In. tauto.
Qed.

(** C9 at salesperson A of the specification's scenario, who has two
    Pathfinder records and is offered as an option. *)
Lemma eligibility_rule_witness :
  Js.inherited "A" = false
  /\ In "A" (ResultsList.salesPersons Samples.scenario)
  /\ In "A" (map SalesLeaderboard.name
               (SalesLeaderboard.leaderboard (H:=RefHost.utc) SalesLeaderboard.all
                  {| SalesLeaderboard.from := None; SalesLeaderboard.to := None |}
                  Samples.scenario)).
Proof.
  assert (Hi : Js.inherited "A" = false) by reflexivity.
  pose proof (@eligibility_rule RefHost.utc "A" Samples.scenario [] []
                SalesLeaderboard.all
                {| SalesLeaderboard.from := None; SalesLeaderboard.to := None |}
                Samples.scenario) as (Hr & Hl & _).
  destruct (Hr Hi) as [Hres _].
  split; [exact Hi|]. split.
  - apply Hres. split; [discriminate|]. left. vm_compute. lia.
  - apply Hl. split; [discriminate|]. left. vm_compute. lia.
Defined.

(** C9 as stated fails. A record without salesperson name is a Pathfinder
    record of the empty name, which the results list does not offer; and a
    salesperson whose name is the name of a property every object inherits
    is offered neither by the results list nor by the overview, whatever
    records there are. *)
Lemma eligibility_rule_counterexample :
  ((0 < countOfType Business.pathfinder "" Samples.unnamedSession)%nat
   /\ ~ In "" (ResultsList.salesPersons Samples.unnamedSession))
  /\ ((0 < countOfType Business.pathfinder "constructor" Samples.inheritedName)%nat
      /\ ~ In "constructor" (ResultsList.salesPersons Samples.inheritedName))
  /\ ((0 < List.length (entriesOf "constructor" Samples.inheritedAgent))%nat
      /\ ~ In "constructor" (Overview.allAgents Samples.inheritedAgent [])).
Proof.
  repeat split; try (vm_compute; lia); vm_compute; tauto.
Qed.

(* ===================================================================== *)
(** ** The specification's scenario *)
(* ===================================================================== *)

(** The two sessions of salesperson A give one group with two sessions, one
    of them complete, and an average completion of 62.5 percent. *)
Example scenario_leaderboard :
  match SalesLeaderboard.leaderboardStats SalesLeaderboard.all Samples.scenario with
  | [g] =>
      SalesLeaderboard.name g = "A"
      /\ SalesLeaderboard.totalSessions g = 2%nat
      /\ SalesLeaderboard.completedSessions g = 1%nat
      /\ Qeq (SalesLeaderboard.averagePercentComplete g) (125 # 2)
  | _ => False
  end.
Proof. vm_compute. repeat split. Qed.

(** Sorted by timestamp, newest first, the scenario shows the later session
    on top, and its single page holds both sessions. *)
Example scenario_results :
  map Business.client_name
    (ResultsList.filteredAndSortedResults (H:=RefHost.utc) ResultsList.noFilters
       ResultsList.by_timestamp ResultsList.desc Samples.scenario)
  = ["c2"; "c1"]
  /\ ResultsList.totalPages Samples.scenario = 1.
Proof. split; reflexivity. Qed.

(* ===================================================================== *)
(** ** The results list: filters in use *)
(* ===================================================================== *)

Section FiltersInUse.
Import Js Business ResultsList.
Context `{Host}.

Lemma truthy_false_empty (s : string) : truthy s = false -> s = "".
Proof.
  unfold truthy. destruct (String.eqb_spec s ""); simpl; congruence.
Qed.

Lemma keep_inactive (f : Filters) (r : BusinessRecord) :
  hasActiveFilters f = false -> keep f r = true.
Proof.
  unfold hasActiveFilters. intros Hoff.
  repeat (apply orb_false_iff in Hoff as [Hoff ?]).
  unfold keep.
  destruct (dateFrom f); [discriminate|].
  destruct (dateTo f); [discriminate|].
  rewrite Hoff.
  repeat match goal with
         | Hn : negb ?b = false |- _ => apply negb_false_iff in Hn; rewrite Hn
         end.
  reflexivity.
Qed.

(** X1. With no filter active (the state [clearFilters] restores, where
    [hasActiveFilters] is false) the filter step keeps every record, in
    order. *)
Theorem inactive_filters_keep_all (f : Filters) (results : list BusinessRecord) :
  hasActiveFilters f = false -> filtered f results = results.
Proof.
  intros Hoff. unfold filtered. apply filter_all_true.
  intros r _. now apply keep_inactive.
Qed.

(** X2. Every record the filter step lets through matches the selected
    values exactly: it has the selected product (a record without product
    never passes a product selection), the selected salesperson name, and
    the selected contract length. *)
Theorem filtered_matches_selection (f : Filters) (results : list BusinessRecord)
  (r : BusinessRecord) :
  In r (filtered f results) ->
  (productFilter f <> "all" -> product r = Some (productFilter f))
  /\ (salesPersonFilter f <> "all" -> google_full_name r = salesPersonFilter f)
  /\ (contractLengthFilter f <> "all"
      -> contract_length r = Some (contractLengthFilter f)).
Proof.
  unfold filtered. intros Hin. apply filter_In in Hin as [_ Hk].
  unfold keep in Hk.
  destruct (truthy (searchQuery f)
            && negb (matchesSearch (toLowerCase (searchQuery f)) r))%bool;
    [discriminate|].
  destruct (String.eqb_spec (productFilter f) "all") as [Ep|Np];
    destruct (String.eqb_spec (salesPersonFilter f) "all") as [Es|Ns];
    destruct (String.eqb_spec (contractLengthFilter f) "all") as [Ec|Nc];
    cbn [negb andb] in Hk;
    repeat split; intros Hsel; try congruence;
    repeat match type of Hk with
           | (if strict_neq ?a ?b then _ else _) = _ =>
               let E := fresh "E" in
               destruct (strict_neq a b) eqn:E; [discriminate|]
           | (if negb (String.eqb ?a ?b) then _ else _) = _ =>
               destruct (String.eqb_spec a b); cbn [negb] in Hk; [|discriminate]
           end;
    try assumption;
    match goal with
    | E : strict_neq ?a ?b = false |- ?a = Some ?b =>
        unfold strict_neq in E; destruct a as [v|]; [|discriminate];
        apply negb_false_iff, String.eqb_eq in E; now subst
    end.
Qed.

End FiltersInUse.

Section SearchCase.
Import Js Business ResultsList.
Context `{Host}.

Lemma lower_ascii_idempotent (c : ascii) : lower_ascii (lower_ascii c) = lower_ascii c.
Proof. destruct c as [[] [] [] [] [] [] [] []]; reflexivity. Qed.

Lemma toLowerCase_idempotent (s : string) : toLowerCase (toLowerCase s) = toLowerCase s.
Proof.
  induction s as [|c r IH]; simpl; auto.
  now rewrite lower_ascii_idempotent, IH.
Qed.

Lemma truthy_toLowerCase (s : string) : truthy (toLowerCase s) = truthy s.
Proof. now destruct s. Qed.

(** X3. The text search ignores the case of the query: a query and its
    lower-case form select the same records. *)
Theorem search_ignores_query_case (q : string) (st : State)
  (results : list BusinessRecord) :
  filtered (filters (onSearchChange q st)) results
  = filtered (filters (onSearchChange (toLowerCase q) st)) results.
Proof.
  unfold filtered. apply filter_ext. intros r.
  unfold keep, onSearchChange; cbn [filters searchQuery productFilter
    salesPersonFilter contractLengthFilter dateFrom dateTo].
  now rewrite truthy_toLowerCase, toLowerCase_idempotent.
Qed.

End SearchCase.

(* ===================================================================== *)
(** ** The results list: what sorting does *)
(* ===================================================================== *)

Section SortingRecords.
Import Js Business ResultsList.
Context `{Host}.

Lemma sorted_page_count (f : Filters) (field : SortField) (dir : SortDir)
  (results : list BusinessRecord) :
  totalPages (filteredAndSortedResults f field dir results)
  = totalPages (filtered f results).
Proof.
  unfold filteredAndSortedResults, sorted, totalPages. now rewrite sort_length.
Qed.

(** X4. Sorting only reorders: for every sort field and direction (also
    when the comparator yields NaN) the sorted list is a permutation of the
    filtered list, so the number of results and the number of pages do not
    depend on the sort. *)
Theorem sorting_only_reorders (f : Filters) (field : SortField) (dir : SortDir)
  (results : list BusinessRecord) :
  Permutation (filtered f results) (filteredAndSortedResults f field dir results)
  /\ List.length (filteredAndSortedResults f field dir results)
     = List.length (filtered f results)
  /\ totalPages (filteredAndSortedResults f field dir results)
     = totalPages (filtered f results).
Proof.
  unfold filteredAndSortedResults, sorted, totalPages.
  rewrite sort_length. repeat split. apply sort_perm.
Qed.

End SortingRecords.

Section TwoValuedSort.
Import Js.
Context {A : Type}.
Variable high : A -> bool.
Variable cmp : A -> A -> number.
Hypothesis cmp_high :
  forall x y, positive (cmp x y) = (high x && negb (high y))%bool.

Lemma insert_low (x : A) (l : list A) : high x = false -> insert cmp x l = x :: l.
Proof.
  intros Hx. destruct l as [|y r]; simpl; auto.
  now rewrite cmp_high, Hx.
Qed.

Lemma insert_high (x : A) (lows highs : list A) :
  high x = true ->
  Forall (fun y => high y = false) lows ->
  Forall (fun y => high y = true) highs ->
  insert cmp x (lows ++ highs) = lows ++ x :: highs.
Proof.
  intros Hx Hl Hh. induction Hl as [|y r Hy Hr IH]; simpl.
  - destruct highs as [|z t]; simpl; auto.
    inversion Hh; subst. rewrite cmp_high, Hx.
    replace (high z) with true by congruence. reflexivity.
  - rewrite cmp_high, Hx, Hy. simpl. now rewrite IH.
Qed.

(** A sort on a two-valued key is a stable partition. *)
Lemma sort_two_valued (l : list A) :
  sort cmp l = filter (fun x => negb (high x)) l ++ filter high l.
Proof.
  induction l as [|x r IH]; simpl; auto.
  rewrite IH. destruct (high x) eqn:Hx; simpl.
  - apply insert_high; auto.
    + apply Forall_forall. intros y Hy. apply filter_In in Hy as [_ Hy].
      now apply negb_true_iff in Hy.
    + apply Forall_forall. intros y Hy. now apply filter_In in Hy.
  - now apply insert_low.
Qed.

End TwoValuedSort.

Section StatusSort.
Import Js Business ResultsList.
Context `{Host}.

(** X5. Sorting by status is a stable partition: in ascending direction the
    records in progress come first and the complete ones after them, in
    descending direction the other way round, and within each part the
    records keep the order they had. *)
Theorem status_sort_partitions (l : list BusinessRecord) :
  sorted by_status asc l
  = filter (fun r => negb (isComplete r)) l ++ filter isComplete l
  /\ sorted by_status desc l
     = filter isComplete l ++ filter (fun r => negb (isComplete r)) l.
Proof.
  split; unfold sorted.
  - apply sort_two_valued. intros x y.
    unfold comparator, cmpField. rewrite positive_num_of_Z.
    destruct (isComplete x), (isComplete y); reflexivity.
  - rewrite (sort_two_valued (fun r => negb (isComplete r))).
    + f_equal. apply filter_ext. intros r. apply negb_involutive.
    + intros x y. unfold comparator, cmpField. rewrite positive_neg_num_of_Z.
      destruct (isComplete x), (isComplete y); reflexivity.
Qed.

End StatusSort.

Section StableByKey.
Import Js.
Context {A : Type}.
Variable key : A -> Z.
Variable cmp : A -> A -> number.

Lemma insert_keeps_equal_keys (k : Z) (x : A) (l : list A) :
  (forall y, In y l -> positive (cmp x y) = (key y <? key x)) ->
  filter (fun y => key y =? k) (insert cmp x l)
  = filter (fun y => key y =? k) (x :: l).
Proof.
  induction l as [|y r IH]; intros Hc; auto.
  cbn [insert]. rewrite (Hc y) by now left.
  destruct (Z.ltb_spec (key y) (key x)) as [Hlt|Hge]; auto.
  cbn [filter]. rewrite IH by (intros z Hz; apply Hc; now right).
  cbn [filter].
  destruct (Z.eqb_spec (key x) k), (Z.eqb_spec (key y) k); auto; lia.
Qed.

(** Elements with the same key leave the sort in the order they came in. *)
Lemma sort_keeps_equal_keys (k : Z) (l : list A) :
  (forall x y, In x l -> In y l -> positive (cmp x y) = (key y <? key x)) ->
  filter (fun y => key y =? k) (sort cmp l) = filter (fun y => key y =? k) l.
Proof.
  induction l as [|x r IH]; intros Hc; auto.
  cbn [sort]. rewrite insert_keeps_equal_keys.
  - cbn [filter]. rewrite IH by (intros; apply Hc; now right). reflexivity.
  - intros y Hy. apply Hc; [now left|]. right. now apply sort_In in Hy.
Qed.

End StableByKey.

Section TimestampOrder.
Import Js Business ResultsList.
Context `{Host}.

(** X6. When every timestamp parses, sorting by timestamp orders the
    records by time value, oldest first in ascending and newest first in
    descending direction, and records with the same time value keep the
    order they had. *)
Theorem timestamp_sort_orders (l : list BusinessRecord) (t : Z) :
  Forall (fun r => timeOf r <> None) l ->
  StronglySorted (fun a b => timeKey a <= timeKey b) (sorted by_timestamp asc l)
  /\ StronglySorted (fun a b => timeKey b <= timeKey a) (sorted by_timestamp desc l)
  /\ filter (fun r => timeKey r =? t) (sorted by_timestamp asc l)
     = filter (fun r => timeKey r =? t) l
  /\ filter (fun r => timeKey r =? t) (sorted by_timestamp desc l)
     = filter (fun r => timeKey r =? t) l.
Proof.
  intros Hv. unfold sorted. split; [|split; [|split]].
  - apply sort_sorted_by_key. now apply cmp_timestamp_asc.
  - eapply StronglySorted_weaken;
      [|apply (sort_sorted_by_key (fun r => - timeKey r));
        now apply cmp_timestamp_desc].
    simpl. intros; lia.
  - apply sort_keeps_equal_keys. now apply cmp_timestamp_asc.
  - rewrite !(filter_ext (fun r => timeKey r =? t) (fun r => - timeKey r =? - t))
      by (intros r; destruct (Z.eqb_spec (timeKey r) t),
                      (Z.eqb_spec (- timeKey r) (- t)); auto; lia).
    apply (sort_keeps_equal_keys (fun r => - timeKey r) _ (- t)).
    now apply cmp_timestamp_desc.
Qed.

End TimestampOrder.

(** X6 on the specification's scenario, whose timestamps parse. *)
Lemma timestamp_sort_orders_witness :
  Forall (fun r => timeOf (H:=RefHost.utc) r <> None) Samples.scenario
  /\ StronglySorted
       (fun a b => timeKey (H:=RefHost.utc) b <= timeKey (H:=RefHost.utc) a)
       (ResultsList.sorted (H:=RefHost.utc) ResultsList.by_timestamp
          ResultsList.desc Samples.scenario).
Proof.
  assert (Hv : Forall (fun r => timeOf (H:=RefHost.utc) r <> None) Samples.scenario).
  { repeat constructor; vm_compute; discriminate. }
  split; [exact Hv|].
  exact (proj1 (proj2 (@timestamp_sort_orders RefHost.utc Samples.scenario 0 Hv))).
Defined.

(** X1 on the scenario: the cleared filters keep both records. *)
Lemma inactive_filters_keep_all_witness :
  ResultsList.hasActiveFilters ResultsList.noFilters = false
  /\ ResultsList.filtered (H:=RefHost.utc) ResultsList.noFilters Samples.scenario
     = Samples.scenario.
Proof.
  split; [reflexivity|].
  exact (@inactive_filters_keep_all RefHost.utc ResultsList.noFilters
           Samples.scenario eq_refl).
Defined.

(* ===================================================================== *)
(** ** The results list: moving between pages *)
(* ===================================================================== *)

Section PageSlices.
Import Js ResultsList.
Context {A : Type}.
Implicit Types (shown : list A).

Lemma paginated_length shown (p : Z) :
  1 <= p ->
  Z.of_nat (List.length (paginatedResults shown p))
  = Z.max 0 (Z.min ITEMS_PER_PAGE
               (Z.of_nat (List.length shown) - (p - 1) * ITEMS_PER_PAGE)).
Proof.
  intros Hp. rewrite paginated_chunk by assumption.
  rewrite length_firstn, length_skipn. unfold ITEMS_PER_PAGE. lia.
Qed.

(** X7. On a page between 1 and the page count, the slice holds exactly
    the items the count line announces ("Showing from-to of n"): item
    [from + j] of the list is row [j] of the page, there are [to - from + 1]
    rows, and at least one unless the list is empty. *)
Theorem page_slice_matches_count shown (p : Z) :
  1 <= p <= totalPages shown ->
  Z.of_nat (List.length (paginatedResults shown p))
  = showingTo shown p - showingFrom p + 1
  /\ (forall j, (j < List.length (paginatedResults shown p))%nat ->
        nth_error (paginatedResults shown p) j
        = nth_error shown (Z.to_nat (showingFrom p - 1) + j))
  /\ (shown <> [] -> paginatedResults shown p <> []).
Proof.
  intros [Hp Hlast].
  pose proof (paginated_length shown p Hp) as Hlen.
  pose proof (ceil_div_bounds (Z.of_nat (List.length shown))) as Hc.
  unfold totalPages, showingTo, showingFrom, ITEMS_PER_PAGE in *.
  split; [lia|]. split.
  - intros j Hj. rewrite paginated_chunk by assumption.
    rewrite nth_error_firstn.
    destruct (Nat.ltb_spec j 50) as [_|Hge].
    + rewrite nth_error_skipn. f_equal. unfold ITEMS_PER_PAGE. lia.
    + exfalso. lia.
  - intros Hne Hnil. rewrite Hnil in Hlen. simpl in Hlen.
    destruct shown as [|x r]; [congruence|]. simpl List.length in *. lia.
Qed.

(** A page beyond the page count shows no rows. *)
Lemma page_beyond_last_is_empty shown (p : Z) :
  totalPages shown < p -> paginatedResults shown p = [].
Proof.
  intros Hlast. pose proof (totalPages_pos shown) as Hpos.
  pose proof (paginated_length shown p ltac:(lia)) as Hlen.
  pose proof (totalPages_covers shown) as Hcov.
  unfold ITEMS_PER_PAGE in *.
  destruct (paginatedResults shown p); auto. simpl in Hlen. lia.
Qed.

End PageSlices.

Section PageLinks.
Import Js ResultsList.

Lemma withEllipses_links (previous : option Z) (l : list Z) :
  linksOf (withEllipses previous l) = l.
Proof.
  revert previous. induction l as [|x r IH]; intros previous; auto.
  simpl. destruct previous as [b|]; [destruct (1 <? x - b)|]; simpl;
    now rewrite IH.
Qed.

Lemma linksOf_In (items : list PageItem) (p : Z) :
  In (pageLink p) items <-> In p (linksOf items).
Proof.
  unfold linksOf. rewrite in_flat_map. split.
  - intros Hin. exists (pageLink p). split; auto. now left.
  - intros ([|q] & Hin & Hq); simpl in Hq; [tauto|].
    destruct Hq as [->|[]]. exact Hin.
Qed.

Lemma linkedPages_In (total current p : Z) :
  In p (linkedPages total current)
  <-> 1 <= p <= total /\ linkedPage total current p = true.
Proof.
  unfold linkedPages. rewrite filter_In, in_map_iff. split.
  - intros [(i & <- & Hi) Hl]. apply in_seq in Hi. split; auto. lia.
  - intros [Hp Hl]. split; auto. exists (Z.to_nat (p - 1)). split; [lia|].
    apply in_seq. lia.
Qed.

Lemma pageItems_In (total current p : Z) :
  In (pageLink p) (pageItems total current)
  <-> 1 <= p <= total /\ linkedPage total current p = true.
Proof.
  unfold pageItems. now rewrite linksOf_In, withEllipses_links, linkedPages_In.
Qed.

End PageLinks.

Section Navigation.
Import Js Business ResultsList.
Context `{Host}.

Lemma toggleSort_pages (results : list BusinessRecord) (field : SortField) (st : State) :
  totalPages (shownIn results (toggleSort field st)) = totalPages (shownIn results st)
  /\ currentPage (toggleSort field st) = currentPage st.
Proof.
  unfold shownIn, toggleSort.
  destruct (SortField_eqb (sortField st) field); cbn [filters sortField sortDir currentPage];
    split; auto;
    rewrite !sorted_page_count; reflexivity.
Qed.

(** X8. The current page is a page of the shown list at the start and
    stays one under every handler that does not pick a date: a change of
    the search text, the product, the salesperson or the contract and
    clearing the filters go to page 1, toggling the sort keeps the page and
    the page count, and the previous, next and page links stay within
    1 .. totalPages. *)
Theorem navigation_stays_in_range (results : list BusinessRecord) (st : State)
  (ev : Event) :
  pageInRange results st ->
  offered results st ev ->
  pageInRange results (react results ev st).
Proof.
  unfold pageInRange. intros Hin Hoff.
  destruct ev; cbn [react];
    try (cbn [currentPage onSearchChange onProductChange
                handleSalesPersonFilterChange onContractChange clearFilters];
         match goal with |- 1 <= 1 <= totalPages ?l =>
           pose proof (totalPages_pos l); lia end).
  - destruct (toggleSort_pages results field st) as [-> ->]. exact Hin.
  - unfold previousPage, shownIn in *;
      cbn [filters sortField sortDir currentPage] in *. lia.
  - unfold nextPage, shownIn in *;
      cbn [filters sortField sortDir currentPage] in *. lia.
  - cbn [offered] in Hoff. apply pageItems_In in Hoff as [Hp _].
    unfold gotoPage, shownIn in *;
      cbn [filters sortField sortDir currentPage] in *. exact Hp.
Qed.

Lemma initial_page_in_range (results : list BusinessRecord) (initial : option string) :
  pageInRange results (initialState initial).
Proof.
  unfold pageInRange. cbn [currentPage initialState].
  pose proof (totalPages_pos (shownIn results (initialState initial))). lia.
Qed.

(** X9. Picking a date, in the calendar of the first day or in that of the
    last day, leaves the current page as it is: when the list the new range
    admits has fewer pages than the current page, the table shows no rows,
    though the list may have records. *)
Theorem date_change_keeps_page (results : list BusinessRecord) (st : State)
  (c : Calendar) (d : option JsDate) :
  totalPages (shownIn results (pickDate c d st)) < currentPage st ->
  currentPage (pickDate c d st) = currentPage st
  /\ visibleRows results (pickDate c d st) = [].
Proof.
  intros Hfew. split; [now destruct c|].
  unfold visibleRows. apply page_beyond_last_is_empty.
  now destruct c.
Qed.

End Navigation.

Section PageLinkShape.
Import Js ResultsList.

Lemma withEllipses_cons (previous : option Z) (x : Z) (r : list Z) :
  withEllipses previous (x :: r)
  = (if match previous with Some b => 1 <? x - b | None => false end
     then [ellipsis] else [])
    ++ pageLink x :: withEllipses (Some x) r.
Proof.
  simpl. destruct previous as [b|]; [destruct (1 <? x - b)|]; reflexivity.
Qed.

Lemma follows_cons {T : Type} (l : list T) (x a b : T) :
  follows l a b -> follows (x :: l) a b.
Proof.
  intros (before & after & ->). exists (x :: before), after. reflexivity.
Qed.

(** Two links side by side are neighbours in the list of linked pages and
    differ by at most one; two ellipses never stand side by side. *)
Lemma withEllipses_follows (l : list Z) (previous : option Z) (a b : PageItem) :
  follows (withEllipses previous l) a b ->
  match a, b with
  | pageLink p, pageLink q => follows l p q /\ q - p <= 1
  | ellipsis, ellipsis => False
  | _, _ => True
  end.
Proof.
  revert previous. induction l as [|x r IH]; intros previous (before & after & Heq).
  { destruct before; discriminate. }
  assert (Hlink : forall before0,
    pageLink x :: withEllipses (Some x) r = before0 ++ a :: b :: after ->
    match a, b with
    | pageLink p, pageLink q => follows (x :: r) p q /\ q - p <= 1
    | ellipsis, ellipsis => False
    | _, _ => True
    end).
  { intros [|i before1] E; simpl in E.
    - injection E as <- E.
      destruct r as [|y r']; [discriminate|].
      rewrite withEllipses_cons in E.
      destruct (Z.ltb_spec 1 (y - x)); simpl in E; injection E as <- _; auto.
      split; [|lia]. exists [], r'. reflexivity.
    - injection E as _ E.
      assert (Hf : follows (withEllipses (Some x) r) a b) by (now exists before1, after).
      apply IH in Hf. destruct a, b; auto.
      destruct Hf as [Hf Hd]. split; auto. now apply follows_cons. }
  rewrite withEllipses_cons in Heq.
  destruct (match previous with Some b0 => 1 <? x - b0 | None => false end);
    simpl in Heq.
  - destruct before as [|i before1]; simpl in Heq.
    + injection Heq as <- <- _. exact I.
    + injection Heq as _ Heq. now apply (Hlink before1).
  - now apply (Hlink before).
Qed.

(** An ellipsis between two links stands for at least one skipped page. *)
Lemma withEllipses_gap (l : list Z) (previous : option Z) (p q : Z)
  (before after : list PageItem) :
  withEllipses previous l = before ++ pageLink p :: ellipsis :: pageLink q :: after ->
  p + 1 < q.
Proof.
  revert previous before. induction l as [|x r IH]; intros previous before Heq.
  { destruct before; discriminate. }
  assert (Hlink : forall before0,
    pageLink x :: withEllipses (Some x) r
    = before0 ++ pageLink p :: ellipsis :: pageLink q :: after -> p + 1 < q).
  { intros [|i before1] E; simpl in E.
    - injection E as <- E.
      destruct r as [|y r']; [discriminate|].
      rewrite withEllipses_cons in E.
      destruct (Z.ltb_spec 1 (y - x)); simpl in E; [|discriminate].
      injection E as <- _. lia.
    - injection E as _ E. now apply (IH (Some x) before1). }
  rewrite withEllipses_cons in Heq.
  destruct (match previous with Some b0 => 1 <? x - b0 | None => false end);
    simpl in Heq.
  - destruct before as [|i before1]; simpl in Heq; [discriminate|].
    injection Heq as _ Heq. now apply (Hlink before1).
  - now apply (Hlink before).
Qed.

(** Every ellipsis has a link after it, and a link before it unless it is
    the first item, which it can only be after a previous page. *)
Lemma withEllipses_around (l : list Z) (previous : option Z)
  (before after : list PageItem) :
  withEllipses previous l = before ++ ellipsis :: after ->
  ((before = [] /\ previous <> None)
   \/ exists before' p, before = before' ++ [pageLink p])
  /\ exists q after', after = pageLink q :: after'.
Proof.
  revert previous before. induction l as [|x r IH]; intros previous before Heq.
  { destruct before; discriminate. }
  assert (Hlink : forall before0,
    pageLink x :: withEllipses (Some x) r = before0 ++ ellipsis :: after ->
    (exists before' p, before0 = before' ++ [pageLink p])
    /\ exists q after', after = pageLink q :: after').
  { intros [|i before1] E; simpl in E; [discriminate|].
    injection E as <- E. apply IH in E as [[[-> _]|(b' & p & ->)] Hafter].
    - split; auto. exists [], x. reflexivity.
    - split; auto. exists (pageLink x :: b'), p. reflexivity. }
  rewrite withEllipses_cons in Heq.
  destruct previous as [b0|]; [destruct (1 <? x - b0)|]; simpl in Heq.
  - destruct before as [|i before1]; simpl in Heq.
    + injection Heq as <-. split; [left; split; [auto|discriminate]|eauto].
    + injection Heq as <- Heq. apply Hlink in Heq as [(b' & p & ->) Hafter].
      split; auto. right. exists (ellipsis :: b'), p. reflexivity.
  - apply Hlink in Heq as [Hb Ha]. auto.
  - apply Hlink in Heq as [Hb Ha]. auto.
Qed.

Lemma pages_increasing (n a : nat) :
  StronglySorted Z.lt (map (fun i => Z.of_nat i + 1) (seq a n)).
Proof.
  revert a. induction n as [|n IH]; intros a; simpl; constructor; auto.
  apply Forall_forall. intros z Hz. apply in_map_iff in Hz as (i & <- & Hi).
  apply in_seq in Hi. lia.
Qed.

Lemma StronglySorted_filter {T : Type} (R : T -> T -> Prop) (test : T -> bool)
  (l : list T) :
  StronglySorted R l -> StronglySorted R (filter test l).
Proof.
  induction 1 as [|x r Hs IH Hall]; simpl; [constructor|].
  destruct (test x); auto. constructor; auto.
  rewrite Forall_forall in *. intros y Hy. apply filter_In in Hy. apply Hall, Hy.
Qed.

Lemma linkedPages_increasing (total current : Z) :
  StronglySorted Z.lt (linkedPages total current).
Proof. apply StronglySorted_filter, pages_increasing. Qed.

Lemma follows_increasing (l : list Z) (p q : Z) :
  StronglySorted Z.lt l -> follows l p q -> p < q.
Proof.
  intros Hs (before & after & ->).
  induction before as [|x b IH]; simpl in Hs; inversion Hs as [|? ? Hs' Hall]; subst.
  - inversion Hall; auto.
  - auto.
Qed.

Lemma withEllipses_consecutive (n a : nat) (previous : option Z) :
  (forall b, previous = Some b -> b = Z.of_nat a) ->
  withEllipses previous (map (fun i => Z.of_nat i + 1) (seq a n))
  = map pageLink (map (fun i => Z.of_nat i + 1) (seq a n)).
Proof.
  revert a previous. induction n as [|n IH]; intros a previous Hprev; auto.
  cbn [seq map]. rewrite withEllipses_cons.
  rewrite (IH (S a) (Some (Z.of_nat a + 1))) by (intros b [= <-]; lia).
  destruct previous as [b|]; auto.
  rewrite (Hprev b eq_refl).
  destruct (Z.ltb_spec 1 (Z.of_nat a + 1 - Z.of_nat a)); [lia|reflexivity].
Qed.

(** X10. The row of page links (shown when there is more than one page):
    its page numbers increase and lie in 1 .. totalPages; the first page,
    the last page and the current page always have a link; up to 7 pages
    every page has one and there is no ellipsis; two links side by side are
    consecutive pages; an ellipsis always stands between two links and
    stands for at least one page without a link. *)
Theorem page_links_shape (total current : Z) :
  1 <= total ->
  In (pageLink 1) (pageItems total current)
  /\ In (pageLink total) (pageItems total current)
  /\ (1 <= current <= total -> In (pageLink current) (pageItems total current))
  /\ (forall p, In (pageLink p) (pageItems total current) -> 1 <= p <= total)
  /\ StronglySorted Z.lt (linksOf (pageItems total current))
  /\ (total <= 7 ->
      pageItems total current
      = map pageLink (map (fun i => Z.of_nat i + 1) (seq 0 (Z.to_nat total))))
  /\ (forall p q, follows (pageItems total current) (pageLink p) (pageLink q) ->
        q = p + 1)
  /\ (forall before after,
        pageItems total current = before ++ ellipsis :: after ->
        exists before' p q after',
          before = before' ++ [pageLink p]
          /\ after = pageLink q :: after'
          /\ p + 1 < q).
Proof.
  intros Htotal.
  assert (Hlinked : forall p, 1 <= p <= total ->
            (p = 1 \/ p = total \/ Z.abs (p - current) <= 1) ->
            In (pageLink p) (pageItems total current)).
  { intros p Hp Hsel. apply pageItems_In. split; auto. unfold linkedPage.
    destruct (total <=? 7); auto.
    destruct (Z.eqb_spec p 1); auto. destruct (Z.eqb_spec p total); auto. simpl.
    destruct (Z.leb_spec (Z.abs (p - current)) 1); auto. lia. }
  split; [apply Hlinked; lia|].
  split; [apply Hlinked; lia|].
  split; [intros Hc; apply Hlinked; lia|].
  split; [intros p Hp; now apply pageItems_In in Hp|].
  split.
  { unfold pageItems. rewrite withEllipses_links. apply linkedPages_increasing. }
  split.
  { intros Hfew. unfold pageItems, linkedPages.
    rewrite filter_all_true.
    - apply withEllipses_consecutive. discriminate.
    - intros p _. unfold linkedPage. destruct (Z.leb_spec total 7); auto. lia. }
  split.
  { intros p q Hf. unfold pageItems in Hf.
    apply withEllipses_follows in Hf as [Hf Hd].
    apply follows_increasing in Hf; [lia|apply linkedPages_increasing]. }
  intros before after Heq. unfold pageItems in Heq.
  pose proof (withEllipses_around _ _ _ _ Heq) as [[[_ Hnone]|(b' & p & ->)] (q & a' & ->)].
  { congruence. }
  exists b', p, q, a'. repeat split.
  rewrite <- app_assoc in Heq. simpl in Heq.
  now apply withEllipses_gap in Heq.
Qed.

End PageLinkShape.

(* ===================================================================== *)
(** ** The results list: the option lists *)
(* ===================================================================== *)

Section StringOrder.

Lemma string_compare_le_trans (a b c : string) :
  String.compare a b <> Gt -> String.compare b c <> Gt -> String.compare a c <> Gt.
Proof.
  revert b c. induction a as [|x a IH]; intros [|y b] [|z c]; simpl;
    try congruence.
  unfold Ascii.compare.
  destruct (N.compare_spec (N_of_ascii x) (N_of_ascii y)) as [Exy|Lxy|Gxy];
    destruct (N.compare_spec (N_of_ascii y) (N_of_ascii z)) as [Eyz|Lyz|Gyz];
    destruct (N.compare_spec (N_of_ascii x) (N_of_ascii z)) as [Exz|Lxz|Gxz];
    try congruence; try lia; eauto.
Qed.

Lemma string_leb_trans (a b c : string) :
  String.leb a b = true -> String.leb b c = true -> String.leb a c = true.
Proof.
  unfold String.leb. intros Hab Hbc.
  pose proof (string_compare_le_trans a b c) as Ht.
  destruct (String.compare a b), (String.compare b c), (String.compare a c);
    try reflexivity; try discriminate; exfalso; apply Ht; congruence.
Qed.

Lemma string_ltb_leb (a b : string) : String.ltb a b = true -> String.leb a b = true.
Proof. unfold String.ltb, String.leb. now destruct (String.compare a b). Qed.

Lemma string_not_ltb_leb (a b : string) :
  String.ltb b a = false -> String.leb a b = true.
Proof.
  unfold String.ltb, String.leb. rewrite (String.compare_antisym a b).
  now destruct (String.compare b a).
Qed.

Lemma sort_strings_insert_sorted (x : string) (l : list string) :
  StronglySorted (fun a b => String.leb a b = true) l ->
  StronglySorted (fun a b => String.leb a b = true)
    (Js.insert (fun a b => if String.ltb b a then Js.num_of_Z 1
                           else if String.ltb a b then Js.num_of_Z (-1)
                           else Js.num_of_Z 0) x l).
Proof.
  induction 1 as [|y r Hs IH Hall]; simpl.
  - repeat constructor.
  - destruct (String.ltb y x) eqn:Eyx.
    + rewrite positive_num_of_Z. simpl. constructor; auto.
      rewrite Forall_forall in *. intros z Hz.
      apply (Permutation_in _ (Permutation_sym (insert_perm _ x r))) in Hz.
      destruct Hz as [<-|Hz]; auto. now apply string_ltb_leb.
    + assert (Hpos : Js.positive (if String.ltb x y then Js.num_of_Z (-1)
                                  else Js.num_of_Z 0) = false)
        by (destruct (String.ltb x y); reflexivity).
      rewrite Hpos. apply string_not_ltb_leb in Eyx.
      constructor; [now constructor|]. constructor; auto.
      rewrite Forall_forall in *. intros z Hz.
      eapply string_leb_trans; eauto.
Qed.

Lemma sort_strings_sorted (l : list string) :
  StronglySorted (fun a b => String.leb a b = true) (Js.sort_strings l).
Proof.
  unfold Js.sort_strings. induction l as [|x r IH]; simpl.
  - constructor.
  - now apply sort_strings_insert_sorted.
Qed.

Lemma sort_strings_nodup (l : list string) : NoDup l -> NoDup (Js.sort_strings l).
Proof.
  unfold Js.sort_strings. apply Permutation_NoDup, sort_perm.
Qed.

End StringOrder.

Section DistinctValues.
Import Js Business ResultsList.
Context {R : Type}.
Variable get : R -> option string.

Lemma set_add_In (s p : string) (l : list string) :
  In p (set_add s l) <-> p = s \/ In p l.
Proof.
  unfold set_add. destruct (existsb (String.eqb s) l) eqn:E.
  - split; auto. intros [->|Hin]; auto.
    apply existsb_exists in E as (x & Hx & Heq).
    apply String.eqb_eq in Heq. now subst.
  - rewrite in_app_iff. simpl. intuition.
Qed.

Lemma set_add_nodup (s : string) (l : list string) : NoDup l -> NoDup (set_add s l).
Proof.
  unfold set_add. intros Hnd. destruct (existsb (String.eqb s) l) eqn:E; auto.
  apply NoDup_app; auto.
  - constructor; [simpl; tauto|constructor].
  - intros x Hx [<-|[]].
    assert (existsb (String.eqb s) l = true); [|congruence].
    apply existsb_exists. exists s. split; auto. apply String.eqb_refl.
Qed.

Lemma distinct_values_In (l : list R) (acc : list string) (p : string) :
  In p (fold_left (fun acc r => match get r with
                                | Some v => if truthy v then set_add v acc else acc
                                | None => acc
                                end) l acc)
  <-> In p acc \/ (p <> "" /\ exists r, In r l /\ get r = Some p).
Proof.
  revert acc. induction l as [|x r IH]; intros acc; cbn [fold_left].
  - split; auto. intros [Hin|(_ & y & [] & _)]. exact Hin.
  - rewrite IH. destruct (get x) as [v|] eqn:Ex.
    + destruct (truthy v) eqn:Et.
      * rewrite set_add_In. apply truthy_nonempty in Et. split.
        -- intros [[->|Hin]|(Hp & y & Hy & Hg)]; auto.
           ++ right. split; auto. exists x. split; auto. now left.
           ++ right. split; auto. exists y. split; auto. now right.
        -- intros [Hin|(Hp & y & [<-|Hy] & Hg)]; auto.
           ++ left. left. congruence.
           ++ right. split; auto. exists y. auto.
      * apply truthy_false_empty in Et. subst v. split.
        -- intros [Hin|(Hp & y & Hy & Hg)]; auto.
           right. split; auto. exists y. split; auto. now right.
        -- intros [Hin|(Hp & y & [<-|Hy] & Hg)]; auto.
           ++ congruence.
           ++ right. split; auto. exists y. auto.
    + split.
      * intros [Hin|(Hp & y & Hy & Hg)]; auto.
        right. split; auto. exists y. split; auto. now right.
      * intros [Hin|(Hp & y & [<-|Hy] & Hg)]; auto.
        -- congruence.
        -- right. split; auto. exists y. auto.
Qed.

Lemma distinct_values_nodup (l : list R) (acc : list string) :
  NoDup acc ->
  NoDup (fold_left (fun acc r => match get r with
                                 | Some v => if truthy v then set_add v acc else acc
                                 | None => acc
                                 end) l acc).
Proof.
  revert acc. induction l as [|x r IH]; intros acc Hnd; cbn [fold_left]; auto.
  apply IH. destruct (get x) as [v|]; auto.
  destruct (truthy v); auto. now apply set_add_nodup.
Qed.

End DistinctValues.

Section OptionLists.
Import Js Business ResultsList.
Context `{Host}.

Lemma salesPersons_nodup (results : list BusinessRecord) :
  NoDup (salesPersons results).
Proof.
  unfold salesPersons. apply sort_strings_nodup.
  apply NoDup_map_filter. rewrite salesPersonCounts_groups.
  apply group_keys_nodup.
Qed.

Lemma option_lists_exact_aux (results : list BusinessRecord) :
  (forall p, In p (products results)
             <-> p <> "" /\ exists r, In r results /\ product r = Some p)
  /\ (forall c, In c (contractLengths results)
                <-> c <> "" /\ exists r, In r results /\ contract_length r = Some c).
Proof.
  unfold products, contractLengths. split.
  - intros p. rewrite sort_strings_In, (distinct_values_In product). simpl. tauto.
  - intros c. rewrite sort_strings_In, (distinct_values_In contract_length).
    simpl. tauto.
Qed.

(** X11. The option lists are exact: a product (a contract length) is
    offered exactly when it is not empty and some record of the unfiltered
    set has it; each of the three lists offers every value once, in
    ascending order of the code units. *)
Theorem option_lists_exact (results : list BusinessRecord) :
  (forall p, In p (products results)
             <-> p <> "" /\ exists r, In r results /\ product r = Some p)
  /\ (forall c, In c (contractLengths results)
                <-> c <> "" /\ exists r, In r results /\ contract_length r = Some c)
  /\ NoDup (products results)
  /\ NoDup (contractLengths results)
  /\ NoDup (salesPersons results)
  /\ StronglySorted (fun a b => String.leb a b = true) (products results)
  /\ StronglySorted (fun a b => String.leb a b = true) (contractLengths results)
  /\ StronglySorted (fun a b => String.leb a b = true) (salesPersons results).
Proof.
  split; [apply option_lists_exact_aux|].
  split; [apply option_lists_exact_aux|].
  unfold products, contractLengths.
  split; [|split; [|split; [|split; [|split]]]].
  - apply sort_strings_nodup, (distinct_values_nodup product). constructor.
  - apply sort_strings_nodup, (distinct_values_nodup contract_length). constructor.
  - apply salesPersons_nodup.
  - apply sort_strings_sorted.
  - apply sort_strings_sorted.
  - apply sort_strings_sorted.
Qed.

Lemma nonempty_of_member {T : Type} (x : T) (l : list T) : In x l -> l <> [].
Proof. intros Hin ->. exact Hin. Qed.

(** X12. Every option offered selects something: with the other filters
    cleared, choosing an offered product, salesperson or contract length
    leaves at least one record. *)
Theorem offered_options_select_records (results : list BusinessRecord) (st : State) :
  (forall p, In p (products results) ->
     filtered (filters (onProductChange p (clearFilters st))) results <> [])
  /\ (forall n, In n (salesPersons results) ->
        filtered (filters (handleSalesPersonFilterChange n (clearFilters st)))
                 results <> [])
  /\ (forall c, In c (contractLengths results) ->
        filtered (filters (onContractChange c (clearFilters st))) results <> []).
Proof.
  pose proof (option_lists_exact_aux results) as Haux.
  split; [|split].
  - intros p Hp. apply (proj1 Haux) in Hp as (_ & r & Hr & Hprod).
    apply (nonempty_of_member r). apply filter_In. split; auto.
    unfold keep, onProductChange, clearFilters, noFilters; simpl.
    rewrite Hprod. simpl. rewrite String.eqb_refl. simpl.
    now destruct (String.eqb p "all").
  - intros n Hn. apply salesPersons_In in Hn as (Hne & _ & Hcount).
    assert (Hs : exists s, In s results /\ google_full_name s = n).
    { destruct Hcount as [Hc|Hc]; eapply countOfType_positive; [exact Hc|].
      instantiate (1 := kiss). lia. }
    destruct Hs as (r & Hr & Hname).
    apply (nonempty_of_member r). apply filter_In. split; auto.
    unfold keep, handleSalesPersonFilterChange, clearFilters, noFilters; simpl.
    rewrite Hname, String.eqb_refl. simpl.
    now destruct (String.eqb n "all").
  - intros c Hc. apply (proj2 Haux) in Hc as (_ & r & Hr & Hcl).
    apply (nonempty_of_member r). apply filter_In. split; auto.
    unfold keep, onContractChange, clearFilters, noFilters; simpl.
    rewrite Hcl. simpl. rewrite String.eqb_refl. simpl.
    now destruct (String.eqb c "all").
Qed.

End OptionLists.

(* ===================================================================== *)
(** ** The leaderboard: filter, averages, order *)
(* ===================================================================== *)

Section LeaderboardFilter.
Import Js Business SalesLeaderboard.
Context `{Host}.

(** X13. The session filter of the leaderboard reads the date of a session
    off its timestamp, and off its start time when the timestamp is absent
    or empty. A session whose date is valid passes exactly when its type
    is the selected one (or all types are selected) and its time value lies
    between the lower boundary as selected and the end of the upper
    boundary's day, inclusively. *)
Theorem leaderboard_session_filter (tf : SessionTypeFilter) (lo hi : option Z)
  (s : BusinessRecord) (t : Z) :
  newDate (or_opt (timestamp s) (start_time s)) = TimeValue t ->
  (keepSession tf (leaderboardRange lo hi) s = true
   <-> (tf = all \/ tf = only (_sessionType s))
       /\ between lo (option_map endOfDay hi) t)
  /\ (truthy_opt (timestamp s) = true ->
      or_opt (timestamp s) (start_time s) = timestamp s)
  /\ (truthy_opt (timestamp s) = false ->
      or_opt (timestamp s) (start_time s) = start_time s).
Proof.
  intros Ht. split; [|split].
  - rewrite <- between_bool. unfold keepSession, leaderboardRange.
    cbn [from to]. rewrite Ht.
    destruct tf as [|u].
    + destruct lo as [l|], hi as [h|]; simpl;
        repeat match goal with |- context [?a <? ?b] => destruct (a <? b) end;
        simpl; split; intuition congruence.
    + destruct (_sessionType s), u; simpl;
        destruct lo as [l|], hi as [h|]; simpl;
        repeat match goal with |- context [?a <? ?b] => destruct (a <? b) end;
        simpl; split; intuition congruence.
  - unfold truthy_opt, or_opt, truthy. destruct (timestamp s) as [v|]; [|discriminate].
    destruct (String.eqb v ""); simpl; congruence.
  - unfold truthy_opt, or_opt, truthy. destruct (timestamp s) as [v|]; auto.
    destruct (String.eqb_spec v ""); simpl; congruence.
Qed.

End LeaderboardFilter.

Section PreorderSort.
Import Js.
Context {A : Type}.
Variable before : A -> A -> Prop.
Variable cmp : A -> A -> number.
Hypothesis before_trans : forall x y z, before x y -> before y z -> before x z.
Hypothesis cmp_after : forall x y, positive (cmp x y) = true -> before y x.
Hypothesis cmp_before : forall x y, positive (cmp x y) = false -> before x y.

Lemma insert_ordered (x : A) (l : list A) :
  StronglySorted before l -> StronglySorted before (insert cmp x l).
Proof.
  induction 1 as [|y r Hs IH Hall]; simpl.
  - repeat constructor.
  - destruct (positive (cmp x y)) eqn:E.
    + constructor; auto. rewrite Forall_forall in *. intros z Hz.
      apply (Permutation_in _ (Permutation_sym (insert_perm cmp x r))) in Hz.
      destruct Hz as [<-|Hz]; auto.
    + constructor; [now constructor|]. constructor; auto.
      rewrite Forall_forall in *. intros z Hz. eapply before_trans; eauto.
Qed.

Lemma sort_ordered (l : list A) : StronglySorted before (sort cmp l).
Proof.
  induction l as [|x r IH]; simpl; [constructor|]. now apply insert_ordered.
Qed.

End PreorderSort.

Section LeaderboardAverages.
Import Js Business SalesLeaderboard.

Lemma positive_difference (a b : Q) :
  positive (Some (b - a)%Q) = true <-> (a < b)%Q.
Proof.
  unfold positive. rewrite (Qlt_minus_iff a b).
  destruct (Qcompare 0 (b - a)) eqn:E.
  - apply Qeq_alt in E. split; [discriminate|]. intros Hlt.
    unfold Qminus in E. rewrite <- E in Hlt. now apply Qlt_irrefl in Hlt.
  - apply Qlt_alt in E. unfold Qminus in E. tauto.
  - apply Qgt_alt in E. split; [discriminate|]. intros Hlt.
    unfold Qminus in E. exfalso. apply (Qlt_irrefl 0).
    eapply Qlt_trans; eauto.
Qed.

(** X16. The leaderboard lists the groups by falling average completion:
    no group stands above a group with a higher average. *)
Theorem leaderboard_ordered (tf : SessionTypeFilter) (sessions : list BusinessRecord) :
  StronglySorted
    (fun a b => (averagePercentComplete b <= averagePercentComplete a)%Q)
    (leaderboardStats tf sessions).
Proof.
  unfold leaderboardStats. apply sort_ordered.
  - intros x y z Hxy Hyz. eapply Qle_trans; eauto.
  - intros x y Hpos. unfold byAverage in Hpos.
    rewrite positive_num_sub in Hpos.
    apply positive_difference in Hpos. now apply Qlt_le_weak.
  - intros x y Hpos. unfold byAverage in Hpos.
    rewrite positive_num_sub in Hpos.
    apply Qnot_lt_le. intros Hlt. apply positive_difference in Hlt. congruence.
Qed.

Lemma binary64_range (lo hi : Z) (x : Q) :
  (Z.abs lo < 2 ^ 53)%Z -> (Z.abs hi < 2 ^ 53)%Z ->
  (inject_Z lo <= x <= inject_Z hi)%Q ->
  (inject_Z lo <= binary64 x <= inject_Z hi)%Q.
Proof.
  intros Hlo Hhi [Hx Hx'].
  apply binary64_mono in Hx, Hx'.
  rewrite binary64_integer in Hx, Hx' by assumption. auto.
Qed.

Lemma percentOf_bounds (s : BusinessRecord) :
  0 <= step s <= total_steps s -> (0 <= percentOf s <= 100)%Q.
Proof.
  intros [Hlo Hhi]. unfold percentOf.
  destruct (Z.ltb_spec 0 (total_steps s)) as [Hpos|_]; [|split; [apply Qle_refl|discriminate]].
  assert (Hq : (0 < inject_Z (total_steps s))%Q) by (rewrite <- (Zlt_Qlt 0); exact Hpos).
  assert (Hs : (0 <= inject_Z (step s))%Q) by (rewrite <- (Zle_Qle 0); exact Hlo).
  assert (Hst : (inject_Z (step s) <= inject_Z (total_steps s))%Q)
    by (rewrite <- Zle_Qle; exact Hhi).
  assert (Hdiv0 : (0 <= inject_Z (step s) / inject_Z (total_steps s))%Q).
  { apply Qle_shift_div_l; auto; lra. }
  assert (Hdiv1 : (inject_Z (step s) / inject_Z (total_steps s) <= 1)%Q).
  { apply Qle_shift_div_r; auto; lra. }
  destruct (binary64_range 0 1 (inject_Z (step s) / inject_Z (total_steps s)))
    as [Hr0 Hr1]; [reflexivity|reflexivity|split; assumption|].
  unfold num_mul, num_div.
  apply (binary64_range 0 100); [reflexivity|reflexivity|].
  change (inject_Z 0) with 0%Q in *. change (inject_Z 1) with 1%Q in *.
  change (inject_Z 100) with 100%Q. split; lra.
Qed.

(** A sum in doubles of [k] terms between 0 and [hi] lies between 0 and
    [hi * k], as long as that product is below 2^53. *)
Lemma num_sum_bounds {T : Type} (measure : T -> Q) (hi : Z) (l : list T) (k : Z)
  (start : Q) :
  0 <= hi -> 0 <= k ->
  hi * (k + Z.of_nat (List.length l)) < 2 ^ 53 ->
  (forall x, In x l -> (0 <= measure x <= inject_Z hi)%Q) ->
  (0 <= start <= inject_Z (hi * k))%Q ->
  (0 <= fold_left (fun acc x => num_add acc (measure x)) l start
   <= inject_Z (hi * (k + Z.of_nat (List.length l))))%Q.
Proof.
  intros Hhi. revert k start. induction l as [|x r IH]; intros k start Hk Hsize Hall Hstart.
  - simpl. now rewrite Z.add_0_r.
  - cbn [fold_left List.length] in *.
    replace (k + Z.of_nat (S (List.length r))) with ((k + 1) + Z.of_nat (List.length r))
      in * by lia.
    apply IH; [lia|exact Hsize|intros y Hy; apply Hall; now right|].
    assert (Hx : (0 <= measure x <= inject_Z hi)%Q) by (apply Hall; now left).
    unfold num_add.
    apply (binary64_range 0 (hi * (k + 1))); [reflexivity|nia|].
    replace (hi * (k + 1)) with (hi * k + hi) by ring.
    rewrite inject_Z_plus. change (inject_Z 0) with 0%Q. split; lra.
Qed.

Lemma num_sum_nonneg {T : Type} (measure : T -> Q) (l : list T) (start : Q) :
  (forall x, In x l -> (0 <= measure x)%Q) ->
  (0 <= start)%Q ->
  (0 <= fold_left (fun acc x => num_add acc (measure x)) l start)%Q.
Proof.
  revert start. induction l as [|x r IH]; intros start Hall Hstart; auto.
  cbn [fold_left]. apply IH; [intros y Hy; apply Hall; now right|].
  assert (Hx : (0 <= measure x)%Q) by (apply Hall; now left).
  unfold num_add. apply binary64_nonneg. lra.
Qed.

Lemma group_sessions (sessions : list BusinessRecord) (g : SalespersonStats) :
  In g (groups sessions) ->
  exists st,
    g = average st
    /\ pathfinderSessions st = filter (ofType pathfinder) (sessionsOf (name g) sessions)
    /\ kissSessions st = filter (ofType kiss) (sessionsOf (name g) sessions)
    /\ totalSessions st = List.length (sessionsOf (name g) sessions)
    /\ (1 <= totalSessions st)%nat.
Proof.
  unfold groups, dict_values. rewrite map_map. intros Hin.
  apply in_map_iff in Hin as ([n st] & <- & Hin).
  apply statsMap_entry in Hin as (Hn & Hs & Hname & Hp & Hk & Ht & Hc).
  exists st. simpl. rewrite Hname. repeat split; auto.
  rewrite Ht. apply sessionsOf_nonempty in Hs.
  destruct (sessionsOf n sessions); [congruence|simpl; lia].
Qed.

(** X15. When every session has a step between 0 and its total, the
    averages the leaderboard shows are percentages: every listed group has
    an average completion between 0 and 100 and an average step of at
    least 0. (The sessions are the elements of a JavaScript array, which
    has fewer than 2^32 of them.) *)
Theorem leaderboard_averages_bounded (tf : SessionTypeFilter)
  (sessions : list BusinessRecord) :
  (forall s, In s sessions -> 0 <= step s <= total_steps s) ->
  Z.of_nat (List.length sessions) < 2 ^ 32 ->
  Forall (fun g => (0 <= averagePercentComplete g <= 100)%Q
                   /\ (0 <= averageStep g)%Q)
         (leaderboardStats tf sessions).
Proof.
  intros Hsteps Hsize. apply Forall_forall. intros g Hg.
  apply leaderboardStats_In in Hg as [Hg _].
  destruct (group_sessions sessions g Hg) as (st & -> & Hp & Hk & Ht & Hpos).
  cbn [name average] in Hp, Hk, Ht.
  set (mine := sessionsOf (name st) sessions) in *.
  assert (Hin : forall s, In s (pathfinderSessions st ++ kissSessions st) ->
                          In s sessions).
  { intros s Hs. rewrite Hp, Hk in Hs.
    apply in_app_or in Hs as [Hs|Hs]; apply filter_In in Hs as [Hs _];
      unfold mine, sessionsOf in Hs; now apply filter_In in Hs. }
  assert (Hlen : List.length (pathfinderSessions st ++ kissSessions st)
                 = totalSessions st).
  { rewrite Ht, Hp, Hk, length_app. symmetry. apply type_split. }
  assert (Hmine : (totalSessions st <= List.length sessions)%nat).
  { rewrite Ht. apply filter_length_le. }
  assert (Hn : (0 < inject_Z (Z.of_nat (totalSessions st)))%Q)
    by (rewrite <- (Zlt_Qlt 0); lia).
  cbn [averagePercentComplete averageStep average].
  destruct (Nat.ltb_spec 0 (totalSessions st)) as [_|Hz]; [|lia].
  pose proof (num_sum_bounds percentOf 100
                (pathfinderSessions st ++ kissSessions st) 0 0%Q
                ltac:(lia) ltac:(lia)) as Hsum.
  rewrite Hlen in Hsum.
  destruct Hsum as [Hlo Hhi].
  { change (2 ^ 53) with (2 ^ 32 * 2 ^ 21). change (2 ^ 32) with 4294967296 in *.
    change (2 ^ 21) with 2097152. lia. }
  { intros s Hs. apply percentOf_bounds, Hsteps, Hin, Hs. }
  { split; apply Qle_refl. }
  pose proof (num_sum_nonneg (fun s => inject_Z (step s))
                (pathfinderSessions st ++ kissSessions st) 0%Q) as Hstep.
  unfold num_div. split.
  - apply (binary64_range 0 100); [reflexivity|reflexivity|].
    change (inject_Z 0) with 0%Q. change (inject_Z 100) with 100%Q. split.
    + apply Qle_shift_div_l; auto; lra.
    + apply Qle_shift_div_r; [exact Hn|exact Hhi].
  - apply binary64_nonneg.
    apply Qle_shift_div_l; auto.
    assert (Hs0 : (0 <= fold_left (fun acc s => num_add acc (inject_Z (step s)))
                          (pathfinderSessions st ++ kissSessions st) 0)%Q).
    { apply Hstep; [|apply Qle_refl].
      intros s Hs. rewrite <- (Zle_Qle 0). apply Hsteps, Hin, Hs. }
    lra.
Qed.

(** Rounding shows: six sessions that each reached 1 of 3 steps average to
    the double 33.33333333333332, below the double nearest to 100/3, which
    is what one such session alone gives. *)
Example six_thirds_average :
  map averagePercentComplete (leaderboardStats all Samples.sixThirds)
  = [4691249611844265 # 140737488355328]
  /\ map averagePercentComplete (leaderboardStats all [Samples.oneOfThree])
     = [2345624805922133 # 70368744177664].
Proof. split; vm_compute; reflexivity. Qed.

End LeaderboardAverages.

Section EarliestDate.
Import Js Business SalesLeaderboard.
Context `{Host}.

Lemma Math_min_valid (t : Z) (r : list Z) :
  exists m, Math_min (Some t) (map Some r) = Some m
            /\ In m (t :: r)
            /\ forall u, In u (t :: r) -> m <= u.
Proof.
  unfold Math_min. revert t. induction r as [|x r IH]; intros t.
  - exists t. simpl. repeat split; auto. intros u [<-|[]]. lia.
  - cbn [map fold_left min_num].
    destruct (IH (Z.min t x)) as (m & Hm & Hin & Hle).
    exists m. split; [exact Hm|]. split.
    + destruct Hin as [Heq|Hin]; [|simpl; auto].
      destruct (Z.min_spec t x) as [[_ E]|[_ E]];
        rewrite E in Heq; subst; simpl; auto.
    + intros u Hu.
      assert (Hmin : m <= Z.min t x) by (apply Hle; now left).
      destruct Hu as [<-|[<-|Hu]]; try lia.
      apply Hle. now right.
Qed.

Lemma valid_times (ds : list JsDate) :
  exists ts, map getTime (filter isValid ds) = map Some ts
             /\ forall t, In t ts <-> In (TimeValue t) ds.
Proof.
  induction ds as [|d r (ts & Hmap & Hin)].
  - exists []. simpl. split; auto. tauto.
  - destruct d as [|t]; simpl.
    + exists ts. split; auto. intros u. rewrite Hin. split; auto.
      intros [Hd|Hr]; [discriminate|exact Hr].
    + exists (t :: ts). split; [now rewrite Hmap|].
      intros u. simpl. rewrite Hin. split.
      * intros [->|Hr]; auto.
      * intros [[= ->]|Hr]; auto.
Qed.

(** X17. The earliest date of the leaderboard ("All time (since ...)") is
    the least valid start date of the loaded sessions, read off the start
    time and off the timestamp when the start time is absent or empty:
    some session has it, no session has an earlier valid one, and there is
    none exactly when no session has a valid date. *)
Theorem earliestDate_least (sessions : list BusinessRecord) :
  match earliestDate sessions with
  | Some d =>
      exists t, d = TimeValue t
        /\ (exists s, In s sessions
                      /\ newDate (or_opt (start_time s) (timestamp s)) = TimeValue t)
        /\ (forall s u, In s sessions ->
              newDate (or_opt (start_time s) (timestamp s)) = TimeValue u -> t <= u)
  | None =>
      forall s, In s sessions ->
        newDate (or_opt (start_time s) (timestamp s)) = InvalidDate
  end.
Proof.
  unfold earliestDate.
  set (dateOf := fun s => newDate (or_opt (start_time s) (timestamp s))).
  destruct sessions as [|s0 rest] eqn:Es; [intros s []|]. rewrite <- Es. clear Es.
  destruct (valid_times (map dateOf sessions)) as (ts & Hmap & Hin).
  rewrite Hmap. destruct ts as [|t r]; cbn [map].
  - intros s Hs. destruct (dateOf s) as [|u] eqn:Ed; auto.
    exfalso. apply (proj2 (Hin u)). rewrite <- Ed. now apply in_map.
  - destruct (Math_min_valid t r) as (m & Hm & Hmem & Hle).
    rewrite Hm. exists m. split; [reflexivity|]. split.
    + apply Hin in Hmem. apply in_map_iff in Hmem as (s & Hd & Hs). eauto.
    + intros s u Hs Hd. apply Hle. apply Hin. fold (dateOf s) in Hd.
      rewrite <- Hd. now apply in_map.
Qed.

End EarliestDate.

Section LoadingSessions.
Import Js Business SalesLeaderboard.
Context `{Host}.

Lemma keepSession_type_only (t : SessionType) (s : BusinessRecord) :
  keepSession (only t) {| from := None; to := None |} s
  = SessionType_eqb (_sessionType s) t.
Proof.
  unfold keepSession; simpl. now destruct (SessionType_eqb (_sessionType s) t).
Qed.

Lemma filter_type_loaded (t : SessionType) (pfs ks : list BusinessRecord) :
  Forall (fun s => _sessionType s = pathfinder) pfs ->
  Forall (fun s => _sessionType s = kiss) ks ->
  filteredSessions (only t) anyDate (pfs ++ ks)
  = match t with
    | pathfinder => pfs
    | kiss => ks
    end.
Proof.
  intros Hpfs Hks. unfold filteredSessions, anyDate. rewrite filter_app.
  rewrite !(filter_ext _ _ (keepSession_type_only t)).
  assert (Hsame : forall u l, Forall (fun s => _sessionType s = u) l ->
                  filter (fun s => SessionType_eqb (_sessionType s) t) l
                  = if SessionType_eqb u t then l else []).
  { intros u l. induction 1 as [|s r Hs _ IH]; simpl.
    - now destruct (SessionType_eqb u t).
    - rewrite Hs, IH. now destruct (SessionType_eqb u t). }
  rewrite (Hsame _ _ Hpfs), (Hsame _ _ Hks).
  destruct t; simpl; auto. apply app_nil_r.
Qed.

Lemma map_throwing_pure {A B : Type} (g : A -> B) (l : list A) :
  map_throwing (fun x => Returned (g x)) l = Returned (map g l).
Proof.
  induction l as [|x r IH]; simpl; auto. now rewrite IH.
Qed.

Lemma map_throwing_returned {A B : Type} (f : A -> Completion B) (l : list A)
  (ys : list B) :
  map_throwing f l = Returned ys <-> Forall2 (fun x y => f x = Returned y) l ys.
Proof.
  revert ys. induction l as [|x r IH]; intros ys; simpl.
  - split.
    + intros [= <-]. constructor.
    + intros Hall. inversion Hall. reflexivity.
  - split.
    + destruct (f x) as [y|e] eqn:Ex; simpl; [|discriminate].
      destruct (map_throwing f r) as [zs|e] eqn:Er; simpl; [|discriminate].
      intros [= <-]. constructor; auto. now apply IH.
    + intros Hall. inversion Hall as [|? y ? zs Hx Hr]; subst.
      rewrite Hx. simpl. apply IH in Hr. rewrite Hr. reflexivity.
Qed.

Lemma map_throwing_thrown {A B : Type} (f : A -> Completion B) (l : list A) :
  Exists (fun x => f x = Thrown TypeError) l ->
  map_throwing f l = Thrown TypeError.
Proof.
  induction 1 as [x r Hx|x r _ IH]; simpl.
  - now rewrite Hx.
  - destruct (f x) as [y|[]]; simpl; auto. now rewrite IH.
Qed.

Lemma normalizeElement_returned (e : option KissRawRecord) (r : BusinessRecord) :
  normalizeElement e = Returned r <-> normalizedAs e r.
Proof.
  unfold normalizedAs. destruct e as [k|]; simpl; split.
  - eauto.
  - now intros (k' & [= <-] & Hk).
  - discriminate.
  - now intros (k' & [=] & _).
Qed.

Lemma normalizeElement_thrown (e : option KissRawRecord) :
  normalizeElement e = Thrown TypeError <-> broken e.
Proof.
  unfold broken, normalizeElement, normalizeKissRecord.
  destruct e as [k|]; [|tauto]. destruct (data k); split; congruence.
Qed.

Lemma normalizedAs_kiss (e : option KissRawRecord) (r : BusinessRecord) :
  normalizedAs e r -> _sessionType r = kiss.
Proof.
  intros (k & _ & Hk). unfold normalizeKissRecord in Hk.
  destruct (data k); [|discriminate]. now injection Hk as <-.
Qed.

(** What [found] can come to: an exception, a value that is no array, or
    an array. *)
Lemma found_cases {A : Type} (key : PayloadItem -> Completion (ArrayField A))
  (data : list PayloadItem) :
  found key data = Thrown TypeError
  \/ found key data = Returned NoArray
  \/ exists l, found key data = Returned (Elements l).
Proof.
  induction data as [|item rest IH]; simpl.
  - right. right. now exists [].
  - destruct (key item) as [[| |l]|[]]; simpl; eauto.
Qed.


End LoadingSessions.

(* ===================================================================== *)
(** ** The overview: filters and options *)
(* ===================================================================== *)

Section OverviewDefaults.
Import Js Overview.
Context `{Host}.

Lemma min_num_nan (r : list (option Z)) : fold_left min_num r None = None.
Proof. induction r as [|x r IH]; simpl; auto. Qed.

Lemma max_num_nan (r : list (option Z)) : fold_left max_num r None = None.
Proof. induction r as [|x r IH]; simpl; auto. Qed.

Lemma Math_min_lower (x : option Z) (r : list (option Z)) (m : Z) :
  Math_min x r = Some m -> forall u, In (Some u) (x :: r) -> m <= u.
Proof.
  unfold Math_min. revert x. induction r as [|y r IH]; intros x Hm u Hu.
  - simpl in Hm. subst x. destruct Hu as [[= ->]|[]]. lia.
  - cbn [fold_left] in Hm.
    destruct x as [a|]; [|simpl in Hm; rewrite min_num_nan in Hm; discriminate].
    destruct y as [b|]; [|simpl in Hm; rewrite min_num_nan in Hm; discriminate].
    simpl in Hm. pose proof (IH _ Hm) as Hle.
    assert (Hab : m <= Z.min a b) by (apply Hle; now left).
    destruct Hu as [[= ->]|[[= ->]|Hu]]; try lia.
    apply Hle. now right.
Qed.

Lemma Math_max_upper (x : option Z) (r : list (option Z)) (m : Z) :
  Math_max x r = Some m -> forall u, In (Some u) (x :: r) -> u <= m.
Proof.
  unfold Math_max. revert x. induction r as [|y r IH]; intros x Hm u Hu.
  - simpl in Hm. subst x. destruct Hu as [[= ->]|[]]. lia.
  - cbn [fold_left] in Hm.
    destruct x as [a|]; [|simpl in Hm; rewrite max_num_nan in Hm; discriminate].
    destruct y as [b|]; [|simpl in Hm; rewrite max_num_nan in Hm; discriminate].
    simpl in Hm. pose proof (IH _ Hm) as Hle.
    assert (Hab : Z.max a b <= m) by (apply Hle; now left).
    destruct Hu as [[= ->]|[[= ->]|Hu]]; try lia.
    apply Hle. now right.
Qed.

Lemma default_dates_enclose (f : Filters) (pathfinderData kissData : list DataEntry)
  (e : DataEntry) :
  daysEnclose ->
  In e (pathfinderData ++ kissData) ->
  outsideRange (afterLoad f pathfinderData kissData) e = false.
Proof.
  intros Hdays He. unfold afterLoad, defaultDates.
  destruct (map (fun entry => getTime (Date_parse (timeCreated entry)))
                (pathfinderData ++ kissData)) as [|x r] eqn:Etimes.
  { destruct (pathfinderData ++ kissData); [destruct He|discriminate]. }
  assert (Hmem : In (getTime (Date_parse (timeCreated e))) (x :: r)).
  { rewrite <- Etimes.
    now apply (in_map (fun entry => getTime (Date_parse (timeCreated entry)))). }
  unfold outsideRange; cbn [startDate endDate option_map].
  destruct (Date_parse (timeCreated e)) as [|te] eqn:Ee.
  { destruct (setHours_start _), (setHours_end _); reflexivity. }
  simpl in Hmem.
  apply orb_false_iff. split.
  - destruct (Math_min x r) as [m|] eqn:Em; simpl; auto.
    pose proof (Math_min_lower x r m Em te Hmem) as Hle.
    pose proof (Hdays m) as [H1 _].
    pose proof (Hdays (startOfDay m)) as [H2 _].
    apply Z.ltb_ge. lia.
  - destruct (Math_max x r) as [m|] eqn:Em; simpl; auto.
    pose proof (Math_max_upper x r m Em te Hmem) as Hle.
    pose proof (Hdays m) as [_ H1].
    pose proof (Hdays (endOfDay m)) as [_ H2].
    unfold date_gt, date_lt. apply Z.ltb_ge. lia.
Qed.

(** X19. The date range that is set when the overview data arrives hides
    nothing: on a host whose day boundaries enclose the time they are taken
    of, and with all agents and all teams selected, both filters keep every
    entry of the data just loaded (entries whose time does not parse
    included). *)
Theorem default_range_hides_nothing (f : Filters)
  (pathfinderData kissData : list DataEntry) :
  daysEnclose ->
  agentFilter f = "all" ->
  boundFilter f = "all" ->
  filterPathfinderData (afterLoad f pathfinderData kissData) pathfinderData
  = pathfinderData
  /\ filterKissData (afterLoad f pathfinderData kissData) kissData = kissData.
Proof.
  intros Hdays Hagent Hbound.
  assert (Hf : agentFilter (afterLoad f pathfinderData kissData) = "all"
               /\ boundFilter (afterLoad f pathfinderData kissData) = "all").
  { unfold afterLoad. destruct (defaultDates pathfinderData kissData) as [[lo hi]|];
      simpl; auto. }
  destruct Hf as [Ha Hb].
  split; apply filter_all_true; intros e He.
  - unfold keepPathfinder.
    rewrite (default_dates_enclose f pathfinderData kissData e Hdays)
      by (apply in_or_app; now left).
    now rewrite Ha, Hb.
  - unfold keepKiss.
    rewrite (default_dates_enclose f pathfinderData kissData e Hdays)
      by (apply in_or_app; now right).
    now rewrite Ha, Hb.
Qed.

End OverviewDefaults.

Section OverviewTeams.
Import Js Business Overview.
Context `{Host}.

Lemma team_member (team : list string) (mail : string) :
  existsb (fun m => String.eqb (toLowerCase m) (trim (toLowerCase mail))) team = true
  -> exists m, In m team /\ toLowerCase m = trim (toLowerCase mail).
Proof.
  intros Hex. apply existsb_exists in Hex as (m & Hin & Heq).
  exists m. split; auto. now apply String.eqb_eq.
Qed.

Lemma getPathfinderBound_values (email : option string) (b : string) :
  getPathfinderBound email = Some b ->
  exists mail, email = Some mail /\ mail <> ""
    /\ ((b = "inbound"
         /\ exists m, In m PATHFINDER_INBOUND_TEAM
                      /\ toLowerCase m = trim (toLowerCase mail))
        \/ (b = "outbound"
            /\ exists m, In m PATHFINDER_OUTBOUND_TEAM
                         /\ toLowerCase m = trim (toLowerCase mail))).
Proof.
  unfold getPathfinderBound. destruct email as [mail|]; [|discriminate].
  destruct (truthy mail) eqn:Et; [|discriminate].
  intros Hb. exists mail. split; auto. split.
  { intros ->. discriminate. }
  destruct (existsb _ PATHFINDER_INBOUND_TEAM) eqn:Ein.
  - left. split; [congruence|]. now apply team_member.
  - destruct (existsb _ PATHFINDER_OUTBOUND_TEAM) eqn:Eout; [|discriminate].
    right. split; [congruence|]. now apply team_member.
Qed.

Lemma outsideRange_cleared (e : DataEntry) (agent team : string) :
  outsideRange {| startDate := None; endDate := None;
                  agentFilter := agent; boundFilter := team |} e = false.
Proof. reflexivity. Qed.

(** X20. What the agent and team selections of the overview keep. A kept
    Pathfinder entry is by the selected agent and, when a team is selected,
    carries a non-empty e-mail whose lower-cased, trimmed form is a member of
    that team's list; a kept KISS entry is by the selected agent and has a
    bound field whose lower-cased, trimmed form is the selected team. An entry
    without e-mail (Pathfinder) or without bound (KISS) is dropped as soon as
    a team is selected, a team name other than inbound and outbound keeps no
    Pathfinder entry, the letter case of the e-mail does not matter, and after
    [clearFilters] both filters keep every entry. *)
Theorem team_filter_selects (f : Filters) (e : DataEntry) :
  (keepPathfinder f e = true ->
     (agentFilter f <> "all" -> salesPerson e = agentFilter f)
     /\ (boundFilter f <> "all" ->
         exists mail m, salesEmail e = Some mail /\ mail <> ""
           /\ toLowerCase m = trim (toLowerCase mail)
           /\ ((boundFilter f = "inbound" /\ In m PATHFINDER_INBOUND_TEAM)
               \/ (boundFilter f = "outbound" /\ In m PATHFINDER_OUTBOUND_TEAM))))
  /\ (keepKiss f e = true ->
        (agentFilter f <> "all" -> salesPerson e = agentFilter f)
        /\ (boundFilter f <> "all" ->
            exists b, bound e = Some b /\ trim (toLowerCase b) = boundFilter f))
  /\ (boundFilter f <> "all" ->
        (salesEmail e = None -> keepPathfinder f e = false)
        /\ (bound e = None -> keepKiss f e = false)
        /\ (boundFilter f <> "inbound" -> boundFilter f <> "outbound" ->
            keepPathfinder f e = false))
  /\ (forall mail, getPathfinderBound (Some (toLowerCase mail))
                   = getPathfinderBound (Some mail))
  /\ (forall data, filterPathfinderData clearFilters data = data
                   /\ filterKissData clearFilters data = data).
Proof.
  split; [|split; [|split; [|split]]].
  - unfold keepPathfinder. destruct (outsideRange f e); [discriminate|].
    intros Hkeep.
    assert (Hagent : agentFilter f <> "all" -> salesPerson e = agentFilter f).
    { intros Ha.
      destruct (String.eqb_spec (agentFilter f) "all") as [Ea|Ea]; [contradiction|].
      destruct (String.eqb_spec (salesPerson e) (agentFilter f)) as [Es|Es]; auto.
      discriminate. }
    split; auto. intros Hteam.
    destruct (_ && _)%bool; [discriminate|].
    destruct (String.eqb_spec (boundFilter f) "all") as [Eb|Eb]; [contradiction|].
    cbn [negb] in Hkeep.
    destruct (getPathfinderBound (salesEmail e)) as [b|] eqn:Eg; [|discriminate].
    apply String.eqb_eq in Hkeep. subst b.
    destruct (getPathfinderBound_values _ _ Eg)
      as (mail & Hm & Hne & [(Hi & m & Hin & Hlow)|(Ho & m & Hin & Hlow)]);
      exists mail, m; repeat split; auto.
  - unfold keepKiss. destruct (outsideRange f e); [discriminate|].
    intros Hkeep.
    assert (Hagent : agentFilter f <> "all" -> salesPerson e = agentFilter f).
    { intros Ha.
      destruct (String.eqb_spec (agentFilter f) "all") as [Ea|Ea]; [contradiction|].
      destruct (String.eqb_spec (salesPerson e) (agentFilter f)) as [Es|Es]; auto.
      discriminate. }
    split; auto. intros Hteam.
    destruct (_ && _)%bool; [discriminate|].
    destruct (String.eqb_spec (boundFilter f) "all") as [Eb|Eb]; [contradiction|].
    cbn [negb] in Hkeep.
    destruct (bound e) as [b|]; cbn [option_map] in Hkeep; [|discriminate].
    apply andb_true_iff in Hkeep as [_ Hkeep]. apply String.eqb_eq in Hkeep.
    exists b. auto.
  - intros Hb. split; [|split].
    + intros He. unfold keepPathfinder. rewrite He.
      destruct (outsideRange f e); auto.
      destruct (_ && _)%bool; auto.
      destruct (String.eqb_spec (boundFilter f) "all"); [contradiction|reflexivity].
    + intros He. unfold keepKiss. rewrite He.
      destruct (outsideRange f e); auto.
      destruct (_ && _)%bool; auto.
      destruct (String.eqb_spec (boundFilter f) "all"); [contradiction|reflexivity].
    + intros Hin Hout. unfold keepPathfinder.
      destruct (outsideRange f e); auto.
      destruct (_ && _)%bool; auto.
      destruct (String.eqb_spec (boundFilter f) "all"); [contradiction|].
      cbn [negb].
      destruct (getPathfinderBound (salesEmail e)) as [b|] eqn:Eg; auto.
      apply String.eqb_neq. intros Hsame.
      destruct (getPathfinderBound_values _ _ Eg) as (_ & _ & _ & [[Hi _]|[Ho _]]);
        congruence.
  - intros mail. unfold getPathfinderBound.
    now rewrite truthy_toLowerCase, toLowerCase_idempotent.
  - intros data. split; apply filter_all_true; intros x _; reflexivity.
Qed.


End OverviewTeams.

Section DistributionOrder.
Import Js Overview.

Lemma countOf_permutation (p : string) (data data' : list DataEntry) :
  Permutation data data' -> countOf p data = countOf p data'.
Proof.
  induction 1 as [|e l l' _ IH|e e' l|l l' l'' _ IH1 _ IH2].
  - reflexivity.
  - now rewrite !countOf_cons, IH.
  - rewrite !countOf_cons. lia.
  - congruence.
Qed.

(** X22. The product distribution depends on which entries are charted, not
    on their order: two lists with the same entries in a different order
    give the same buckets, in the same order and with the same counts and
    colours. *)
Theorem distribution_order_independent (data data' : list DataEntry) :
  Permutation data data' ->
  calculateProductDistribution data = calculateProductDistribution data'.
Proof.
  intros Hperm. unfold calculateProductDistribution.
  rewrite !distributionOf_counts.
  now rewrite !(countOf_permutation _ data data' Hperm).
Qed.

End DistributionOrder.

(* ===================================================================== *)
(** ** The detail page: time spent *)
(* ===================================================================== *)

Section TimeSpent.
Import Js BusinessDetail.
Context `{Host}.

(** X23. For two time stamps that parse, the time spent stands for the
    whole minutes between them, rounded down: the days, hours and minutes
    shown add up to that number, days are shown only when positive and then
    with hours below 24 and minutes below 60, hours only from one hour on,
    and an end before the start is shown as a negative number of minutes. *)
Theorem elapsed_accounts_for_minutes (start stop : option string) (a b : Z) :
  truthy_opt start = true ->
  truthy_opt stop = true ->
  newDate start = TimeValue a ->
  newDate stop = TimeValue b ->
  wholeMinutes (elapsed start stop) = Some ((b - a) / 60000)
  /\ match elapsed start stop with
     | DaysHoursMinutes d h m => 0 < d /\ 0 <= h < 24 /\ 0 <= m < 60
     | HoursMinutes h m => 0 < h < 24 /\ 0 <= m < 60
     | MinutesOnly m => m < 60 /\ (m < 0 <-> b < a)
     | NoTimes | NotANumber => False
     end.
Proof.
  intros Hs He Ha Hb. unfold elapsed.
  rewrite Hs, He, Ha, Hb. cbn [negb orb getTime].
  set (minutes := (b - a) / 60000).
  assert (Hneg : minutes < 0 <-> b < a).
  { pose proof (Z.div_mod (b - a) 60000 ltac:(lia)) as Hdiv.
    pose proof (Z.mod_pos_bound (b - a) 60000 ltac:(lia)) as Hrest.
    fold minutes in Hdiv. lia. }
  pose proof (Z.div_mod minutes 60 ltac:(lia)) as Hm.
  pose proof (Z.mod_pos_bound minutes 60 ltac:(lia)) as Hm'.
  pose proof (Z.div_mod (minutes / 60) 24 ltac:(lia)) as Hh.
  pose proof (Z.mod_pos_bound (minutes / 60) 24 ltac:(lia)) as Hh'.
  destruct (Z.ltb_spec 0 (minutes / 60 / 24)) as [Hd|Hd].
  - assert (Hhours : 0 <= minutes / 60) by lia.
    assert (Hmin : 0 <= minutes) by lia.
    rewrite (Z.rem_mod_nonneg (minutes / 60) 24) by lia.
    rewrite (Z.rem_mod_nonneg minutes 60) by lia.
    cbn [wholeMinutes]. split; [f_equal; lia|lia].
  - destruct (Z.ltb_spec 0 (minutes / 60)) as [Hp|Hp].
    + assert (Hmin : 0 <= minutes) by lia.
      rewrite (Z.rem_mod_nonneg minutes 60) by lia.
      cbn [wholeMinutes]. split; [f_equal; lia|lia].
    + cbn [wholeMinutes]. split; [reflexivity|]. split; [lia|exact Hneg].
Qed.

End TimeSpent.

(* ===================================================================== *)
(** ** The theorems on the sample data *)
(* ===================================================================== *)

Section OnSamples.
Import Js Business.

Lemma utc_days_enclose : daysEnclose (H:=RefHost.utc).
Proof.
  intros t. cbn [startOfDay endOfDay RefHost.utc].
  pose proof (Z.mod_pos_bound t RefHost.msPerDay eq_refl) as Hrest.
  unfold RefHost.msPerDay in *. lia.
Qed.

Lemma scenario_steps_bounded (s : BusinessRecord) :
  In s Samples.scenario -> 0 <= step s <= total_steps s.
Proof.
  intros [<-|[<-|[]]]; cbn [step total_steps Samples.pathfinderRecord]; lia.
Qed.

(** X2 on the scenario: the one record that passes the selection of Lead Gen
    has that product. *)
Lemma filtered_matches_selection_witness :
  In (Samples.pathfinderRecord "A" "c1" 2 (Some "Lead Gen") (Some "2024-01-05"))
     (ResultsList.filtered (H:=RefHost.utc) Samples.leadGenOnly Samples.scenario)
  /\ product (Samples.pathfinderRecord "A" "c1" 2 (Some "Lead Gen")
                (Some "2024-01-05"))
     = Some "Lead Gen".
Proof.
  assert (Hin : In (Samples.pathfinderRecord "A" "c1" 2 (Some "Lead Gen")
                      (Some "2024-01-05"))
                   (ResultsList.filtered (H:=RefHost.utc) Samples.leadGenOnly
                      Samples.scenario)).
  { left. reflexivity. }
  split; [exact Hin|].
  apply (proj1 (@filtered_matches_selection RefHost.utc Samples.leadGenOnly
                  Samples.scenario _ Hin)).
  discriminate.
Defined.

(** X7 on the fifty-two records: the second page shows rows 51 to 52. *)
Lemma page_slice_matches_count_witness :
  1 <= 2 <= ResultsList.totalPages Samples.busyDay
  /\ Z.of_nat (List.length (ResultsList.paginatedResults Samples.busyDay 2))
     = ResultsList.showingTo Samples.busyDay 2 - ResultsList.showingFrom 2 + 1.
Proof.
  assert (Hp : 1 <= 2 <= ResultsList.totalPages Samples.busyDay).
  { vm_compute. split; discriminate. }
  split; [exact Hp|].
  exact (proj1 (page_slice_matches_count Samples.busyDay 2 Hp)).
Defined.

(** X8 on the fifty-two records: the next button on the first page. *)
Lemma navigation_stays_in_range_witness :
  pageInRange (H:=RefHost.utc) Samples.busyDay (ResultsList.initialState None)
  /\ pageInRange (H:=RefHost.utc) Samples.busyDay
       (react (H:=RefHost.utc) Samples.busyDay NextClicked
          (ResultsList.initialState None)).
Proof.
  assert (Hp : pageInRange (H:=RefHost.utc) Samples.busyDay
                 (ResultsList.initialState None)).
  { vm_compute. split; discriminate. }
  split; [exact Hp|].
  exact (@navigation_stays_in_range RefHost.utc Samples.busyDay
           (ResultsList.initialState None) NextClicked Hp I).
Defined.

(** X9 on the fifty-two records: on the second page, choosing 3 January as
    the last day, or 6 January as the first, leaves one record and an empty
    page 2. *)
Lemma date_change_keeps_page_witness :
  (ResultsList.totalPages
     (ResultsList.shownIn (H:=RefHost.utc) Samples.busyDay
        (pickDate ToCalendar (Some (TimeValue Samples.jan3)) Samples.secondPage))
   < ResultsList.currentPage Samples.secondPage
   /\ List.length
        (ResultsList.shownIn (H:=RefHost.utc) Samples.busyDay
           (pickDate ToCalendar (Some (TimeValue Samples.jan3)) Samples.secondPage))
      = 1%nat
   /\ ResultsList.visibleRows (H:=RefHost.utc) Samples.busyDay
        (pickDate ToCalendar (Some (TimeValue Samples.jan3)) Samples.secondPage)
      = [])
  /\ (ResultsList.totalPages
        (ResultsList.shownIn (H:=RefHost.utc) Samples.busyDay
           (pickDate FromCalendar (Some (TimeValue Samples.jan6))
              Samples.secondPage))
      < ResultsList.currentPage Samples.secondPage
      /\ List.length
           (ResultsList.shownIn (H:=RefHost.utc) Samples.busyDay
              (pickDate FromCalendar (Some (TimeValue Samples.jan6))
                 Samples.secondPage))
         = 1%nat
      /\ ResultsList.visibleRows (H:=RefHost.utc) Samples.busyDay
           (pickDate FromCalendar (Some (TimeValue Samples.jan6))
              Samples.secondPage)
         = []).
Proof.
  assert (Hto : ResultsList.totalPages
                  (ResultsList.shownIn (H:=RefHost.utc) Samples.busyDay
                     (pickDate ToCalendar (Some (TimeValue Samples.jan3))
                        Samples.secondPage))
                < ResultsList.currentPage Samples.secondPage).
  { vm_compute. reflexivity. }
  assert (Hfrom : ResultsList.totalPages
                    (ResultsList.shownIn (H:=RefHost.utc) Samples.busyDay
                       (pickDate FromCalendar (Some (TimeValue Samples.jan6))
                          Samples.secondPage))
                  < ResultsList.currentPage Samples.secondPage).
  { vm_compute. reflexivity. }
  split; (split; [assumption|split; [vm_compute; reflexivity|]]).
  - exact (proj2 (@date_change_keeps_page RefHost.utc Samples.busyDay
                    Samples.secondPage ToCalendar (Some (TimeValue Samples.jan3))
                    Hto)).
  - exact (proj2 (@date_change_keeps_page RefHost.utc Samples.busyDay
                    Samples.secondPage FromCalendar (Some (TimeValue Samples.jan6))
                    Hfrom)).
Defined.

(** X10 for ten pages with page 5 open. *)
Lemma page_links_shape_witness :
  1 <= 10
  /\ StronglySorted Z.lt (linksOf (ResultsList.pageItems 10 5))
  /\ In (ResultsList.pageLink 10) (ResultsList.pageItems 10 5).
Proof.
  assert (Hp : 1 <= 10) by discriminate.
  split; [exact Hp|].
  split.
  - exact (proj1 (proj2 (proj2 (proj2 (proj2 (page_links_shape 10 5 Hp)))))).
  - exact (proj1 (proj2 (page_links_shape 10 5 Hp))).
Defined.

(** X13 on the morning record with 5 January selected as first and last
    day. *)
Lemma leaderboard_session_filter_witness :
  newDate (H:=RefHost.utc)
    (or_opt (timestamp Samples.morningRecord) (start_time Samples.morningRecord))
  = TimeValue Samples.jan5morning
  /\ SalesLeaderboard.keepSession (H:=RefHost.utc) SalesLeaderboard.all
       (leaderboardRange (Some Samples.jan5) (Some Samples.jan5))
       Samples.morningRecord
     = true.
Proof.
  assert (Hd : newDate (H:=RefHost.utc)
                 (or_opt (timestamp Samples.morningRecord)
                    (start_time Samples.morningRecord))
               = TimeValue Samples.jan5morning) by reflexivity.
  split; [exact Hd|].
  apply (proj1 (@leaderboard_session_filter RefHost.utc SalesLeaderboard.all
                  (Some Samples.jan5) (Some Samples.jan5) Samples.morningRecord
                  Samples.jan5morning Hd)).
  split; [now left|].
  split; intros x [= <-]; vm_compute; discriminate.
Defined.

(** X15 on the scenario, whose two sessions reached 2 and 8 of 8 steps. *)
Lemma leaderboard_averages_bounded_witness :
  (forall s, In s Samples.scenario -> 0 <= step s <= total_steps s)
  /\ Z.of_nat (List.length Samples.scenario) < 2 ^ 32
  /\ Forall (fun g => (0 <= SalesLeaderboard.averagePercentComplete g <= 100)%Q
                      /\ (0 <= SalesLeaderboard.averageStep g)%Q)
       (SalesLeaderboard.leaderboardStats SalesLeaderboard.all Samples.scenario).
Proof.
  split; [exact scenario_steps_bounded|]. split; [reflexivity|].
  exact (leaderboard_averages_bounded SalesLeaderboard.all Samples.scenario
           scenario_steps_bounded eq_refl).
Defined.

(** X19 on the reference host, for one Pathfinder and one KISS entry two
    days apart. *)
Lemma default_range_hides_nothing_witness :
  daysEnclose (H:=RefHost.utc)
  /\ Overview.filterPathfinderData (H:=RefHost.utc)
       (Overview.afterLoad (H:=RefHost.utc) Overview.clearFilters
          [Samples.morningEntry] [Samples.laterEntry])
       [Samples.morningEntry]
     = [Samples.morningEntry]
  /\ Overview.filterKissData (H:=RefHost.utc)
       (Overview.afterLoad (H:=RefHost.utc) Overview.clearFilters
          [Samples.morningEntry] [Samples.laterEntry])
       [Samples.laterEntry]
     = [Samples.laterEntry].
Proof.
  split; [exact utc_days_enclose|].
  exact (@default_range_hides_nothing RefHost.utc Overview.clearFilters
           [Samples.morningEntry] [Samples.laterEntry]
           utc_days_enclose eq_refl eq_refl).
Defined.

(** X22 for two entries in either order. *)
Lemma distribution_order_independent_witness :
  Permutation [Samples.morningEntry; Samples.laterEntry]
              [Samples.laterEntry; Samples.morningEntry]
  /\ Overview.calculateProductDistribution [Samples.morningEntry; Samples.laterEntry]
     = Overview.calculateProductDistribution
         [Samples.laterEntry; Samples.morningEntry].
Proof.
  split; [apply perm_swap|].
  exact (distribution_order_independent _ _
           (perm_swap Samples.laterEntry Samples.morningEntry [])).
Defined.

(** X23 for a session that ran from 2024-01-05T08:00:00Z to
    2024-01-06T09:30:00Z: one day, one hour and thirty minutes. *)
Lemma elapsed_accounts_for_minutes_witness :
  newDate (H:=RefHost.utc) (Some "2024-01-05T08:00:00Z")
  = TimeValue Samples.jan5morning
  /\ newDate (H:=RefHost.utc) (Some "2024-01-06T09:30:00Z")
     = TimeValue Samples.jan6halfPastNine
  /\ wholeMinutes
       (BusinessDetail.elapsed (H:=RefHost.utc) (Some "2024-01-05T08:00:00Z")
          (Some "2024-01-06T09:30:00Z"))
     = Some ((Samples.jan6halfPastNine - Samples.jan5morning) / 60000).
Proof.
  split; [reflexivity|]. split; [reflexivity|].
  exact (proj1 (@elapsed_accounts_for_minutes RefHost.utc
                  (Some "2024-01-05T08:00:00Z") (Some "2024-01-06T09:30:00Z")
                  Samples.jan5morning Samples.jan6halfPastNine
                  eq_refl eq_refl eq_refl eq_refl)).
Defined.

End OnSamples.
